(** * AgenPay payment-request lifecycle: X402PayService and SchedulingService

    A shallow embedding of the payment-request engine of the AgenPay backend
    (lib/X402PayService.js, lib/SchedulingService.js, the part of
    lib/WalletService.js they call, and the Prisma schema), followed by the
    properties of the lifecycle specification checked against it.

    Conventions of the embedding:
    - a Prisma table keyed by a caller-visible id is a [gmap string _]; a
      table whose ids are generated by the database is a list, a row's id
      being its position;
    - a nullable column or a JS value that may be [null]/[undefined] is an
      [option]; JS truthiness of such a string is [truthy];
    - foreign keys are the database's business: a stored row's [userId] is
      taken to name a stored user, and insertions do not check it again;
    - an [async] method is a state-and-exception computation [Async A]: a
      thrown error leaves the effects performed so far in place, as in JS;
    - time is in milliseconds; each [new Date()] / [Date.now()] is one read
      of the world clock, which may have advanced since the previous read;
      the calendar methods of [Date] work in the local zone of the process,
      which is part of the world;
    - [Math.random()] draws are taken from a supply carried by the world;
    - console output is not modelled. *)

From stdpp Require Import gmap strings list fin_maps pretty.
From Stdlib Require Import ZArith QArith Lia.

Local Open Scope Z_scope.

(** ** JS values *)

(** Truthiness of a possibly missing string: [null], [undefined] and the
    empty string are falsy. *)
Definition truthy (v : option string) : bool :=
  match v with
  | Some s => bool_decide (s ≠ "")
  | None => false
  end.

(** [a || b] on possibly missing strings. *)
Definition jsOr (a b : option string) : option string :=
  if truthy a then a else b.

(** A template-literal hole filled with a possibly [null] string. *)
Definition interpolate (v : option string) : string := default "null" v.

(** Rendering of a JS number inside a template literal (exact for integral
    amounts; no property below depends on the rendering). *)
Definition numberToString (q : Q) : string :=
  if bool_decide (Qden q = 1%positive) then pretty (Qnum q)
  else pretty (Qnum q) +:+ "/" +:+ pretty (Z.pos (Qden q)).

Definition upcase (c : Ascii.ascii) : Ascii.ascii :=
  let n := Ascii.nat_of_ascii c in
  if (bool_decide (97 ≤ n)%nat && bool_decide (n ≤ 122)%nat)%bool
  then Ascii.ascii_of_nat (n - 32) else c.

Fixpoint toUpperCase (s : string) : string :=
  match s with
  | EmptyString => EmptyString
  | String c r => String (upcase c) (toUpperCase r)
  end.

(** ** JS dates

    A time value is a number of milliseconds since the epoch, in UTC. The
    calendar methods of [Date] work in the local zone of the process, which
    the source does not pin: [LocalTZA(t, isUTC)] is the offset of that zone
    in milliseconds, at the instant [t] when [isUTC], and at the local time
    [t] otherwise. *)
Definition msPerDay : Z := 86400000.
Definition Day (t : Z) : Z := t / msPerDay.
Definition TimeWithinDay (t : Z) : Z := t mod msPerDay.
Definition MakeDate (day time : Z) : Z := day * msPerDay + time.

Definition TimeZone : Type := Z → bool → Z.
Definition LocalTime (zone : TimeZone) (t : Z) : Z := t + zone t true.
Definition UTC (zone : TimeZone) (t : Z) : Z := t - zone t false.

(** [date.setDate(date.getDate() + n)]. With [t] the local time of the date,
    [setDate(dt)] stores
    [UTC(MakeDate(MakeDay(YearFromTime(t), MonthFromTime(t), dt), TimeWithinDay(t)))],
    and [MakeDay(y, m, dt)] is the day number of the first of the month plus
    [dt - 1]; for [dt = getDate() + n] that is the day number of [t] plus [n],
    a day of the month past its end running on into the following months. *)
Definition addDays (zone : TimeZone) (n : Z) (tv : Z) : Z :=
  let t := LocalTime zone tv in
  UTC zone (MakeDate (Day t + n) (TimeWithinDay t)).

(** ** Data model (Prisma schema) *)

Module NotionDatabase.
Record t := mk { databaseType : string; databaseId : string }.
End NotionDatabase.

Module User.
Record t := mk {
  walletAddress : option string;
  notionApiKey : option string;
  notionDatabases : list NotionDatabase.t }.
End User.

(** The columns of a payment request other than its primary key [id], which
    is the key of the table; a fetched row is the pair of the two. *)
Module PaymentRequest.
Record t := mk {
  userId : string;
  amount : Q;
  currency : string;
  network : string;
  recipientEmail : option string;
  recipientName : option string;
  description : option string;
  aiPrompt : option string;
  transactionType : string;
  scheduleType : string;
  scheduledDate : option Z;
  status : string;
  x402PayLink : option string;
  paymentHash : option string;
  paidAt : option Z;
  refundDate : option Z;
  createdAt : Z }.

(** [data: { status }] *)
Definition set_status (v : string) (r : t) : t :=
  mk (userId r) (amount r) (currency r) (network r) (recipientEmail r)
     (recipientName r) (description r) (aiPrompt r) (transactionType r)
     (scheduleType r) (scheduledDate r) v (x402PayLink r) (paymentHash r)
     (paidAt r) (refundDate r) (createdAt r).

(** [data: { status, paymentHash, paidAt }] *)
Definition set_paid (v : string) (hash : string) (now : Z) (r : t) : t :=
  mk (userId r) (amount r) (currency r) (network r) (recipientEmail r)
     (recipientName r) (description r) (aiPrompt r) (transactionType r)
     (scheduleType r) (scheduledDate r) v (x402PayLink r) (Some hash)
     (Some now) (refundDate r) (createdAt r).

(** [data: { refundDate }] *)
Definition set_refundDate (d : Z) (r : t) : t :=
  mk (userId r) (amount r) (currency r) (network r) (recipientEmail r)
     (recipientName r) (description r) (aiPrompt r) (transactionType r)
     (scheduleType r) (scheduledDate r) (status r) (x402PayLink r)
     (paymentHash r) (paidAt r) (Some d) (createdAt r).

Definition row : Type := string * t.
End PaymentRequest.

Module OutgoingPayment.
Record t := mk {
  userId : string;
  amount : Q;
  currency : string;
  network : string;
  recipientAddress : string;        (* TEXT NOT NULL *)
  recipientName : option string;
  fromName : option string;
  description : option string;
  scheduleDate : Z;
  status : string;
  txHash : option string;
  executedAt : option Z;
  relatedRequestId : option string }.

Definition set_status (v : string) (r : t) : t :=
  mk (userId r) (amount r) (currency r) (network r) (recipientAddress r)
     (recipientName r) (fromName r) (description r) (scheduleDate r) v
     (txHash r) (executedAt r) (relatedRequestId r).

(** [data: { status, txHash, executedAt }]; an [undefined] [txHash] leaves
    the column as it is. *)
Definition set_executed (v : string) (h : option string) (now : Z) (r : t) : t :=
  mk (userId r) (amount r) (currency r) (network r) (recipientAddress r)
     (recipientName r) (fromName r) (description r) (scheduleDate r) v
     (match h with Some _ => h | None => txHash r end) (Some now)
     (relatedRequestId r).

Definition set_failed (v : string) (now : Z) (r : t) : t :=
  mk (userId r) (amount r) (currency r) (network r) (recipientAddress r)
     (recipientName r) (fromName r) (description r) (scheduleDate r) v
     (txHash r) (Some now) (relatedRequestId r).
End OutgoingPayment.

Module Transaction.
Record t := mk {
  userId : string;
  type : string;
  status : string;
  amount : Q;
  currency : string;
  network : option string;
  description : option string;
  toAddress : option string;
  fromAddress : option string;
  txHash : option string;
  x402PayId : option string;
  relatedRequestId : option string;
  completedAt : option Z }.

(** [data: { txHash, status }] *)
Definition set_sent (h : string) (v : string) (r : t) : t :=
  mk (userId r) (type r) v (amount r) (currency r) (network r)
     (description r) (toAddress r) (fromAddress r) (Some h) (x402PayId r)
     (relatedRequestId r) (completedAt r).

(** [data: { status }] *)
Definition set_status (v : string) (r : t) : t :=
  mk (userId r) (type r) v (amount r) (currency r) (network r)
     (description r) (toAddress r) (fromAddress r) (txHash r) (x402PayId r)
     (relatedRequestId r) (completedAt r).
End Transaction.

(** The in-memory routing record kept in [this.paymentRoutes]. *)
Module RouteConfig.
Record t := mk {
  userId : string;
  userWalletAddress : string;
  amount : Q;
  currency : string;
  network : string;
  description : option string;
  transactionType : string;
  createdAt : Z }.
End RouteConfig.

(** Calls that leave the process: the Notion mirror and the wallet send. *)
Inductive NotionCall :=
| updateOrCreateIncomingPaymentRecord (databaseId requestId status : string)
| addIncomingPaymentRecord (databaseId requestId status : string)
| addOutgoingPaymentRecord (databaseId : string) (paymentId : nat) (status : string).

(** The arguments of one [walletService.sendCrypto(...)] call. *)
Record SendCryptoCall := mkSendCryptoCall {
  call_userId : string;
  call_toAddress : option string;
  call_amount : Q;
  call_currency : string;
  call_network : string }.

(** ** The world: durable store, process memory and environment *)

Record State := mkState {
  db_user : gmap string User.t;
  db_paymentRequest : gmap string PaymentRequest.t;
  db_outgoingPayment : list OutgoingPayment.t;
  db_transaction : list Transaction.t;
  paymentRoutes : gmap string RouteConfig.t;   (* X402PayService.paymentRoutes *)
  initialized : bool;                          (* WalletService.initialized *)
  notionCalls : list NotionCall;
  sendCryptoCalls : list SendCryptoCall;
  clock : Z;                                   (* last value read from the clock *)
  ticks : list N;                              (* time elapsing before the next reads *)
  randoms : list string;                       (* supply of Math.random() digits *)
  BASE_URL : option string;
  LocalTZA : TimeZone }.                       (* the local zone of the process *)

Definition set_db_user (f : gmap string User.t → gmap string User.t) (s : State) : State :=
  mkState (f (db_user s)) (db_paymentRequest s) (db_outgoingPayment s)
    (db_transaction s) (paymentRoutes s) (initialized s) (notionCalls s)
    (sendCryptoCalls s) (clock s) (ticks s) (randoms s) (BASE_URL s) (LocalTZA s).

Definition set_db_paymentRequest
    (f : gmap string PaymentRequest.t → gmap string PaymentRequest.t) (s : State) : State :=
  mkState (db_user s) (f (db_paymentRequest s)) (db_outgoingPayment s)
    (db_transaction s) (paymentRoutes s) (initialized s) (notionCalls s)
    (sendCryptoCalls s) (clock s) (ticks s) (randoms s) (BASE_URL s) (LocalTZA s).

Definition set_db_outgoingPayment
    (f : list OutgoingPayment.t → list OutgoingPayment.t) (s : State) : State :=
  mkState (db_user s) (db_paymentRequest s) (f (db_outgoingPayment s))
    (db_transaction s) (paymentRoutes s) (initialized s) (notionCalls s)
    (sendCryptoCalls s) (clock s) (ticks s) (randoms s) (BASE_URL s) (LocalTZA s).

Definition set_db_transaction
    (f : list Transaction.t → list Transaction.t) (s : State) : State :=
  mkState (db_user s) (db_paymentRequest s) (db_outgoingPayment s)
    (f (db_transaction s)) (paymentRoutes s) (initialized s) (notionCalls s)
    (sendCryptoCalls s) (clock s) (ticks s) (randoms s) (BASE_URL s) (LocalTZA s).

Definition set_paymentRoutes
    (f : gmap string RouteConfig.t → gmap string RouteConfig.t) (s : State) : State :=
  mkState (db_user s) (db_paymentRequest s) (db_outgoingPayment s)
    (db_transaction s) (f (paymentRoutes s)) (initialized s) (notionCalls s)
    (sendCryptoCalls s) (clock s) (ticks s) (randoms s) (BASE_URL s) (LocalTZA s).

Definition set_notionCalls (f : list NotionCall → list NotionCall) (s : State) : State :=
  mkState (db_user s) (db_paymentRequest s) (db_outgoingPayment s)
    (db_transaction s) (paymentRoutes s) (initialized s) (f (notionCalls s))
    (sendCryptoCalls s) (clock s) (ticks s) (randoms s) (BASE_URL s) (LocalTZA s).

Definition set_sendCryptoCalls
    (f : list SendCryptoCall → list SendCryptoCall) (s : State) : State :=
  mkState (db_user s) (db_paymentRequest s) (db_outgoingPayment s)
    (db_transaction s) (paymentRoutes s) (initialized s) (notionCalls s)
    (f (sendCryptoCalls s)) (clock s) (ticks s) (randoms s) (BASE_URL s) (LocalTZA s).

Definition set_time (t : Z) (rest : list N) (s : State) : State :=
  mkState (db_user s) (db_paymentRequest s) (db_outgoingPayment s)
    (db_transaction s) (paymentRoutes s) (initialized s) (notionCalls s)
    (sendCryptoCalls s) t rest (randoms s) (BASE_URL s) (LocalTZA s).

Definition set_randoms (rest : list string) (s : State) : State :=
  mkState (db_user s) (db_paymentRequest s) (db_outgoingPayment s)
    (db_transaction s) (paymentRoutes s) (initialized s) (notionCalls s)
    (sendCryptoCalls s) (clock s) (ticks s) rest (BASE_URL s) (LocalTZA s).

(** ** Async computations: state and exceptions *)

Inductive Completion (A : Type) :=
| Return (a : A)
| Throw (message : string).
Arguments Return {A} a.
Arguments Throw {A} message.

Definition Async (A : Type) : Type := State → Completion A * State.

#[export] Instance Async_ret : MRet Async := λ A a s, (Return a, s).

#[export] Instance Async_bind : MBind Async := λ A B k m s,
  match m s with
  | (Return a, s') => k a s'
  | (Throw e, s') => (Throw e, s')
  end.

Definition throw {A} (message : string) : Async A := λ s, (Throw message, s).

(** [try { m } catch (error) { h error.message }] *)
Definition tryCatch {A} (m : Async A) (h : string → Async A) : Async A := λ s,
  match m s with
  | (Return a, s') => (Return a, s')
  | (Throw e, s') => h e s'
  end.

Definition gets {A} (f : State → A) : Async A := λ s, (Return (f s), s).
Definition modify (f : State → State) : Async unit := λ s, (Return tt, f s).

Definition resolves {A} (c : Completion A) : bool :=
  match c with Return _ => true | Throw _ => false end.

(** [for (const x of xs) { await f(x) }] *)
Fixpoint forOf {A} (xs : list A) (f : A → Async unit) : Async unit :=
  match xs with
  | [] => mret tt
  | x :: rest => _ ← f x; forOf rest f
  end.

(** [new Date()] / [Date.now()]: the clock moves by the next tick, then is read. *)
Definition newDate : Async Z := λ s,
  match ticks s with
  | [] => (Return (clock s), s)
  | d :: rest => let t := clock s + Z.of_N d in (Return t, set_time t rest s)
  end.

(** [Math.random().toString(36).substr(2, n)] *)
Definition random36 : Async string := λ s,
  match randoms s with
  | [] => (Return "", s)
  | r :: rest => (Return r, set_randoms rest s)
  end.

(** ** Prisma client *)

Module prisma.

(** [user.findUnique({ where: { id } })]; an [undefined] id is refused. *)
Definition user_findUnique (id : option string) : Async (option User.t) :=
  match id with
  | None => throw "Argument `where` needs at least one of `id` or `email` arguments"
  | Some id => gets (λ s, db_user s !! id)
  end.

Definition paymentRequest_findUnique (id : string) : Async (option PaymentRequest.t) :=
  gets (λ s, db_paymentRequest s !! id).

(** [findMany({ where, include: { user } })]: the rows satisfying [where],
    each joined with its owner at query time. *)
Definition paymentRequest_findMany (where_ : PaymentRequest.t → bool)
    : Async (list (PaymentRequest.row * option User.t)) :=
  gets (λ s,
    (λ row : PaymentRequest.row, (row, db_user s !! PaymentRequest.userId row.2))
      <$> filter (λ row : PaymentRequest.row, where_ row.2 = true)
            (map_to_list (db_paymentRequest s))).

(** [create]: the primary key must be new. *)
Definition paymentRequest_create (id : string) (data : PaymentRequest.t)
    : Async PaymentRequest.t :=
  existing ← paymentRequest_findUnique id;
  match existing with
  | Some _ => throw "Unique constraint failed on the fields: (`id`)"
  | None => _ ← modify (set_db_paymentRequest <[id := data]>); mret data
  end.

(** [update({ where: { id }, data })]: throws when no row has the id, and
    resolves with the updated row. *)
Definition paymentRequest_update (id : string)
    (data : PaymentRequest.t → PaymentRequest.t) : Async PaymentRequest.t :=
  existing ← paymentRequest_findUnique id;
  match existing with
  | None => throw "Record to update not found."
  | Some r => _ ← modify (set_db_paymentRequest <[id := data r]>); mret (data r)
  end.

(** [transaction.create]: the new row's id is its position. *)
Definition transaction_create (data : Transaction.t) : Async nat :=
  n ← gets (λ s, length (db_transaction s));
  _ ← modify (set_db_transaction (λ l, l ++ [data]));
  mret n.

Definition transaction_update (id : nat) (data : Transaction.t → Transaction.t)
    : Async unit :=
  existing ← gets (λ s, db_transaction s !! id);
  match existing with
  | None => throw "Record to update not found."
  | Some r => modify (set_db_transaction <[id := data r]>)
  end.

Definition outgoingPayment_create (data : OutgoingPayment.t) : Async nat :=
  n ← gets (λ s, length (db_outgoingPayment s));
  _ ← modify (set_db_outgoingPayment (λ l, l ++ [data]));
  mret n.

Definition outgoingPayment_update (id : nat)
    (data : OutgoingPayment.t → OutgoingPayment.t) : Async unit :=
  existing ← gets (λ s, db_outgoingPayment s !! id);
  match existing with
  | None => throw "Record to update not found."
  | Some r => modify (set_db_outgoingPayment <[id := data r]>)
  end.

(** [outgoingPayment.findMany({ where, include: { user } })], ids included. *)
Definition outgoingPayment_findMany (where_ : OutgoingPayment.t → bool)
    : Async (list (nat * OutgoingPayment.t * option User.t)) :=
  gets (λ s,
    (λ row : nat * OutgoingPayment.t,
       (row, db_user s !! OutgoingPayment.userId row.2))
      <$> filter (λ row : nat * OutgoingPayment.t, where_ row.2 = true)
            (imap (λ i r, (i, r)) (db_outgoingPayment s))).

End prisma.

(** ** X402PayService *)

Inductive Body :=
| json (error : string) (details : option string)
| successPage (paymentId : string) (amount : Q) (currency : string)
    (description : option string) (walletAddress : option string).

Record Response := mkResponse { statusCode : nat; body : Body }.

Module X402PayService.

Definition routeConfigOf (payment : PaymentRequest.t) (wallet : string)
    : RouteConfig.t :=
  RouteConfig.mk (PaymentRequest.userId payment) wallet
    (PaymentRequest.amount payment) (PaymentRequest.currency payment)
    (PaymentRequest.network payment) (PaymentRequest.description payment)
    (PaymentRequest.transactionType payment) (PaymentRequest.createdAt payment).

Definition awaitingPayment (payment : PaymentRequest.t) : bool :=
  bool_decide (PaymentRequest.status payment ∈ ["processing"; "scheduled"]).

(** One iteration of the loop that populates the routes map. *)
Definition loadRoute (entry : PaymentRequest.row * option User.t) : Async unit :=
  let '((id, payment), user) := entry in
  match user ≫= User.walletAddress with
  | Some wallet =>
      if bool_decide (wallet ≠ "")
      then modify (set_paymentRoutes <[id := routeConfigOf payment wallet]>)
      else mret tt
  | None => mret tt
  end.

Definition loadActivePaymentRoutes : Async unit :=
  tryCatch
    (activePayments ← prisma.paymentRequest_findMany awaitingPayment;
     forOf activePayments loadRoute)
    (λ _, mret tt).

(** The constructor: an empty routes map, then the load from the database. *)
Definition constructor : Async unit :=
  _ ← modify (set_paymentRoutes (λ _, ∅));
  loadActivePaymentRoutes.

Record CreateArgs := mkCreateArgs {
  arg_userId : string;
  arg_amount : Q;                        (* [parseFloat(amount)] *)
  arg_currency : option string;
  arg_network : option string;
  arg_recipientEmail : option string;
  arg_recipientName : option string;
  arg_description : option string;
  arg_transactionType : option string;
  arg_scheduleType : option string;
  arg_scheduledDate : option Z;
  arg_aiPrompt : option string }.

Record CreateResult := mkCreateResult {
  success : bool;
  paymentId : string;
  paymentUrl : string;
  destinationWallet : string;
  request : PaymentRequest.t }.

Definition createPaymentRequest (a : CreateArgs) : Async CreateResult :=
  let userId := arg_userId a in
  let currency := default "USDC" (arg_currency a) in
  let network := default "sei-testnet" (arg_network a) in
  let transactionType := default "ask_payment" (arg_transactionType a) in
  let scheduleType := default "immediate" (arg_scheduleType a) in
  tryCatch
    (user ← prisma.user_findUnique (Some userId);
     match user ≫= User.walletAddress with
     | None => throw "User must create a Privy wallet before requesting payments"
     | Some walletAddress =>
       if bool_decide (walletAddress = "")
       then throw "User must create a Privy wallet before requesting payments"
       else
         now ← newDate;
         rnd ← random36;
         let paymentId := "x402_" +:+ pretty now +:+ "_" +:+ rnd in
         base ← gets BASE_URL;
         let paymentUrl :=
           default "http://localhost:3001" (jsOr base None) +:+ "/x402pay/" +:+ paymentId in
         createdAt ← newDate;
         paymentRequest ← prisma.paymentRequest_create paymentId
           (PaymentRequest.mk userId (arg_amount a) currency network
              (arg_recipientEmail a) (arg_recipientName a) (arg_description a)
              (arg_aiPrompt a) transactionType scheduleType (arg_scheduledDate a)
              (if bool_decide (scheduleType = "immediate")
               then "processing" else "scheduled")
              (Some paymentUrl) None None None createdAt);
         routeCreatedAt ← newDate;
         _ ← modify (set_paymentRoutes
               <[paymentId :=
                   RouteConfig.mk userId walletAddress (arg_amount a) currency
                     network (arg_description a) transactionType routeCreatedAt]>);
         mret (mkCreateResult true paymentId paymentUrl walletAddress paymentRequest)
     end)
    throw.

(** The Notion mirror call of [updateNotionRecord]; its errors are swallowed. *)
Definition updateNotionRecord (paymentRequest : PaymentRequest.row) : Async unit :=
  tryCatch
    (user ← prisma.user_findUnique (Some (PaymentRequest.userId paymentRequest.2));
     match user with
     | Some u =>
         match filter (λ d, NotionDatabase.databaseType d = "INCOMING_PAYMENTS")
                 (User.notionDatabases u) with
         | d :: _ =>
             if truthy (User.notionApiKey u)
             then modify (set_notionCalls (λ l, l ++
                    [updateOrCreateIncomingPaymentRecord (NotionDatabase.databaseId d)
                       paymentRequest.1 "payment_received"]))
             else mret tt
         | [] => mret tt
         end
     | None => mret tt
     end)
    (λ _, mret tt).

(** [recipientAddress] is a required column ([TEXT NOT NULL]) filled with the
    request's nullable [recipientEmail]: for a request without recipient
    e-mail Prisma rejects the [create], after the clock was read. *)
Definition scheduleRefund (paymentRequest : PaymentRequest.row)
    : Async OutgoingPayment.t :=
  let '(id, request) := paymentRequest in
  tryCatch
    (now ← newDate;
     zone ← gets LocalTZA;
     let refundDate := addDays zone 30 now in
     match PaymentRequest.recipientEmail request with
     | None => throw "Argument `recipientAddress` must not be null."
     | Some recipientEmail =>
         let refundPayment :=
           OutgoingPayment.mk (PaymentRequest.userId request)
             (PaymentRequest.amount request) (PaymentRequest.currency request)
             (PaymentRequest.network request)
             recipientEmail
             (PaymentRequest.recipientName request)
             (Some "AgenPay Refund System")
             (Some ("Refund for: " +:+ interpolate (PaymentRequest.description request)))
             refundDate "scheduled" None None (Some id) in
         _ ← prisma.outgoingPayment_create refundPayment;
         _ ← prisma.paymentRequest_update id (PaymentRequest.set_refundDate refundDate);
         mret refundPayment
     end)
    throw.

(** The resolved value: the updated request spread with [toAddress]. *)
Definition PaymentResult : Type := PaymentRequest.row * option string.

(** The user is looked up under
    [paymentConfig?.userId || dbPaymentRequest?.userId]; the status written
    does not depend on the status read. *)
Definition handlePaymentSuccess (paymentId : string) (paymentProof : option string)
    : Async PaymentResult :=
  tryCatch
    (paymentConfig ← gets (λ s, paymentRoutes s !! paymentId);
     dbPaymentRequest ←
       match paymentConfig with
       | Some _ => mret None
       | None =>
           found ← prisma.paymentRequest_findUnique paymentId;
           match found with
           | None => throw ("Payment configuration not found for " +:+ paymentId)
           | Some r => mret (Some r)
           end
       end;
     user ← prisma.user_findUnique
              (jsOr (RouteConfig.userId <$> paymentConfig)
                    (PaymentRequest.userId <$> dbPaymentRequest));
     let toAddress := user ≫= User.walletAddress in
     paidAt ← newDate;
     paymentRequest ← prisma.paymentRequest_update paymentId
       (PaymentRequest.set_paid "payment_received"
          (default "X402_VERIFIED" (jsOr paymentProof None)) paidAt);
     completedAt ← newDate;
     _ ← prisma.transaction_create
           (Transaction.mk (PaymentRequest.userId paymentRequest) "INCOMING" "COMPLETED"
              (PaymentRequest.amount paymentRequest)
              (PaymentRequest.currency paymentRequest)
              (Some (PaymentRequest.network paymentRequest))
              (PaymentRequest.description paymentRequest)
              toAddress (Some "X402Pay_Verified_Sender")
              (Some (default ("x402_" +:+ paymentId) (jsOr paymentProof None)))
              (Some paymentId) (Some paymentId) (Some completedAt));
     _ ← (if bool_decide (PaymentRequest.transactionType paymentRequest = "ask_and_refund")
          then _ ← scheduleRefund (paymentId, paymentRequest); mret tt
          else mret tt);
     _ ← updateNotionRecord (paymentId, paymentRequest);
     _ ← modify (set_paymentRoutes (delete paymentId));
     mret ((paymentId, paymentRequest), toAddress))
    throw.

Definition cancelPaymentRequest (paymentId : string) : Async PaymentRequest.t :=
  tryCatch
    (paymentRequest ← prisma.paymentRequest_update paymentId
                        (PaymentRequest.set_status "cancelled");
     _ ← modify (set_paymentRoutes (delete paymentId));
     mret paymentRequest)
    throw.

(** *** The [/x402pay/:paymentId] route *)

(** The checks made before the verification middleware runs: [Some] is the
    response that ends the call, [None] lets it through to the middleware. *)
Definition routeLookup (paymentId : string) : Async (option Response) :=
  paymentConfig ← gets (λ s, paymentRoutes s !! paymentId);
  match paymentConfig with
  | None => mret (Some (mkResponse 404 (json "Payment link not found or expired" None)))
  | Some paymentConfig =>
      user ← prisma.user_findUnique (Some (RouteConfig.userId paymentConfig));
      if truthy (user ≫= User.walletAddress) then mret None
      else mret (Some (mkResponse 400
             (json "User wallet not found. Please create a Privy wallet first." None)))
  end.

(** The callback of the 5-second timer. [middlewareCompleted] and
    [headersSent] are the flags it reads when it fires; the result is the
    new value of [middlewareCompleted] and the response it sends, if any. *)
Definition onTimeout (paymentId : string) (xPayment : option string)
    (middlewareCompleted headersSent : bool) : Async (bool * option Response) :=
  if negb middlewareCompleted && negb headersSent then
    if truthy xPayment then
      tryCatch
        (paymentResult ← handlePaymentSuccess paymentId xPayment;
         let request := paymentResult.1.2 in
         mret (true, Some (mkResponse 200
                 (successPage paymentId (PaymentRequest.amount request)
                    (PaymentRequest.currency request)
                    (PaymentRequest.description request) paymentResult.2))))
        (λ err, mret (true, Some (mkResponse 400
                  (json "Payment verification failed" (Some err)))))
    else
      mret (true, Some (mkResponse 500 (json "X402 payment processing timeout" None)))
  else mret (middlewareCompleted, None).

End X402PayService.

(** ** WalletService (the send primitive) *)

Module WalletService.

(** The object [sendCrypto] resolves with. *)
Record SendResult := mkSendResult {
  success : bool;
  transactionId : nat;
  transactionHash : string;
  amount : Q;
  currency : string;
  toAddress : option string }.

(** [result.txHash] and [result.error]: properties the object does not
    have, hence [undefined]. *)
Definition txHash (result : SendResult) : option string := None.
Definition error (result : SendResult) : option string := None.

Definition getWallet (userId : string) : Async (string * string) :=
  tryCatch
    (user ← prisma.user_findUnique (Some userId);
     match user ≫= User.walletAddress with
     | None => throw "Wallet not found for user"
     | Some address =>
         if bool_decide (address = "") then throw "Wallet not found for user"
         else mret (address, "sei-testnet")
     end)
    throw.

(** The mock transfer: a random hash, never an error. *)
Definition sendBlockchainTransaction : Async string :=
  digits ← random36;
  mret ("0x" +:+ digits).

Definition sendCrypto (userId : string) (toAddress : option string) (amount : Q)
    (currency : string) : Async SendResult :=
  tryCatch
    (ready ← gets initialized;
     if negb ready then throw "Privy not initialized"
     else
       wallet ← getWallet userId;
       let fromAddress := wallet.1 in
       transaction ← prisma.transaction_create
         (Transaction.mk userId "SEND" "PROCESSING" amount (toUpperCase currency)
            None
            (Some ("Send " +:+ numberToString amount +:+ " " +:+ currency
                   +:+ " to " +:+ interpolate toAddress))
            toAddress (Some fromAddress) None None None None);
       tryCatch
         (txHash ← sendBlockchainTransaction;
          _ ← prisma.transaction_update transaction (Transaction.set_sent txHash "PENDING");
          mret (mkSendResult true transaction txHash amount currency toAddress))
         (λ sendError,
            _ ← prisma.transaction_update transaction (Transaction.set_status "FAILED");
            throw sendError))
    throw.

End WalletService.

(** ** SchedulingService *)

Module SchedulingService.

Definition lte (d : option Z) (now : Z) : bool :=
  match d with
  | Some d => bool_decide (d ≤ now)
  | None => false
  end.

(** [user?.notionApiKey && user.notionDatabases.length > 0], the databases
    being those of the given type. *)
Definition notionTarget (databaseType : string) (user : option User.t)
    : option string :=
  u ← user;
  if truthy (User.notionApiKey u) then
    NotionDatabase.databaseId <$>
      head (filter (λ d, NotionDatabase.databaseType d = databaseType)
              (User.notionDatabases u))
  else None.

(** [this.walletService.sendCrypto(userId, to, amount, currency, network)]:
    the call is recorded, then made; [sendCrypto] has four parameters and
    ignores the fifth argument. *)
Definition walletService_sendCrypto (userId : string) (toAddress : option string)
    (amount : Q) (currency network : string) : Async WalletService.SendResult :=
  _ ← modify (set_sendCryptoCalls (λ l, l ++
        [mkSendCryptoCall userId toAddress amount currency network]));
  WalletService.sendCrypto userId toAddress amount currency.

Definition updateNotionOutgoingPayment (userId : string)
    (payment : nat * OutgoingPayment.t) : Async unit :=
  tryCatch
    (user ← prisma.user_findUnique (Some userId);
     match notionTarget "OUTGOING_PAYMENTS" user with
     | Some databaseId =>
         modify (set_notionCalls (λ l, l ++
           [addOutgoingPaymentRecord databaseId payment.1
              (OutgoingPayment.status payment.2)]))
     | None => mret tt
     end)
    (λ _, mret tt).

Definition updateNotionIncomingPayment (userId : string)
    (request : PaymentRequest.row) : Async unit :=
  tryCatch
    (user ← prisma.user_findUnique (Some userId);
     match notionTarget "INCOMING_PAYMENTS" user with
     | Some databaseId =>
         modify (set_notionCalls (λ l, l ++
           [addIncomingPaymentRecord databaseId request.1
              (PaymentRequest.status request.2)]))
     | None => mret tt
     end)
    (λ _, mret tt).

Definition updateNotionRefund (userId : string) (request : PaymentRequest.row)
    (txHash : option string) : Async unit :=
  tryCatch
    (updateNotionIncomingPayment userId
       (request.1, PaymentRequest.set_status "refunded" request.2))
    (λ _, mret tt).

(** [payment.user.walletAddress]: a [TypeError] when the joined user is [null]. *)
Definition joinedWallet (user : option User.t) : Async (option string) :=
  match user with
  | None => throw "Cannot read properties of null (reading 'walletAddress')"
  | Some u => mret (User.walletAddress u)
  end.

Definition executeOutgoingPayment
    (payment : nat * OutgoingPayment.t * option User.t) : Async unit :=
  let '((id, p), user) := payment in
  tryCatch
    (_ ← prisma.outgoingPayment_update id (OutgoingPayment.set_status "processing");
     result ← walletService_sendCrypto (OutgoingPayment.userId p)
                (Some (OutgoingPayment.recipientAddress p))
                (OutgoingPayment.amount p) (OutgoingPayment.currency p)
                (OutgoingPayment.network p);
     if WalletService.success result then
       executedAt ← newDate;
       _ ← prisma.outgoingPayment_update id
             (OutgoingPayment.set_executed "completed"
                (WalletService.txHash result) executedAt);
       fromAddress ← joinedWallet user;
       completedAt ← newDate;
       _ ← prisma.transaction_create
             (Transaction.mk (OutgoingPayment.userId p) "OUTGOING" "COMPLETED"
                (OutgoingPayment.amount p) (OutgoingPayment.currency p)
                (Some (OutgoingPayment.network p)) (OutgoingPayment.description p)
                (Some (OutgoingPayment.recipientAddress p)) fromAddress
                (WalletService.txHash result) None
                (OutgoingPayment.relatedRequestId p) (Some completedAt));
       updateNotionOutgoingPayment (OutgoingPayment.userId p) (id, p)
     else
       throw (default "Payment execution failed"
                (jsOr (WalletService.error result) None)))
    (λ _,
       executedAt ← newDate;
       prisma.outgoingPayment_update id
         (OutgoingPayment.set_failed "failed" executedAt)).

Definition processScheduledPayments : Async unit :=
  tryCatch
    (now ← newDate;
     duePayments ← prisma.outgoingPayment_findMany
       (λ p, bool_decide (OutgoingPayment.status p = "scheduled")
             && bool_decide (OutgoingPayment.scheduleDate p ≤ now));
     forOf duePayments executeOutgoingPayment)
    (λ _, mret tt).

Definition executeRefund (paymentRequest : PaymentRequest.row * option User.t)
    : Async unit :=
  let '((id, request), user) := paymentRequest in
  tryCatch
    (let recipientAddress := PaymentRequest.recipientEmail request in
     result ← walletService_sendCrypto (PaymentRequest.userId request)
                recipientAddress (PaymentRequest.amount request)
                (PaymentRequest.currency request) (PaymentRequest.network request);
     if WalletService.success result then
       _ ← prisma.paymentRequest_update id (PaymentRequest.set_status "refunded");
       fromAddress ← joinedWallet user;
       completedAt ← newDate;
       _ ← prisma.transaction_create
             (Transaction.mk (PaymentRequest.userId request) "REFUND" "COMPLETED"
                (PaymentRequest.amount request) (PaymentRequest.currency request)
                (Some (PaymentRequest.network request))
                (Some ("Refund for: " +:+ interpolate (PaymentRequest.description request)))
                recipientAddress fromAddress
                (WalletService.txHash result) None (Some id) (Some completedAt));
       updateNotionRefund (PaymentRequest.userId request) (id, request)
         (WalletService.txHash result)
     else
       throw (default "Refund execution failed"
                (jsOr (WalletService.error result) None)))
    (λ _, mret tt).

(** The [where] clause of the refund cycle. *)
Definition refundDue (now : Z) (r : PaymentRequest.t) : bool :=
  bool_decide (PaymentRequest.transactionType r = "ask_and_refund")
  && bool_decide (PaymentRequest.status r = "payment_received")
  && lte (PaymentRequest.refundDate r) now.

Definition processScheduledRefunds : Async unit :=
  tryCatch
    (now ← newDate;
     refundDueRequests ← prisma.paymentRequest_findMany (refundDue now);
     forOf refundDueRequests executeRefund)
    (λ _, mret tt).

Definition activatePaymentRequest (request : PaymentRequest.row) : Async unit :=
  tryCatch
    (_ ← prisma.paymentRequest_update request.1 (PaymentRequest.set_status "processing");
     updateNotionIncomingPayment (PaymentRequest.userId request.2) request)
    (λ _, mret tt).

(** The [where] clause of the activation cycle. *)
Definition activationDue (now : Z) (r : PaymentRequest.t) : bool :=
  bool_decide (PaymentRequest.scheduleType r = "scheduled")
  && bool_decide (PaymentRequest.status r = "scheduled")
  && lte (PaymentRequest.scheduledDate r) now.

Definition processScheduledRequests : Async unit :=
  tryCatch
    (now ← newDate;
     dueRequests ← prisma.paymentRequest_findMany (activationDue now);
     forOf dueRequests (λ entry, activatePaymentRequest entry.1))
    (λ _, mret tt).

End SchedulingService.

(** ** The system: operations on the world *)

(** The final state of a computation, whether it resolved or threw. *)
Definition run {A} (m : Async A) (s : State) : State := (m s).2.

Inductive Operation :=
| Create (a : X402PayService.CreateArgs)
| PaymentSuccess (paymentId : string) (paymentProof : option string)
| Cancel (paymentId : string)
| Timeout (paymentId : string) (xPayment : option string)
    (middlewareCompleted headersSent : bool)
| Restart                                    (* a new process: the constructor *)
| PaymentCycle                               (* cron, every minute *)
| RefundCycle                                (* cron, every hour *)
| RequestCycle                               (* cron, every five minutes *)
| PutUser (id : string) (u : User.t)         (* registration, wallet or Notion set-up *)
| PrivyInit (ok : bool)                      (* WalletService initialisation *)
| Wait (elapsed : N)                         (* time passes between two calls *)
| Environment (elapsed : list N) (digits : list string).

Definition exec (op : Operation) (s : State) : State :=
  match op with
  | Create a => run (X402PayService.createPaymentRequest a) s
  | PaymentSuccess paymentId paymentProof =>
      run (X402PayService.handlePaymentSuccess paymentId paymentProof) s
  | Cancel paymentId => run (X402PayService.cancelPaymentRequest paymentId) s
  | Timeout paymentId xPayment completed sent =>
      run (X402PayService.onTimeout paymentId xPayment completed sent) s
  | Restart => run X402PayService.constructor s
  | PaymentCycle => run SchedulingService.processScheduledPayments s
  | RefundCycle => run SchedulingService.processScheduledRefunds s
  | RequestCycle => run SchedulingService.processScheduledRequests s
  | PutUser id u => set_db_user <[id := u]> s
  | PrivyInit ok =>
      mkState (db_user s) (db_paymentRequest s) (db_outgoingPayment s)
        (db_transaction s) (paymentRoutes s) ok (notionCalls s)
        (sendCryptoCalls s) (clock s) (ticks s) (randoms s) (BASE_URL s) (LocalTZA s)
  | Wait elapsed => set_time (clock s + Z.of_N elapsed) (ticks s) s
  | Environment elapsed digits =>
      set_randoms (randoms s ++ digits) (set_time (clock s) (ticks s ++ elapsed) s)
  end.

(** A fresh deployment: no payment request has been stored yet. *)
Definition initial (s : State) : Prop := db_paymentRequest s = ∅.

Inductive reachable : State → Prop :=
| reachable_initial s : initial s → reachable s
| reachable_exec op s : reachable s → reachable (exec op s).

(** ** Observations used by the properties *)

(** The ledger entries of a settlement: INCOMING transactions of a request. *)
Definition isLedgerEntryOf (paymentId : string) (t : Transaction.t) : bool :=
  bool_decide (Transaction.type t = "INCOMING")
  && bool_decide (Transaction.relatedRequestId t = Some paymentId).

Definition ledgerEntries (paymentId : string) (s : State) : list Transaction.t :=
  filter (λ t, isLedgerEntryOf paymentId t = true) (db_transaction s).

(** The owner's receiving address, when it is set and not empty. *)
Definition walletOf (users : gmap string User.t) (userId : string) : option string :=
  u ← users !! userId;
  w ← User.walletAddress u;
  if bool_decide (w ≠ "") then Some w else None.

(** The route a stored request gives rise to when the routes are rebuilt. *)
Definition routeFor (users : gmap string User.t) (payment : PaymentRequest.t)
    : option RouteConfig.t :=
  if X402PayService.awaitingPayment payment
  then X402PayService.routeConfigOf payment <$> walletOf users (PaymentRequest.userId payment)
  else None.

(** The value the next [new Date()] returns. *)
Definition nextDate (s : State) : Z := clock s + Z.of_N (default 0%N (head (ticks s))).

(** The refund-date condition on a stored request: a refund date is present
    only on an [ask_and_refund] request that names a recipient e-mail and has
    a paid timestamp. *)
Definition refundDateOk (r : PaymentRequest.t) : Prop :=
  is_Some (PaymentRequest.refundDate r) →
    PaymentRequest.transactionType r = "ask_and_refund" ∧
    is_Some (PaymentRequest.recipientEmail r) ∧
    is_Some (PaymentRequest.paidAt r).

Definition refundInvariant (s : State) : Prop :=
  ∀ id r, db_paymentRequest s !! id = Some r → refundDateOk r.

(** The rows a [findMany] of the requests returns, in the order of the query. *)
Definition selected (where_ : PaymentRequest.t → bool) (s : State)
    : list PaymentRequest.row :=
  filter (λ row : PaymentRequest.row, where_ row.2 = true)
    (map_to_list (db_paymentRequest s)).

(** *** The users table, as the code writes it *)

(** Registration inserts a user who has no wallet yet, the Notion set-up
    updates [notionApiKey], and [createWallet] stores a wallet address;
    nothing in the code deletes a user or clears a wallet address. [PutUser]
    stands for all three: it is one of the code's writes when it does not
    take the wallet address from a user who has one. *)
Definition keepsWallets (op : Operation) (s : State) : Prop :=
  match op with
  | PutUser id u =>
      is_Some (walletOf (db_user s) id) → is_Some (walletOf {[id := u]} id)
  | _ => True
  end.

(** The states the code produces from a fresh deployment. *)
Inductive produced : State → Prop :=
| produced_initial s : initial s → produced s
| produced_exec op s : produced s → keepsWallets op s → produced (exec op s).

(** Every stored request belongs to a user with a wallet address. *)
Definition ownersHaveWallets (s : State) : Prop :=
  ∀ id r, db_paymentRequest s !! id = Some r →
    is_Some (walletOf (db_user s) (PaymentRequest.userId r)).

(** The requests a restart finds in an awaiting-payment status, and those
    among them in [processing]. *)
Definition awaitingRequests (s : State) : gmap string PaymentRequest.t :=
  filter (λ kv : string * PaymentRequest.t, X402PayService.awaitingPayment kv.2 = true)
    (db_paymentRequest s).

Definition processingRequests (s : State) : gmap string PaymentRequest.t :=
  filter (λ kv : string * PaymentRequest.t, PaymentRequest.status kv.2 = "processing")
    (db_paymentRequest s).

(** The routes of the requests stored in [processing]. *)
Definition processingRoutes (s : State) : gmap string RouteConfig.t :=
  filter (λ kv : string * RouteConfig.t,
            PaymentRequest.status <$> db_paymentRequest s !! kv.1 = Some "processing")
    (paymentRoutes s).

(** *** Ingredients of a settlement, as [handlePaymentSuccess] builds them *)

(** The request row after [data: { status, paymentHash, paidAt }]. *)
Definition settled (paymentProof : option string) (paidAt : Z)
    (r : PaymentRequest.t) : PaymentRequest.t :=
  PaymentRequest.set_paid "payment_received"
    (default "X402_VERIFIED" (jsOr paymentProof None)) paidAt r.

(** The INCOMING transaction record of a settlement. *)
Definition incomingEntry (paymentId : string) (paymentProof toAddress : option string)
    (completedAt : Z) (r : PaymentRequest.t) : Transaction.t :=
  Transaction.mk (PaymentRequest.userId r) "INCOMING" "COMPLETED"
    (PaymentRequest.amount r) (PaymentRequest.currency r)
    (Some (PaymentRequest.network r)) (PaymentRequest.description r)
    toAddress (Some "X402Pay_Verified_Sender")
    (Some (default ("x402_" +:+ paymentId) (jsOr paymentProof None)))
    (Some paymentId) (Some paymentId) (Some completedAt).

(** The OutgoingPayment row [scheduleRefund] creates. *)
Definition refundPayment (paymentId recipientEmail : string) (refundDate : Z)
    (r : PaymentRequest.t) : OutgoingPayment.t :=
  OutgoingPayment.mk (PaymentRequest.userId r) (PaymentRequest.amount r)
    (PaymentRequest.currency r) (PaymentRequest.network r) recipientEmail
    (PaymentRequest.recipientName r) (Some "AgenPay Refund System")
    (Some ("Refund for: " +:+ interpolate (PaymentRequest.description r)))
    refundDate "scheduled" None None (Some paymentId).

(** The Notion mirror calls a settlement of [paymentId] makes for its owner. *)
Definition mirrorCalls (users : gmap string User.t) (paymentId userId : string)
    : list NotionCall :=
  match SchedulingService.notionTarget "INCOMING_PAYMENTS" (users !! userId) with
  | Some databaseId =>
      [updateOrCreateIncomingPaymentRecord databaseId paymentId "payment_received"]
  | None => []
  end.

(** Whether [handlePaymentSuccess] resolves: the request is stored, the user
    id read from the route (when there is a route) is not empty, and a
    refundable request has a recipient to store on the refund row. *)
Definition settles (paymentId : string) (s : State) : bool :=
  match db_paymentRequest s !! paymentId with
  | None => false
  | Some r =>
      match paymentRoutes s !! paymentId with
      | Some c => bool_decide (RouteConfig.userId c ≠ "")
      | None => true
      end
      && (if bool_decide (PaymentRequest.transactionType r = "ask_and_refund")
          then bool_decide (is_Some (PaymentRequest.recipientEmail r))
          else true)
  end.


(** The error [createPaymentRequest] throws for a user without a wallet. *)
Definition noWalletMessage : string :=
  "User must create a Privy wallet before requesting payments".

(** The status [createPaymentRequest] stores, from the schedule type alone. *)
Definition createdStatus (a : X402PayService.CreateArgs) : string :=
  if bool_decide (default "immediate" (X402PayService.arg_scheduleType a) = "immediate")
  then "processing" else "scheduled".

(** The route of one query result, when its owner has a receiving address. *)
Definition entryRoute (entry : PaymentRequest.row * option User.t)
    : option RouteConfig.t :=
  w ← entry.2 ≫= User.walletAddress;
  if bool_decide (w ≠ "") then Some (X402PayService.routeConfigOf entry.1.2 w) else None.

(** The effect of one [loadRoute] on the routes map. *)
Definition loadStep (m : gmap string RouteConfig.t)
    (entry : PaymentRequest.row * option User.t) : gmap string RouteConfig.t :=
  match entryRoute entry with
  | Some c => <[entry.1.1 := c]> m
  | None => m
  end.

(** The call [executeRefund] makes on the send primitive for a request. *)
Definition refundCall (r : PaymentRequest.t) : SendCryptoCall :=
  mkSendCryptoCall (PaymentRequest.userId r) (PaymentRequest.recipientEmail r)
    (PaymentRequest.amount r) (PaymentRequest.currency r) (PaymentRequest.network r).

(** The response of the timer callback to the outcome of the settlement. *)
Definition timeoutResponse (paymentId : string)
    (c : Completion X402PayService.PaymentResult) : Response :=
  match c with
  | Return paymentResult =>
      mkResponse 200
        (successPage paymentId (PaymentRequest.amount paymentResult.1.2)
           (PaymentRequest.currency paymentResult.1.2)
           (PaymentRequest.description paymentResult.1.2) paymentResult.2)
  | Throw e => mkResponse 400 (json "Payment verification failed" (Some e))
  end.

(** *** Frames: what a computation leaves alone *)

(** Every run of [m] relates the state it starts in to the state it ends in. *)
Definition preserves {A} (R : relation State) (m : Async A) : Prop :=
  ∀ s, R s (m s).2.

(** The two states agree on what [f] reads. *)
Definition agreeOn {B} (f : State → B) : relation State := λ s s', f s' = f s.

(** A projection that reads nothing of the clock or of the random supply. *)
Class Stored {B} (f : State → B) : Prop := {
  stored_time t k s : f (set_time t k s) = f s;
  stored_randoms k s : f (set_randoms k s) = f s }.

(** Two rows that differ at most in their status column. *)
Definition sameButStatus (r r' : PaymentRequest.t) : Prop :=
  PaymentRequest.set_status "" r' = PaymentRequest.set_status "" r.

(** The stored requests changed at most in status columns. *)
Definition statusOnly : relation State := λ s s',
  ∀ id, match db_paymentRequest s !! id, db_paymentRequest s' !! id with
        | Some r, Some r' => sameButStatus r r'
        | None, None => True
        | _, _ => False
        end.

(** The stored requests changed at most by being marked refunded. *)
Definition refundsOnly : relation State := λ s s',
  ∀ id, db_paymentRequest s' !! id = db_paymentRequest s !! id ∨
        ∃ r, db_paymentRequest s !! id = Some r ∧
             db_paymentRequest s' !! id = Some (PaymentRequest.set_status "refunded" r).

Definition refunded (id : string) (s : State) : Prop :=
  ∃ r, db_paymentRequest s !! id = Some r ∧ PaymentRequest.status r = "refunded".

(** ** Scenarios: concrete worlds on which the model is run *)

Module Scenario.

Import X402PayService.

Definition alice : User.t :=
  User.mk (Some "0xA11CE") (Some "secret_notion_token")
    [NotionDatabase.mk "INCOMING_PAYMENTS" "incoming-db"].

(** A registered user who has not created a wallet. *)
Definition carol : User.t := User.mk None None [].

(** A server that runs in UTC. *)
Definition utc : TimeZone := λ _ _, 0.

(** A fresh deployment at some instant; a few milliseconds pass between
    successive clock reads. *)
Definition world : State :=
  mkState {["alice" := alice; "carol" := carol]} ∅ [] [] ∅ true [] []
    1700000000000 [3; 0; 2; 5; 1; 4; 6; 2; 3; 1; 2; 4]%N
    ["k3x9q"; "p7m2z"; "t5w8c"; "h1d4v"] None utc.

Definition requestFor (transactionType scheduleType : string)
    (recipientEmail : option string) (scheduledDate : option Z) : CreateArgs :=
  mkCreateArgs "alice" (100 # 1) (Some "USDC") None recipientEmail (Some "Bob")
    (Some "Deposit") (Some transactionType) (Some scheduleType) scheduledDate None.

Definition invoice : CreateArgs :=
  requestFor "ask_payment" "immediate" (Some "bob@example.com") None.
Definition deposit : CreateArgs :=
  requestFor "ask_and_refund" "immediate" (Some "bob@example.com") None.
Definition anonymousDeposit : CreateArgs :=
  requestFor "ask_and_refund" "immediate" None None.
(** Scheduled one hour after, and 1000 seconds before, the creation. *)
Definition futureInvoice : CreateArgs :=
  requestFor "ask_payment" "scheduled" (Some "bob@example.com") (Some 1700003600000).
Definition lateInvoice : CreateArgs :=
  requestFor "ask_payment" "scheduled" (Some "bob@example.com") (Some 1699999000000).

(** The id the first creation in [world] allocates. *)
Definition pid : string := "x402_1700000000003_k3x9q".
Definition proof : option string := Some "signed-payment-proof".

Definition created (a : CreateArgs) : State := exec (Create a) world.
Definition paid (a : CreateArgs) : State := exec (PaymentSuccess pid proof) (created a).

(** The stored status of a request. *)
Definition statusOf (id : string) (s : State) : option string :=
  PaymentRequest.status <$> db_paymentRequest s !! id.

Definition paidTwice (a : CreateArgs) : State :=
  exec (PaymentSuccess pid proof) (paid a).

(** The refund cycle run thirty days after the settlement of [deposit]. *)
Definition dueWorld : State := exec (Wait 2592000000) (paid deposit).
Definition refundedWorld : State := exec RefundCycle dueWorld.

(** America/New_York around its clock changes of 5 November 2023 (06:00 UTC,
    back to UTC-5) and of 10 March 2024 (07:00 UTC, forward to UTC-4). A
    local time that occurs twice, or not at all, is read with the offset in
    force before the change. *)
Definition newYork : TimeZone := λ t isUTC,
  if isUTC then
    if (t <? 1699164000000) || (1710054000000 <=? t) then -14400000 else -18000000
  else
    if (t <? 1699149600000) || (1710039600000 <=? t) then -14400000 else -18000000.

(** The same deployment on a server in New York, on 26 February 2024 and on
    11 October 2023 (local dates), each less than 30 days before a clock
    change. *)
Definition worldIn (zone : TimeZone) (now : Z) : State :=
  mkState (db_user world) ∅ [] [] ∅ true [] [] now (ticks world) (randoms world)
    None zone.

Definition february : State := worldIn newYork 1709000000000.
Definition februaryPid : string := "x402_1709000000003_k3x9q".
Definition paidInFebruary : State :=
  exec (PaymentSuccess februaryPid proof) (exec (Create deposit) february).

Definition october : State := worldIn newYork 1697000000000.
Definition octoberPid : string := "x402_1697000000003_k3x9q".
Definition paidInOctober : State :=
  exec (PaymentSuccess octoberPid proof) (exec (Create deposit) october).

(** Two requests await payment: one in [processing], one [scheduled]. *)
Definition twoAwaiting : State := exec (Create futureInvoice) (created invoice).

(** The row of [deposit] once it is paid. *)
Definition paidDeposit : PaymentRequest.t :=
  PaymentRequest.mk "alice" (100 # 1) "USDC" "sei-testnet" (Some "bob@example.com")
    (Some "Bob") (Some "Deposit") None "ask_and_refund" "immediate" None
    "payment_received"
    (Some "http://localhost:3001/x402pay/x402_1700000000003_k3x9q")
    (Some "signed-payment-proof") (Some 1700000000010) (Some 1702592000015)
    1700000000003.

End Scenario.

(** * The scheduler's cycles, row by row *)

(** Whether [sendCrypto] resolves for a user: the wallet service is
    initialised and the user has a wallet. *)
Definition sends (s : State) (userId : string) : bool :=
  initialized s && bool_decide (is_Some (walletOf (db_user s) userId)).

(** What the refund cycle run in [s] does to a stored request. *)
Definition refundStep (s : State) (r : PaymentRequest.t) : PaymentRequest.t :=
  if SchedulingService.refundDue (nextDate s) r && sends s (PaymentRequest.userId r)
  then PaymentRequest.set_status "refunded" r else r.

(** What the activation cycle run in [s] does to a stored request. *)
Definition activationStep (s : State) (r : PaymentRequest.t) : PaymentRequest.t :=
  if SchedulingService.activationDue (nextDate s) r
  then PaymentRequest.set_status "processing" r else r.

(** The [where] clause of the payment cycle. *)
Definition paymentDue (now : Z) (p : OutgoingPayment.t) : bool :=
  bool_decide (OutgoingPayment.status p = "scheduled")
  && bool_decide (OutgoingPayment.scheduleDate p ≤ now).

(** The call [executeOutgoingPayment] makes on the send primitive. *)
Definition paymentCall (p : OutgoingPayment.t) : SendCryptoCall :=
  mkSendCryptoCall (OutgoingPayment.userId p) (Some (OutgoingPayment.recipientAddress p))
    (OutgoingPayment.amount p) (OutgoingPayment.currency p) (OutgoingPayment.network p).

(** The row [executeOutgoingPayment] leaves behind: [completed] when the send
    went through, [failed] otherwise, with the time of the last update. The
    send result has no [txHash], so that column is never written. *)
Definition executed (sent : bool) (executedAt : Z) (p : OutgoingPayment.t)
    : OutgoingPayment.t :=
  if sent then OutgoingPayment.set_executed "completed" None executedAt p
  else OutgoingPayment.set_failed "failed" executedAt p.

(** What the payment cycle run in [s] does to a stored outgoing payment. *)
Definition paymentStep (s : State) (p p' : OutgoingPayment.t) : Prop :=
  if paymentDue (nextDate s) p
  then ∃ executedAt, p' = executed (sends s (OutgoingPayment.userId p)) executedAt p
  else p' = p.

(** The rows a [findMany] of the outgoing payments returns, with their ids. *)
Definition selectedPayments (where_ : OutgoingPayment.t → bool) (s : State)
    : list (nat * OutgoingPayment.t) :=
  filter (λ row : nat * OutgoingPayment.t, where_ row.2 = true)
    (imap (λ i r, (i, r)) (db_outgoingPayment s)).

(** * Histories *)

(** The state after a sequence of operations. *)
Definition execAll (ops : list Operation) (s : State) : State :=
  foldl (λ st op, exec op st) s ops.

(** The ledger of [s'] extends the ledger of [s]: every transaction record of
    [s] is in [s'], at the same place and with the same contents. *)
Definition ledgerGrows : relation State := λ s s',
  db_transaction s `prefix_of` db_transaction s'.

(** The columns of a request that are fixed when it is created: all but the
    status, the payment hash, the paid timestamp and the refund date. *)
Definition terms (r : PaymentRequest.t) : PaymentRequest.t :=
  PaymentRequest.mk (PaymentRequest.userId r) (PaymentRequest.amount r)
    (PaymentRequest.currency r) (PaymentRequest.network r)
    (PaymentRequest.recipientEmail r) (PaymentRequest.recipientName r)
    (PaymentRequest.description r) (PaymentRequest.aiPrompt r)
    (PaymentRequest.transactionType r) (PaymentRequest.scheduleType r)
    (PaymentRequest.scheduledDate r) "" (PaymentRequest.x402PayLink r)
    None None None (PaymentRequest.createdAt r).

(** Every request of [s] is still stored in [s'], with the same terms. *)
Definition termsKept : relation State := λ s s',
  ∀ id r, db_paymentRequest s !! id = Some r →
    ∃ r', db_paymentRequest s' !! id = Some r' ∧ terms r' = terms r.

(** Every request of [s] is still stored in [s'], with the same terms, and
    is [scheduled] there only if it was in [s]. *)
Definition scheduleKept : relation State := λ s s',
  ∀ id r, db_paymentRequest s !! id = Some r →
    ∃ r', db_paymentRequest s' !! id = Some r' ∧ terms r' = terms r ∧
          (PaymentRequest.status r' = "scheduled" → PaymentRequest.status r = "scheduled").

(** Every outgoing payment of [s] that is no longer [scheduled] is stored
    unchanged in [s']. *)
Definition executedKept : relation State := λ s s',
  ∀ j p, db_outgoingPayment s !! j = Some p →
    OutgoingPayment.status p ≠ "scheduled" →
    db_outgoingPayment s' !! j = Some p.

(** The clock of [s'] is at or after the clock of [s]. *)
Definition clockGrows : relation State := λ s s', clock s ≤ clock s'.

(** * The payment link, continued *)

(** The route check answers 404 for [paymentId]: the link is dead. *)
Definition linkGone (paymentId : string) (s : State) : Prop :=
  X402PayService.routeLookup paymentId s =
    (Return (Some (mkResponse 404 (json "Payment link not found or expired" None))), s).

(** The callback the route hands to the verification middleware as [next].
    [err] is the error the middleware passes, if any; [middlewareCompleted],
    [headersSent] and [statusCode] are what the callback reads when it runs.
    The result is the new value of [middlewareCompleted] and the response the
    callback sends, if any. The settlement started with [setImmediate] runs in
    the background and its error is only logged. *)
Definition onMiddlewareNext (paymentId : string) (xPayment err : option string)
    (middlewareCompleted headersSent : bool) (statusCode : nat)
    : Async (bool * option Response) :=
  if middlewareCompleted then mret (true, None)
  else
    match err with
    | Some message =>
        if negb headersSent
        then mret (true, Some (mkResponse 500
                     (json "Payment processing failed" (Some message))))
        else mret (true, None)
    | None =>
        if truthy xPayment && headersSent && bool_decide (statusCode = 200%nat) then
          _ ← tryCatch
                (_ ← X402PayService.handlePaymentSuccess paymentId xPayment; mret tt)
                (λ _, mret tt);
          mret (true, None)
        else if negb headersSent then
          if truthy xPayment then
            tryCatch
              (paymentResult ← X402PayService.handlePaymentSuccess paymentId xPayment;
               let request := paymentResult.1.2 in
               mret (true, Some (mkResponse 200
                       (successPage paymentId (PaymentRequest.amount request)
                          (PaymentRequest.currency request)
                          (PaymentRequest.description request) paymentResult.2))))
              (λ verificationError, mret (true, Some (mkResponse 400
                        (json "Payment verification failed" (Some verificationError)))))
          else
            mret (true, Some (mkResponse 500
                    (json "X402 payment processing incomplete" None)))
        else mret (true, None)
    end.

(** * WalletService, continued: creating a wallet *)

(** [Math.floor] on a rational. *)
Definition floor (q : Q) : Z := Qnum q / Z.pos (Qden q).

(** [chars[k]] appended to a string: the character at index [k], and the
    text [undefined] when there is none. *)
Definition charAt (chars : string) (k : Z) : string :=
  if bool_decide (0 ≤ k) then
    match String.get (Z.to_nat k) chars with
    | Some c => String c EmptyString
    | None => "undefined"
    end
  else "undefined".

(** [generateMockAddress]; [random i] is the value the [i]-th call of
    [Math.random()] returns. *)
Definition generateMockAddress (random : nat → Q) : string :=
  let chars := "0123456789abcdef" in
  foldl (λ address i,
           address +:+ charAt chars (floor (random i * inject_Z (Z.of_nat (String.length chars)))))
    "0x" (seq 0 40).

Definition isHexDigit (c : Ascii.ascii) : bool :=
  let n := Ascii.nat_of_ascii c in
  ((48 <=? n) && (n <=? 57) || (97 <=? n) && (n <=? 102) || (65 <=? n) && (n <=? 70))%nat.

Fixpoint allHex (s : string) : bool :=
  match s with
  | EmptyString => true
  | String c rest => isHexDigit c && allHex rest
  end.

(** [/^0x[a-fA-F0-9]{40}$/.test(address)] *)
Definition validateAddress (address : string) : bool :=
  match address with
  | String a (String b rest) =>
      bool_decide (String a (String b EmptyString) = "0x")
      && bool_decide (String.length rest = 40%nat) && allHex rest
  | _ => false
  end.

(** [hasWallet]: [false] also when the lookup fails. *)
Definition hasWallet (userId : string) : Async bool :=
  tryCatch
    (user ← prisma.user_findUnique (Some userId);
     mret (truthy (user ≫= User.walletAddress)))
    (λ _, mret false).

(** [prisma.user.update({ where: { id }, data: { walletId, walletAddress } })];
    of the two columns the model of a user keeps the address. *)
Definition user_update_wallet (id : string) (walletAddress : string) : Async unit :=
  existing ← gets (λ s, db_user s !! id);
  match existing with
  | None => throw "Record to update not found."
  | Some u =>
      modify (set_db_user
        <[id := User.mk (Some walletAddress) (User.notionApiKey u) (User.notionDatabases u)]>)
  end.

Record WalletData := mkWalletData {
  walletId : string;
  address : string;
  walletNetwork : string }.

(** The mock wallet: an id made of the user id and the time, and a random
    address. *)
Definition createPrivyWallet (random : nat → Q) (userId network : string)
    : Async WalletData :=
  tryCatch
    (now ← newDate;
     mret (mkWalletData ("privy_" +:+ userId +:+ "_" +:+ pretty now)
             (generateMockAddress random) network))
    throw.

(** [createWallet]. The faucet request that follows the update on a test
    network is an HTTP call whose failure is caught; it touches nothing of the
    store. *)
Definition createWallet (random : nat → Q) (userId network : string)
    : Async WalletData :=
  tryCatch
    (ready ← gets initialized;
     if negb ready then throw "Privy not initialized"
     else
       wallet ← createPrivyWallet random userId network;
       let walletData :=
         mkWalletData
           (default ("user_" +:+ userId +:+ "_wallet") (jsOr (Some (walletId wallet)) None))
           (address wallet) network in
       _ ← user_update_wallet userId (address walletData);
       mret walletData)
    throw.

(** The ids of [getSupportedNetworks()]. *)
Definition supportedNetworks : list string :=
  ["sei-testnet"; "base-sepolia"; "base-mainnet"; "ethereum-sepolia"; "ethereum-mainnet"].

Inductive WalletResponse :=
| walletCreated (data : WalletData)               (* 201 *)
| walletRefused (status : nat) (error : string).

(** [POST /api/wallet/create] for the authenticated user. *)
Definition postWalletCreate (random : nat → Q) (userId : string) (network : option string)
    : Async WalletResponse :=
  let network := default "sei-testnet" network in
  tryCatch
    (has ← hasWallet userId;
     if has : bool
     then mret (M := Async) (walletRefused 400 "User already has a wallet")
     else if negb (bool_decide (network ∈ supportedNetworks))
     then mret (walletRefused 400 "Invalid network")
     else
       walletResult ← createWallet random userId network;
       mret (walletCreated walletResult))
    (λ _, mret (walletRefused 500 "Wallet creation failed")).

(** * SchedulingService, continued: the scheduler object *)

(** [isRunning] and the [jobs] map, from job name to cron expression, in
    insertion order. *)
Record Scheduler := mkScheduler {
  isRunning : bool;
  jobs : list (string * string) }.

(** [new SchedulingService()] *)
Definition newScheduler : Scheduler := mkScheduler false [].

(** [this.jobs.set(name, job)]: a known key keeps its place. *)
Definition jobs_set (name job : string) (m : list (string * string))
    : list (string * string) :=
  if bool_decide (name ∈ m.*1)
  then (λ kv : string * string, if bool_decide (kv.1 = name) then (name, job) else kv) <$> m
  else m ++ [(name, job)].

Definition start (sch : Scheduler) : Scheduler :=
  if isRunning sch then sch
  else
    mkScheduler true
      (jobs_set "request-processor" "*/5 * * * *"
         (jobs_set "refund-processor" "0 * * * *"
            (jobs_set "payment-processor" "* * * * *" (jobs sch)))).

Definition stop (sch : Scheduler) : Scheduler :=
  if negb (isRunning sch) then sch else mkScheduler false [].

Inductive SchedulerCall := Start | Stop.

Definition call (sch : Scheduler) (c : SchedulerCall) : Scheduler :=
  match c with Start => start sch | Stop => stop sch end.

Record SchedulingStats := mkSchedulingStats {
  scheduledPayments : nat;
  scheduledRequests : nat;
  pendingRefunds : nat;
  stats_isRunning : bool;
  activeJobs : nat }.

(** [getStats]: the three counts of one [$transaction], the clock being read
    while its argument is built. *)
Definition getStats (sch : Scheduler) : Async SchedulingStats :=
  tryCatch
    (now ← newDate;
     stats0 ← gets (λ s,
       length (filter (λ p, OutgoingPayment.status p = "scheduled")
                 (db_outgoingPayment s)));
     stats1 ← gets (λ s,
       length (filter (λ row : PaymentRequest.row, PaymentRequest.status row.2 = "scheduled")
                 (map_to_list (db_paymentRequest s))));
     stats2 ← gets (λ s,
       length (filter (λ row : PaymentRequest.row,
                         SchedulingService.refundDue now row.2 = true)
                 (map_to_list (db_paymentRequest s))));
     mret (mkSchedulingStats stats0 stats1 stats2 (isRunning sch) (length (jobs sch))))
    throw.

(** The argument of [schedulePayment]. *)
Record PaymentData := mkPaymentData {
  data_userId : string;
  data_amount : Q;
  data_currency : option string;
  data_network : option string;
  data_recipientAddress : option string;
  data_recipientName : option string;
  data_fromName : option string;
  data_description : option string;
  data_scheduleDate : Z }.

(** [schedulePayment]. The row refers to its user (a foreign key) and
    [recipientAddress] is a required column: Prisma rejects the [create]
    when the user is unknown or the address is missing. *)
Definition schedulePayment (paymentData : PaymentData)
    : Async (nat * OutgoingPayment.t) :=
  tryCatch
    (user ← gets (λ s, db_user s !! data_userId paymentData);
     match user, data_recipientAddress paymentData with
     | None, _ => throw "Foreign key constraint failed on the field: `userId`"
     | _, None => throw "Argument `recipientAddress` is missing."
     | Some _, Some recipientAddress =>
         let payment :=
           OutgoingPayment.mk (data_userId paymentData) (data_amount paymentData)
             (default "ETH" (jsOr (data_currency paymentData) None))
             (default "sei-testnet" (jsOr (data_network paymentData) None))
             recipientAddress (data_recipientName paymentData)
             (Some (default "AgenPay User" (jsOr (data_fromName paymentData) None)))
             (data_description paymentData) (data_scheduleDate paymentData)
             "scheduled" None None None in
         id ← prisma.outgoingPayment_create payment;
         mret (id, payment)
     end)
    throw.

(** * X402PayService, continued: quotes and links *)

(** What [calculatePaymentOptions] resolves with. *)
Inductive PaymentOptions :=
| directPayment (paymentId userPreferredToken receiveCurrency : string)
    (paymentAmount : Q) (paymentCurrency : string)
| optionsError (error : string).

(** [calculatePaymentOptions]: a missing route is reported in the result,
    not thrown. *)
Definition calculatePaymentOptions (paymentId : string)
    (userPreferredToken : option string) : Async PaymentOptions :=
  let userPreferredToken := default "SEI" userPreferredToken in
  tryCatch
    (routeConfig ← gets (λ s, paymentRoutes s !! paymentId);
     match routeConfig with
     | None => throw "Payment route not found"
     | Some routeConfig =>
         mret (directPayment paymentId userPreferredToken
                 (RouteConfig.currency routeConfig) (RouteConfig.amount routeConfig)
                 (RouteConfig.currency routeConfig))
     end)
    (λ error, mret (optionsError error)).

(** [s] without its prefix [p], when it starts with [p]. *)
Fixpoint stripPrefix (p s : string) : option string :=
  match p, s with
  | EmptyString, _ => Some s
  | String a p', String b s' => if bool_decide (a = b) then stripPrefix p' s' else None
  | String _ _, EmptyString => None
  end.

(** Whether a character is one of the two the class excludes. *)
Definition isSeparator (c : Ascii.ascii) : bool :=
  bool_decide (String c EmptyString = "/") || bool_decide (String c EmptyString = "?").

(** The longest prefix without a separator: a greedy match of the class. *)
Fixpoint segment (s : string) : string :=
  match s with
  | EmptyString => EmptyString
  | String c rest => if isSeparator c then EmptyString else String c (segment rest)
  end.

(** The match of the pattern at the start of [url]: the route prefix, then
    at least one character of the class. *)
Definition matchHere (url : string) : option string :=
  rest ← stripPrefix "/x402pay/" url;
  if bool_decide (segment rest = EmptyString) then None else Some (segment rest).

(** [extractPaymentIdFromUrl]: the capture of the leftmost match, or [null]. *)
Fixpoint extractPaymentIdFromUrl (url : string) : option string :=
  match matchHere url with
  | Some id => Some id
  | None =>
      match url with
      | EmptyString => None
      | String _ rest => extractPaymentIdFromUrl rest
      end
  end.

(** * Further scenarios *)

Module Cases.

Import Scenario.

(** The payment cycle run thirty days after the settlement of [deposit]. *)
Definition executedWorld : State := exec PaymentCycle dueWorld.

(** The refund row of [deposit] once the payment cycle has executed it. *)
Definition completedRefund : OutgoingPayment.t :=
  OutgoingPayment.mk "alice" (100 # 1) "USDC" "sei-testnet" "bob@example.com"
    (Some "Bob") (Some "AgenPay Refund System") (Some "Refund for: Deposit")
    1702592000015 "completed" None (Some 1702592000023)
    (Some "x402_1700000000003_k3x9q").

(** The row of [anonymousDeposit] as it is created. *)
Definition openDeposit : PaymentRequest.t :=
  PaymentRequest.mk "alice" (100 # 1) "USDC" "sei-testnet" None
    (Some "Bob") (Some "Deposit") None "ask_and_refund" "immediate" None
    "processing"
    (Some "http://localhost:3001/x402pay/x402_1700000000003_k3x9q")
    None None None 1700000000003.

(** The row [handlePaymentSuccess] resolves with for [deposit]: paid, the
    refund date not yet on it. *)
Definition settledDeposit : PaymentRequest.t :=
  PaymentRequest.mk "alice" (100 # 1) "USDC" "sei-testnet" (Some "bob@example.com")
    (Some "Bob") (Some "Deposit") None "ask_and_refund" "immediate" None
    "payment_received"
    (Some "http://localhost:3001/x402pay/x402_1700000000003_k3x9q")
    (Some "signed-payment-proof") (Some 1700000000010) None
    1700000000003.

(** A payment of 25 USDC scheduled for one hour after the start of [world]. *)
Definition rent : PaymentData :=
  mkPaymentData "alice" (25 # 1) (Some "USDC") None
    (Some "0x00000000000000000000000000000000000000b0") (Some "Bob") None
    (Some "Rent") 1700003600000.

(** The row [schedulePayment] stores for [rent]. *)
Definition rentRow : OutgoingPayment.t :=
  OutgoingPayment.mk "alice" (25 # 1) "USDC" "sei-testnet"
    "0x00000000000000000000000000000000000000b0" (Some "Bob")
    (Some "AgenPay User") (Some "Rent") 1700003600000 "scheduled" None None None.

(** What [createPaymentRequest] resolves with for [invoice] in [world]. *)
Definition createdInvoice : X402PayService.CreateResult :=
  X402PayService.mkCreateResult true pid
    "http://localhost:3001/x402pay/x402_1700000000003_k3x9q" "0xA11CE"
    (PaymentRequest.mk "alice" (100 # 1) "USDC" "sei-testnet" (Some "bob@example.com")
       (Some "Bob") (Some "Deposit") None "ask_payment" "immediate" None
       "processing"
       (Some "http://localhost:3001/x402pay/x402_1700000000003_k3x9q")
       None None None 1700000000003).

End Cases.

(** * Proofs *)

Import X402PayService SchedulingService.

Arguments newDate : simpl never.
Arguments random36 : simpl never.
Arguments scheduleRefund : simpl never.
Arguments updateNotionRecord : simpl never.
Arguments handlePaymentSuccess : simpl never.

(** ** Running a computation *)

Ltac unfold_async :=
  unfold tryCatch, throw, gets, modify, mbind, mret, Async_bind, Async_ret in *.

Lemma bind_Return {A B} (m : Async A) (k : A → Async B) s a s1 :
  m s = (Return a, s1) → (m ≫= k) s = k a s1.
Proof. intros H. unfold mbind, Async_bind. by rewrite H. Qed.

Lemma bind_Throw {A B} (m : Async A) (k : A → Async B) s e s1 :
  m s = (Throw e, s1) → (m ≫= k) s = (Throw e, s1).
Proof. intros H. unfold mbind, Async_bind. by rewrite H. Qed.

Lemma bind_assoc {A B C} (m : Async A) (k1 : A → Async B) (k2 : B → Async C) s :
  ((m ≫= k1) ≫= k2) s = (m ≫= λ a, k1 a ≫= k2) s.
Proof. unfold mbind, Async_bind. by destruct (m s) as [[a|e] s1]. Qed.

Lemma modify_run f s : modify f s = (Return tt, f s).
Proof. reflexivity. Qed.

Lemma tryCatch_swallow (m : Async unit) s :
  tryCatch m (λ _, mret tt) s = (Return tt, (m s).2).
Proof. unfold tryCatch. by destruct (m s) as [[[]|e] s1]. Qed.


(** ** The clock, the random supply and small facts *)

Lemma newDate_spec s :
  ∃ t rest, newDate s = (Return t, set_time t rest s) ∧ clock s ≤ t ∧ t = nextDate s.
Proof.
  unfold newDate, nextDate. destruct s as [? ? ? ? ? ? ? ? c tk ? ? ?]; simpl.
  destruct tk as [|d rest]; simpl.
  - exists c, []. split; [reflexivity | lia].
  - exists (c + Z.of_N d), rest. split; [reflexivity | lia].
Qed.

Lemma random36_spec s :
  ∃ r rest, random36 s = (Return r, set_randoms rest s).
Proof.
  unfold random36. destruct s as [? ? ? ? ? ? ? ? ? ? rs ? ?]; simpl.
  destruct rs as [|r rest]; [by exists "", [] | by exists r, rest].
Qed.

Lemma set_notionCalls_id s : set_notionCalls (λ _, notionCalls s) s = s.
Proof. by destruct s. Qed.

Lemma set_paymentRoutes_id s : set_paymentRoutes (λ m, m) s = s.
Proof. by destruct s. Qed.

Lemma lookup_snoc {A} (l : list A) (x : A) : (l ++ [x]) !! length l = Some x.
Proof. by rewrite lookup_app_r, Nat.sub_diag. Qed.

Lemma truthy_walletOf users uid :
  truthy (users !! uid ≫= User.walletAddress) = bool_decide (is_Some (walletOf users uid)).
Proof.
  unfold walletOf, truthy. destruct (users !! uid) as [u|]; simpl; [|done].
  destruct (User.walletAddress u) as [w|]; simpl; [|done].
  destruct (decide (w = "")) as [->|Hw]; [done|].
  rewrite !bool_decide_true; eauto.
Qed.

(** [setDate] moves the local time by whole days. *)
Lemma addDays_local zone n t :
  addDays zone n t = UTC zone (LocalTime zone t + n * msPerDay).
Proof.
  unfold addDays, MakeDate, Day, TimeWithinDay. f_equal.
  pose proof (Z.div_mod (LocalTime zone t) msPerDay) as H.
  unfold msPerDay in *. lia.
Qed.

(** In a zone whose offset never changes that is [n] days of 86 400 000 ms. *)
Lemma addDays_fixed zone offset n t :
  (∀ t' isUTC, zone t' isUTC = offset) → addDays zone n t = t + n * msPerDay.
Proof.
  intros H. rewrite addDays_local. unfold UTC, LocalTime. rewrite !H. lia.
Qed.

Arguments addDays : simpl never.


(** ** Frames *)

Section preservation.
Context (R : relation State) `{!PreOrder R}.

Lemma preserves_ret {A} (a : A) : preserves R (mret a).
Proof. intros s. reflexivity. Qed.

Lemma preserves_throw {A} e : preserves R (throw (A:=A) e).
Proof. intros s. reflexivity. Qed.

Lemma preserves_gets {A} (f : State → A) : preserves R (gets f).
Proof. intros s. reflexivity. Qed.

Lemma preserves_modify f : (∀ s, R s (f s)) → preserves R (modify f).
Proof. intros H s. apply H. Qed.

Lemma preserves_bind {A B} (m : Async A) (k : A → Async B) :
  preserves R m → (∀ a, preserves R (k a)) → preserves R (m ≫= k).
Proof.
  intros Hm Hk s. specialize (Hm s). unfold mbind, Async_bind.
  destruct (m s) as [[a|e] s1]; simpl in *; [|done].
  etrans; [exact Hm|]. apply Hk.
Qed.

Lemma preserves_tryCatch {A} (m : Async A) (h : string → Async A) :
  preserves R m → (∀ e, preserves R (h e)) → preserves R (tryCatch m h).
Proof.
  intros Hm Hh s. specialize (Hm s). unfold tryCatch.
  destruct (m s) as [[a|e] s1]; simpl in *; [done|].
  etrans; [exact Hm|]. apply Hh.
Qed.

Lemma preserves_forOf {A} (xs : list A) (f : A → Async unit) :
  (∀ x, x ∈ xs → preserves R (f x)) → preserves R (forOf xs f).
Proof.
  induction xs as [|x xs IH]; intros Hf; simpl.
  - apply preserves_ret.
  - apply preserves_bind; [apply Hf; left|].
    intros _. apply IH. intros y Hy. apply Hf. by right.
Qed.

End preservation.

#[export] Instance agreeOn_preorder {B} (f : State → B) : PreOrder (agreeOn f).
Proof.
  split; [by intros s|]. intros s1 s2 s3 H1 H2. unfold agreeOn in *. congruence.
Qed.

Lemma preserves_newDate {B} (f : State → B) `{!Stored f} : preserves (agreeOn f) newDate.
Proof.
  intros s. destruct (newDate_spec s) as (t & k & -> & _). apply stored_time.
Qed.

Lemma preserves_random36 {B} (f : State → B) `{!Stored f} : preserves (agreeOn f) random36.
Proof.
  intros s. destruct (random36_spec s) as (t & k & ->). apply stored_randoms.
Qed.

#[export] Instance Stored_db_user : Stored db_user.
Proof. by split. Qed.

#[export] Instance Stored_db_paymentRequest : Stored db_paymentRequest.
Proof. by split. Qed.

#[export] Instance Stored_db_outgoingPayment : Stored db_outgoingPayment.
Proof. by split. Qed.

#[export] Instance Stored_db_transaction : Stored db_transaction.
Proof. by split. Qed.

#[export] Instance Stored_paymentRoutes : Stored paymentRoutes.
Proof. by split. Qed.

#[export] Instance Stored_initialized : Stored initialized.
Proof. by split. Qed.

#[export] Instance Stored_sendCryptoCalls : Stored sendCryptoCalls.
Proof. by split. Qed.

#[export] Instance Stored_notionCalls : Stored notionCalls.
Proof. by split. Qed.


(** One step of a frame proof: descend through the computation. *)
Ltac frame_step :=
  lazymatch goal with
  | |- preserves _ (mbind _ _) => apply preserves_bind; [apply _| |intros ?]
  | |- preserves _ (tryCatch _ _) => apply preserves_tryCatch; [apply _| |intros ?]
  | |- preserves _ (mret _) => apply preserves_ret; apply _
  | |- preserves _ (throw _) => apply preserves_throw; apply _
  | |- preserves _ (gets _) => apply preserves_gets; apply _
  | |- preserves _ (modify _) => apply preserves_modify; intros ?; reflexivity
  | |- preserves _ newDate => apply preserves_newDate; apply _
  | |- preserves _ random36 => apply preserves_random36; apply _
  | |- preserves _ (forOf _ _) => apply preserves_forOf; [apply _|intros ? _]
  | |- preserves _ (match ?x with _ => _ end) => destruct x
  | |- preserves _ (let '(_, _) := ?x in _) => destruct x
  end.

Ltac frame := repeat frame_step.

Lemma sendCrypto_frame {B} (f : State → B) `{!Stored f} u to a c :
  (∀ g s, f (set_db_transaction g s) = f s) →
  preserves (agreeOn f) (WalletService.sendCrypto u to a c).
Proof.
  intros H1.
  unfold WalletService.sendCrypto, WalletService.getWallet, WalletService.sendBlockchainTransaction,
    prisma.transaction_create, prisma.transaction_update, prisma.user_findUnique.
  frame.
  all: apply preserves_modify; intros ?; apply H1.
Qed.

Lemma walletService_sendCrypto_frame {B} (f : State → B) `{!Stored f} u to a c n :
  (∀ g s, f (set_db_transaction g s) = f s) →
  (∀ g s, f (set_sendCryptoCalls g s) = f s) →
  preserves (agreeOn f) (SchedulingService.walletService_sendCrypto u to a c n).
Proof.
  intros H1 H2. unfold SchedulingService.walletService_sendCrypto.
  apply preserves_bind; [apply _| |intros _; by apply sendCrypto_frame].
  apply preserves_modify. intros s. apply H2.
Qed.

Lemma findMany_preserves (R : relation State) `{!PreOrder R} where_ :
  preserves R (prisma.paymentRequest_findMany where_).
Proof. apply preserves_gets, _. Qed.

Lemma user_findUnique_preserves (R : relation State) `{!PreOrder R} u :
  preserves R (prisma.user_findUnique u).
Proof. destruct u; [apply preserves_gets, _|apply preserves_throw, _]. Qed.


(** ** Changes confined to the status column *)

#[export] Instance statusOnly_preorder : PreOrder statusOnly.
Proof.
  split.
  - intros s id. by destruct (db_paymentRequest s !! id).
  - intros s1 s2 s3 H12 H23 id. specialize (H12 id). specialize (H23 id).
    destruct (db_paymentRequest s1 !! id), (db_paymentRequest s2 !! id),
      (db_paymentRequest s3 !! id); try done.
    unfold sameButStatus in *. congruence.
Qed.

Lemma statusOnly_of_agree {A} (m : Async A) :
  preserves (agreeOn db_paymentRequest) m → preserves statusOnly m.
Proof.
  intros H s id. rewrite (H s). by destruct (db_paymentRequest s !! id).
Qed.

Lemma update_status_statusOnly id v :
  preserves statusOnly (prisma.paymentRequest_update id (PaymentRequest.set_status v)).
Proof.
  intros s. unfold prisma.paymentRequest_update, prisma.paymentRequest_findUnique.
  unfold_async. destruct (db_paymentRequest s !! id) as [r|] eqn:Hr; simpl.
  - intros id'. simpl. destruct (decide (id = id')) as [<-|Hne].
    + rewrite Hr, lookup_insert_eq. done.
    + rewrite lookup_insert_ne by done. by destruct (db_paymentRequest s !! id').
  - reflexivity.
Qed.

#[export] Instance refundsOnly_preorder : PreOrder refundsOnly.
Proof.
  split.
  - intros s id. by left.
  - intros s1 s2 s3 H12 H23 id.
    destruct (H12 id) as [E12|(r & E1 & E2)], (H23 id) as [E23|(r' & E2' & E3)].
    + left. congruence.
    + right. exists r'. split; congruence.
    + right. exists r. split; congruence.
    + right. exists r. split; [done|]. rewrite E3. f_equal.
      rewrite E2 in E2'. by injection E2' as <-.
Qed.

Lemma refundsOnly_of_agree {A} (m : Async A) :
  preserves (agreeOn db_paymentRequest) m → preserves refundsOnly m.
Proof. intros H s id. rewrite (H s). by left. Qed.

Lemma update_refunded_refundsOnly id :
  preserves refundsOnly
    (prisma.paymentRequest_update id (PaymentRequest.set_status "refunded")).
Proof.
  intros s. unfold prisma.paymentRequest_update, prisma.paymentRequest_findUnique.
  unfold_async. destruct (db_paymentRequest s !! id) as [r|] eqn:Hr; simpl.
  - intros id'. simpl. destruct (decide (id = id')) as [<-|Hne].
    + right. exists r. by rewrite lookup_insert_eq.
    + left. by rewrite lookup_insert_ne.
  - reflexivity.
Qed.

Lemma refunded_refundsOnly id s s' : refundsOnly s s' → refunded id s → refunded id s'.
Proof.
  intros H (r & Hr & Hst). destruct (H id) as [E|(r0 & E0 & E)].
  - exists r. by rewrite E.
  - exists (PaymentRequest.set_status "refunded" r0). by rewrite E.
Qed.


Create HintDb frame discriminated.
#[export] Hint Extern 1 (preserves _ (prisma.paymentRequest_findMany _)) =>
  apply findMany_preserves; apply _ : frame.
#[export] Hint Extern 1 (preserves _ (prisma.user_findUnique _)) =>
  apply user_findUnique_preserves; apply _ : frame.
#[export] Hint Resolve update_status_statusOnly update_refunded_refundsOnly : frame.
#[export] Hint Extern 1
    (preserves (agreeOn _) (SchedulingService.walletService_sendCrypto _ _ _ _ _)) =>
  apply walletService_sendCrypto_frame; [apply _ | reflexivity | reflexivity] : frame.

(** A frame proof: known facts first, then the structure of the computation,
    and at a leaf that does not write requests, the stronger agreement. *)
Ltac frames :=
  repeat first
    [ solve [auto 1 with frame nocore]
    | frame_step
    | lazymatch goal with
      | |- preserves statusOnly _ => apply statusOnly_of_agree
      | |- preserves refundsOnly _ => apply refundsOnly_of_agree
      end ].

(** ** Frames of the scheduler and of cancellation *)

Lemma executeRefund_statusOnly entry : preserves statusOnly (executeRefund entry).
Proof.
  unfold executeRefund, updateNotionRefund, updateNotionIncomingPayment, joinedWallet,
    prisma.transaction_create.
  frames.
Qed.
#[export] Hint Resolve executeRefund_statusOnly : frame.

Lemma processScheduledRefunds_statusOnly : preserves statusOnly processScheduledRefunds.
Proof. unfold processScheduledRefunds. frames. Qed.

Lemma activatePaymentRequest_statusOnly row : preserves statusOnly (activatePaymentRequest row).
Proof.
  unfold activatePaymentRequest, updateNotionIncomingPayment. frames.
Qed.
#[export] Hint Resolve activatePaymentRequest_statusOnly : frame.

Lemma processScheduledRequests_statusOnly : preserves statusOnly processScheduledRequests.
Proof. unfold processScheduledRequests. frames. Qed.

Lemma cancelPaymentRequest_statusOnly id :
  preserves statusOnly (X402PayService.cancelPaymentRequest id).
Proof. unfold X402PayService.cancelPaymentRequest. frames. Qed.

Lemma executeRefund_refundsOnly entry : preserves refundsOnly (executeRefund entry).
Proof.
  unfold executeRefund, updateNotionRefund, updateNotionIncomingPayment, joinedWallet,
    prisma.transaction_create.
  frames.
Qed.
#[export] Hint Resolve executeRefund_refundsOnly : frame.

Lemma executeRefund_frame {B} (f : State → B) `{!Stored f} entry :
  (∀ g s, f (set_db_transaction g s) = f s) →
  (∀ g s, f (set_sendCryptoCalls g s) = f s) →
  (∀ g s, f (set_notionCalls g s) = f s) →
  (∀ g s, f (set_db_paymentRequest g s) = f s) →
  preserves (agreeOn f) (executeRefund entry).
Proof.
  intros H1 H2 H3 H4.
  unfold executeRefund, updateNotionRefund, updateNotionIncomingPayment, joinedWallet,
    prisma.transaction_create, prisma.paymentRequest_update, prisma.paymentRequest_findUnique.
  frames.
  all: try (apply walletService_sendCrypto_frame; [apply _|done..]).
  all: apply preserves_modify; intros ?; first [apply H1 | apply H2 | apply H3 | apply H4].
Qed.

Lemma processScheduledRefunds_frame {B} (f : State → B) `{!Stored f} :
  (∀ g s, f (set_db_transaction g s) = f s) →
  (∀ g s, f (set_sendCryptoCalls g s) = f s) →
  (∀ g s, f (set_notionCalls g s) = f s) →
  (∀ g s, f (set_db_paymentRequest g s) = f s) →
  preserves (agreeOn f) processScheduledRefunds.
Proof.
  intros H1 H2 H3 H4. unfold processScheduledRefunds. frames.
  by apply executeRefund_frame.
Qed.

Lemma processScheduledRequests_frame {B} (f : State → B) `{!Stored f} :
  (∀ g s, f (set_notionCalls g s) = f s) →
  (∀ g s, f (set_db_paymentRequest g s) = f s) →
  preserves (agreeOn f) processScheduledRequests.
Proof.
  intros H3 H4.
  unfold processScheduledRequests, activatePaymentRequest, updateNotionIncomingPayment,
    prisma.paymentRequest_update, prisma.paymentRequest_findUnique.
  frames.
  all: apply preserves_modify; intros ?; first [apply H3 | apply H4].
Qed.

Lemma executeOutgoingPayment_requests entry :
  preserves (agreeOn db_paymentRequest) (executeOutgoingPayment entry).
Proof.
  unfold executeOutgoingPayment, updateNotionOutgoingPayment, joinedWallet,
    prisma.transaction_create, prisma.outgoingPayment_update.
  frames.
Qed.
#[export] Hint Resolve executeOutgoingPayment_requests : frame.

Lemma processScheduledPayments_requests :
  preserves (agreeOn db_paymentRequest) processScheduledPayments.
Proof.
  unfold processScheduledPayments, prisma.outgoingPayment_findMany. frames.
Qed.

Lemma executeRefund_users entry : preserves (agreeOn db_user) (executeRefund entry).
Proof. by apply executeRefund_frame; [apply _|..]. Qed.

Lemma executeRefund_initialized entry : preserves (agreeOn initialized) (executeRefund entry).
Proof. by apply executeRefund_frame; [apply _|..]. Qed.


(** ** Creation *)

Lemma createPaymentRequest_Return a s res s' :
  createPaymentRequest a s = (Return res, s') →
  ∃ w t,
    walletOf (db_user s) (arg_userId a) = Some w ∧
    db_paymentRequest s !! paymentId res = None ∧
    db_paymentRequest s' = <[paymentId res := request res]> (db_paymentRequest s) ∧
    paymentRoutes s' =
      <[paymentId res :=
          RouteConfig.mk (arg_userId a) w (arg_amount a)
            (default "USDC" (arg_currency a)) (default "sei-testnet" (arg_network a))
            (arg_description a) (default "ask_payment" (arg_transactionType a)) t]>
        (paymentRoutes s) ∧
    PaymentRequest.status (request res) = createdStatus a ∧
    PaymentRequest.scheduleType (request res) = default "immediate" (arg_scheduleType a) ∧
    PaymentRequest.scheduledDate (request res) = arg_scheduledDate a ∧
    PaymentRequest.transactionType (request res) = default "ask_payment" (arg_transactionType a) ∧
    PaymentRequest.paidAt (request res) = None ∧
    PaymentRequest.refundDate (request res) = None ∧
    db_user s' = db_user s ∧
    db_transaction s' = db_transaction s ∧
    db_outgoingPayment s' = db_outgoingPayment s.
Proof.
  unfold createPaymentRequest, prisma.user_findUnique, prisma.paymentRequest_create,
    prisma.paymentRequest_findUnique, createdStatus.
  unfold_async. unfold walletOf.
  destruct (db_user s !! arg_userId a) as [u|]; simpl; [|done].
  destruct (User.walletAddress u) as [w|]; simpl; [|done].
  case_bool_decide as Hw; [done|].
  destruct (newDate_spec s) as (t1 & r1 & -> & _).
  destruct (random36_spec (set_time t1 r1 s)) as (d & r2 & ->).
  simpl.
  destruct (newDate_spec (set_randoms r2 (set_time t1 r1 s))) as (t2 & r3 & -> & _).
  simpl.
  destruct (db_paymentRequest s !! _) eqn:Hfresh; [done|].
  match goal with |- context [newDate ?x] => destruct (newDate_spec x) as (t3 & r4 & -> & _) end.
  simpl. intros [= <- <-]. simpl.
  exists w, t3. rewrite bool_decide_true by done. simpl.
  repeat split; done.
Qed.

Lemma createPaymentRequest_requests a s :
  db_paymentRequest (run (createPaymentRequest a) s) = db_paymentRequest s ∨
  ∃ id r,
    db_paymentRequest (run (createPaymentRequest a) s) = <[id := r]> (db_paymentRequest s) ∧
    PaymentRequest.refundDate r = None.
Proof.
  unfold run, createPaymentRequest, prisma.user_findUnique, prisma.paymentRequest_create,
    prisma.paymentRequest_findUnique.
  unfold_async.
  destruct (db_user s !! arg_userId a) as [u|]; simpl; [|by left].
  destruct (User.walletAddress u) as [w|]; simpl; [|by left].
  case_bool_decide as Hw; [by left|].
  destruct (newDate_spec s) as (t1 & r1 & -> & _).
  destruct (random36_spec (set_time t1 r1 s)) as (d & r2 & ->).
  simpl.
  destruct (newDate_spec (set_randoms r2 (set_time t1 r1 s))) as (t2 & r3 & -> & _).
  simpl.
  destruct (db_paymentRequest s !! _) eqn:Hfresh; [by left|].
  match goal with |- context [newDate ?x] => destruct (newDate_spec x) as (t3 & r4 & -> & _) end.
  simpl. right. eauto.
Qed.


(** ** Settlement *)

Lemma updateNotionRecord_spec id r s :
  updateNotionRecord (id, r) s =
    (Return tt,
     set_notionCalls (λ l, l ++ mirrorCalls (db_user s) id (PaymentRequest.userId r)) s).
Proof.
  unfold updateNotionRecord, mirrorCalls, SchedulingService.notionTarget,
    prisma.user_findUnique.
  unfold_async. simpl.
  assert (Hid : (Return tt, s) =
    (Return tt, set_notionCalls (λ l : list NotionCall, l ++ []) s) :> Completion unit * State).
  { f_equal. destruct s; simpl. unfold set_notionCalls; simpl. by rewrite app_nil_r. }
  destruct (db_user s !! PaymentRequest.userId r) as [u|]; simpl; [|done].
  destruct (truthy (User.notionApiKey u)); simpl.
  - destruct (filter _ _) as [|d ?]; simpl; done.
  - destruct (filter _ _) as [|d ?]; simpl; done.
Qed.

Lemma scheduleRefund_spec id r s :
  ∃ t rest, t = nextDate s ∧ clock s ≤ t ∧
  scheduleRefund (id, r) s =
    match PaymentRequest.recipientEmail r with
    | None => (Throw "Argument `recipientAddress` must not be null.", set_time t rest s)
    | Some e =>
        let p := refundPayment id e (addDays (LocalTZA s) 30 t) r in
        let s1 := set_db_outgoingPayment (λ l, l ++ [p]) (set_time t rest s) in
        match db_paymentRequest s !! id with
        | None => (Throw "Record to update not found.", s1)
        | Some r0 =>
            (Return p,
             set_db_paymentRequest
               <[id := PaymentRequest.set_refundDate (addDays (LocalTZA s) 30 t) r0]> s1)
        end
    end.
Proof.
  destruct (newDate_spec s) as (t & rest & Hd & Hle & Ht).
  exists t, rest. split; [done|]. split; [done|].
  unfold scheduleRefund, prisma.outgoingPayment_create, prisma.paymentRequest_update,
    prisma.paymentRequest_findUnique, refundPayment.
  unfold_async. rewrite Hd.
  destruct (PaymentRequest.recipientEmail r) as [e|]; simpl; [|done].
  destruct (db_paymentRequest s !! id); simpl; done.
Qed.

(** The complete outcome of [handlePaymentSuccess]. *)
Lemma handlePaymentSuccess_outcome id proof s c s' :
  handlePaymentSuccess id proof s = (c, s') →
  resolves c = settles id s ∧
  db_user s' = db_user s ∧
  match db_paymentRequest s !! id with
  | None =>
      db_paymentRequest s' = db_paymentRequest s ∧
      db_transaction s' = db_transaction s ∧
      db_outgoingPayment s' = db_outgoingPayment s ∧
      paymentRoutes s' = paymentRoutes s ∧
      notionCalls s' = notionCalls s
  | Some r0 =>
      (resolves c = false ∧ s' = s) ∨
      ∃ t1 t2 toAddress,
        t1 = nextDate s ∧ clock s ≤ t1 ∧ t1 ≤ t2 ∧
        let r1 := settled proof t1 r0 in
        db_transaction s' = db_transaction s ++ [incomingEntry id proof toAddress t2 r1] ∧
        if bool_decide (PaymentRequest.transactionType r0 = "ask_and_refund") then
          match PaymentRequest.recipientEmail r0 with
          | None =>
              resolves c = false ∧
              db_paymentRequest s' = <[id := r1]> (db_paymentRequest s) ∧
              db_outgoingPayment s' = db_outgoingPayment s ∧
              paymentRoutes s' = paymentRoutes s ∧
              notionCalls s' = notionCalls s
          | Some e =>
              ∃ t3, t2 ≤ t3 ∧ clock s' = t3 ∧
                c = Return ((id, r1), toAddress) ∧
                db_paymentRequest s' =
                  <[id := PaymentRequest.set_refundDate (addDays (LocalTZA s) 30 t3) r1]>
                    (db_paymentRequest s) ∧
                db_outgoingPayment s' =
                  db_outgoingPayment s ++ [refundPayment id e (addDays (LocalTZA s) 30 t3) r1] ∧
                paymentRoutes s' = delete id (paymentRoutes s) ∧
                notionCalls s' =
                  notionCalls s ++ mirrorCalls (db_user s) id (PaymentRequest.userId r0)
          end
        else
          c = Return ((id, r1), toAddress) ∧
          db_paymentRequest s' = <[id := r1]> (db_paymentRequest s) ∧
          db_outgoingPayment s' = db_outgoingPayment s ∧
          paymentRoutes s' = delete id (paymentRoutes s) ∧
          notionCalls s' =
            notionCalls s ++ mirrorCalls (db_user s) id (PaymentRequest.userId r0)
  end.
Proof.
  unfold handlePaymentSuccess, settles, prisma.paymentRequest_findUnique,
    prisma.paymentRequest_update, prisma.transaction_create,
    prisma.paymentRequest_findUnique.
  unfold_async.
  destruct (newDate_spec s) as (t1 & k1 & Hd1 & Hle1 & Ht1).
  assert (Huser : ∀ (u : option string) (st : State),
    prisma.user_findUnique u st =
      match u with
      | None => (Throw "Argument `where` needs at least one of `id` or `email` arguments", st)
      | Some i => (Return (db_user st !! i), st)
      end).
  { intros [i|] st; reflexivity. }
  destruct (db_paymentRequest s !! id) as [r0|] eqn:Hdb;
    destruct (paymentRoutes s !! id) as [cfg|] eqn:Hroute; simpl.
  - (* route and record *)
    rewrite Huser. unfold jsOr at 1. simpl.
    destruct (decide (RouteConfig.userId cfg = "")) as [Hu|Hu].
    { rewrite bool_decide_false by naive_solver. simpl.
      intros [= <- <-]. simpl. split; [done|]. split; [done|]. by left. }
    rewrite !(bool_decide_true (_ ≠ _)) by done. simpl.
    rewrite Hd1. simpl. rewrite Hdb. simpl.
    match goal with |- context [newDate ?x] =>
      destruct (newDate_spec x) as (t2 & k2 & -> & Hle2 & _) end.
    simpl in Hle2. simpl.
    set (toAddress := option_bind _ _ _ _).
    case_bool_decide as Hkind; simpl.
    + match goal with |- context [scheduleRefund (_, ?x) ?y] =>
        destruct (scheduleRefund_spec id x y) as (t3 & k3 & _ & Hle3 & ->) end.
      simpl in Hle3. simpl.
      destruct (PaymentRequest.recipientEmail r0) as [e|] eqn:He; simpl.
      * rewrite lookup_insert_eq. simpl. rewrite updateNotionRecord_spec. simpl.
        intros [= <- <-]. simpl. split; [done|]. split; [done|]. right.
        exists t1, t2, toAddress. repeat split; try done.
        exists t3. repeat split; try done.
        by rewrite insert_insert_eq.
      * intros [= <- <-]. simpl. split; [done|]. split; [done|]. right.
        exists t1, t2, toAddress. repeat split; done.
    + rewrite updateNotionRecord_spec. simpl. intros [= <- <-]. simpl.
      split; [done|]. split; [done|]. right.
      exists t1, t2, toAddress. repeat split; done.
  - (* record only: the database fallback *)
    rewrite Hdb. simpl. rewrite Hd1. simpl. rewrite Hdb. simpl.
    match goal with |- context [newDate ?x] =>
      destruct (newDate_spec x) as (t2 & k2 & -> & Hle2 & _) end.
    simpl in Hle2. simpl.
    set (toAddress := option_bind _ _ _ _).
    case_bool_decide as Hkind; simpl.
    + match goal with |- context [scheduleRefund (_, ?x) ?y] =>
        destruct (scheduleRefund_spec id x y) as (t3 & k3 & _ & Hle3 & ->) end.
      simpl in Hle3. simpl.
      destruct (PaymentRequest.recipientEmail r0) as [e|] eqn:He; simpl.
      * rewrite lookup_insert_eq. simpl. rewrite updateNotionRecord_spec. simpl.
        intros [= <- <-]. simpl. split; [done|]. split; [done|]. right.
        exists t1, t2, toAddress. repeat split; try done.
        exists t3. repeat split; try done.
        by rewrite insert_insert_eq.
      * intros [= <- <-]. simpl. split; [done|]. split; [done|]. right.
        exists t1, t2, toAddress. repeat split; done.
    + rewrite updateNotionRecord_spec. simpl. intros [= <- <-]. simpl.
      split; [done|]. split; [done|]. right.
      exists t1, t2, toAddress. repeat split; done.
  - (* route without record *)
    rewrite Huser. unfold jsOr at 1. simpl.
    destruct (decide (RouteConfig.userId cfg = "")) as [Hu|Hu].
    { rewrite bool_decide_false by naive_solver. simpl. by intros [= <- <-]. }
    rewrite !(bool_decide_true (_ ≠ _)) by done. simpl.
    rewrite Hd1. simpl. rewrite Hdb. simpl. by intros [= <- <-].
  - rewrite Hdb. simpl. by intros [= <- <-].
Qed.

Lemma handlePaymentSuccess_Return id proof s res s' :
  handlePaymentSuccess id proof s = (Return res, s') →
  ∃ r0 r' tx,
    db_paymentRequest s !! id = Some r0 ∧
    db_paymentRequest s' !! id = Some r' ∧
    res.1 = (id, settled proof (nextDate s) r0) ∧
    PaymentRequest.status r' = "payment_received" ∧
    PaymentRequest.userId r' = PaymentRequest.userId r0 ∧
    PaymentRequest.transactionType r' = PaymentRequest.transactionType r0 ∧
    PaymentRequest.recipientEmail r' = PaymentRequest.recipientEmail r0 ∧
    paymentRoutes s' !! id = None ∧
    db_transaction s' = db_transaction s ++ [tx] ∧
    isLedgerEntryOf id tx = true ∧
    notionCalls s' =
      notionCalls s ++ mirrorCalls (db_user s) id (PaymentRequest.userId r0) ∧
    db_user s' = db_user s.
Proof.
  intros Hout.
  apply handlePaymentSuccess_outcome in Hout as (Hres & Hu & Hcases).
  destruct (db_paymentRequest s !! id) as [r0|] eqn:Hr0;
    [|unfold settles in Hres; by rewrite Hr0 in Hres].
  destruct Hcases as [[? _]|(t1 & t2 & toAddress & -> & _ & _ & Htx & Hcases)]; [done|].
  assert (Hledger : isLedgerEntryOf id
            (incomingEntry id proof toAddress t2 (settled proof (nextDate s) r0)) = true).
  { unfold isLedgerEntryOf. simpl. by rewrite bool_decide_true. }
  case_bool_decide as Hk.
  - destruct (PaymentRequest.recipientEmail r0) as [e|] eqn:He;
      [|by destruct Hcases as (? & _)].
    destruct Hcases as (t3 & _ & _ & [= ->] & Hdb & _ & Hroutes & Hn).
    eexists r0, _, _. rewrite Hdb, Hroutes, lookup_insert_eq, lookup_delete_eq.
    repeat split; try done.
  - destruct Hcases as ([= ->] & Hdb & _ & Hroutes & Hn).
    eexists r0, _, _. rewrite Hdb, Hroutes, lookup_insert_eq, lookup_delete_eq.
    repeat split; try done.
Qed.

Lemma ledgerEntries_snoc id s s' tx :
  db_transaction s' = db_transaction s ++ [tx] → isLedgerEntryOf id tx = true →
  length (ledgerEntries id s') = S (length (ledgerEntries id s)).
Proof.
  intros Htx Hl. unfold ledgerEntries. rewrite Htx, filter_app, length_app.
  rewrite filter_cons_True by done. simpl. lia.
Qed.


(** ** Cancellation, the route check and the timer *)

Lemma cancelPaymentRequest_spec id s :
  cancelPaymentRequest id s =
    match db_paymentRequest s !! id with
    | Some r =>
        (Return (PaymentRequest.set_status "cancelled" r),
         set_paymentRoutes (delete id)
           (set_db_paymentRequest <[id := PaymentRequest.set_status "cancelled" r]> s))
    | None => (Throw "Record to update not found.", s)
    end.
Proof.
  unfold cancelPaymentRequest, prisma.paymentRequest_update,
    prisma.paymentRequest_findUnique.
  unfold_async. by destruct (db_paymentRequest s !! id).
Qed.

Lemma routeLookup_spec id s :
  routeLookup id s =
    (Return
       match paymentRoutes s !! id with
       | None => Some (mkResponse 404 (json "Payment link not found or expired" None))
       | Some c =>
           if bool_decide (is_Some (walletOf (db_user s) (RouteConfig.userId c)))
           then None
           else Some (mkResponse 400
                  (json "User wallet not found. Please create a Privy wallet first." None))
       end, s).
Proof.
  unfold routeLookup, prisma.user_findUnique. unfold_async.
  destruct (paymentRoutes s !! id) as [c|]; [|done].
  rewrite truthy_walletOf. by case_bool_decide.
Qed.

Lemma onTimeout_spec id x s :
  onTimeout id x false false s =
    if truthy x
    then (Return (true, Some (timeoutResponse id (handlePaymentSuccess id x s).1)),
          (handlePaymentSuccess id x s).2)
    else (Return (true, Some (mkResponse 500
            (json "X402 payment processing timeout" None))), s).
Proof.
  unfold onTimeout. simpl. destruct (truthy x); [|done].
  unfold tryCatch.
  destruct (handlePaymentSuccess id x s) as [[res|e] s'] eqn:Hout.
  - by rewrite (bind_Return _ _ _ _ _ Hout).
  - by rewrite (bind_Throw _ _ _ _ _ Hout).
Qed.

Lemma onTimeout_run id x mc hs s :
  run (onTimeout id x mc hs) s = s ∨
  run (onTimeout id x mc hs) s = run (handlePaymentSuccess id x) s.
Proof.
  destruct mc; [by left|]. destruct hs; [by left|].
  unfold run. rewrite onTimeout_spec. destruct (truthy x); [by right|by left].
Qed.


(** ** Rebuilding the routes *)

Lemma loadRoute_spec entry s :
  loadRoute entry s = (Return tt, set_paymentRoutes (λ m, loadStep m entry) s).
Proof.
  destruct entry as [[id r] u]. unfold loadRoute, loadStep, entryRoute. simpl.
  destruct (u ≫= User.walletAddress) as [w|]; simpl.
  - case_bool_decide; [done|]. unfold mret, Async_ret. by rewrite set_paymentRoutes_id.
  - unfold mret, Async_ret. by rewrite set_paymentRoutes_id.
Qed.

Lemma forOf_loadRoute entries s :
  forOf entries loadRoute s =
    (Return tt, set_paymentRoutes (λ m, foldl loadStep m entries) s).
Proof.
  revert s. induction entries as [|e entries IH]; intros s; simpl.
  - unfold mret, Async_ret. by rewrite set_paymentRoutes_id.
  - unfold mbind, Async_bind. rewrite loadRoute_spec, IH. done.
Qed.

Lemma foldl_loadStep_other entries m (id : string) :
  id ∉ entries.*1.*1 → foldl loadStep m entries !! id = m !! id.
Proof.
  revert m. induction entries as [|e entries IH]; intros m Hid; simpl; [done|].
  rewrite !fmap_cons in Hid. apply not_elem_of_cons in Hid as [Hne Hid].
  rewrite IH by done. unfold loadStep.
  destruct (entryRoute e); [|done]. by rewrite lookup_insert_ne.
Qed.

Lemma foldl_loadStep_entry entries m e :
  NoDup entries.*1.*1 → e ∈ entries →
  foldl loadStep m entries !! e.1.1 =
    match entryRoute e with Some c => Some c | None => m !! e.1.1 end.
Proof.
  revert m. induction entries as [|e' entries IH]; intros m Hnd He; simpl.
  - by apply elem_of_nil in He.
  - rewrite !fmap_cons in Hnd. apply NoDup_cons in Hnd as [Hfresh Hnd].
    apply elem_of_cons in He as [<-|He].
    + rewrite foldl_loadStep_other by done. unfold loadStep.
      destruct (entryRoute e); [|done]. by rewrite lookup_insert_eq.
    + rewrite IH by done. destruct (entryRoute e) as [c|]; [done|].
      unfold loadStep. destruct (entryRoute e'); [|done].
      rewrite lookup_insert_ne; [done|].
      intros Heq. apply Hfresh.
      apply (list_elem_of_fmap_2 fst), (list_elem_of_fmap_2 fst) in He.
      destruct e as [[? ?] ?], e' as [[? ?] ?]; simpl in *. by subst.
Qed.

Lemma findMany_spec where_ s :
  prisma.paymentRequest_findMany where_ s =
    (Return ((λ row : PaymentRequest.row, (row, db_user s !! PaymentRequest.userId row.2))
        <$> filter (λ row : PaymentRequest.row, where_ row.2 = true)
              (map_to_list (db_paymentRequest s))), s).
Proof. reflexivity. Qed.

Lemma findMany_keys (where_ : PaymentRequest.t → bool) (users : gmap string User.t)
    (db : gmap string PaymentRequest.t) :
  ((λ row : PaymentRequest.row, (row, users !! PaymentRequest.userId row.2))
     <$> filter (λ row : PaymentRequest.row, where_ row.2 = true) (map_to_list db)).*1
  = filter (λ row : PaymentRequest.row, where_ row.2 = true) (map_to_list db).
Proof.
  induction (filter _ _) as [|x l IH]; [done|].
  rewrite !fmap_cons. simpl. f_equal. exact IH.
Qed.

Lemma NoDup_filter_keys (P : PaymentRequest.row → Prop) `{!∀ x, Decision (P x)}
    (db : gmap string PaymentRequest.t) :
  NoDup (filter P (map_to_list db)).*1.
Proof.
  assert (Hsub : sublist (filter P (map_to_list db)).*1 (map_to_list db).*1).
  { apply fmap_sublist, sublist_filter. }
  eapply sublist_NoDup; [|exact Hsub]. apply NoDup_fst_map_to_list.
Qed.

Lemma constructor_spec s :
  constructor s =
    (Return tt,
     set_paymentRoutes
       (λ _, omap (routeFor (db_user s)) (db_paymentRequest s)) s).
Proof.
  unfold constructor, loadActivePaymentRoutes.
  unfold tryCatch, modify, mbind, Async_bind. rewrite findMany_spec.
  rewrite forOf_loadRoute. cbv beta iota. f_equal.
  unfold set_paymentRoutes; simpl. f_equal.
  apply map_eq. intros id. rewrite lookup_omap.
  set (entries := _ <$> filter _ _).
  assert (Hnd : NoDup entries.*1.*1).
  { unfold entries. rewrite findMany_keys. apply NoDup_filter_keys. }
  destruct (db_paymentRequest s !! id) as [r|] eqn:Hdb; simpl.
  - unfold routeFor. destruct (awaitingPayment r) eqn:Haw.
    + assert (He : ((id, r), db_user s !! PaymentRequest.userId r) ∈ entries).
      { unfold entries.
        apply (list_elem_of_fmap_2
          (λ row : PaymentRequest.row, (row, db_user s !! PaymentRequest.userId row.2))
          _ (id, r)).
        apply list_elem_of_filter. split; [done|]. by apply elem_of_map_to_list. }
      rewrite (foldl_loadStep_entry _ _ _ Hnd He). simpl.
      unfold entryRoute, walletOf. simpl.
      destruct (db_user s !! PaymentRequest.userId r) as [u|]; simpl; [|done].
      destruct (User.walletAddress u) as [w|]; simpl; [|done].
      by case_bool_decide.
    + rewrite foldl_loadStep_other; [done|].
      unfold entries. rewrite findMany_keys.
      intros Hin. apply list_elem_of_fmap in Hin as ([id' r'] & -> & Hin).
      apply list_elem_of_filter in Hin as [Hw Hin]. simpl in *.
      apply elem_of_map_to_list in Hin. congruence.
  - rewrite foldl_loadStep_other; [done|].
    unfold entries. rewrite findMany_keys.
    intros Hin. apply list_elem_of_fmap in Hin as ([id' r'] & -> & Hin).
    apply list_elem_of_filter in Hin as [Hw Hin]. simpl in *.
    apply elem_of_map_to_list in Hin. congruence.
Qed.

Lemma constructor_requests : preserves (agreeOn db_paymentRequest) X402PayService.constructor.
Proof. intros s. by rewrite constructor_spec. Qed.

Lemma size_omap_filter {A B} (f : A → option B) (m : gmap string A) :
  size (omap f m) = size (filter (λ kv : string * A, is_Some (f kv.2)) m).
Proof.
  induction m as [|i x m Hi IH] using map_ind.
  - by rewrite omap_empty, map_filter_empty.
  - destruct (f x) as [y|] eqn:Hf.
    + rewrite (omap_insert_Some f m i x y) by done.
      rewrite map_filter_insert_True by (simpl; rewrite Hf; eauto).
      rewrite !map_size_insert_None; [by rewrite IH| |].
      * by rewrite map_lookup_filter_None_2; [|left].
      * by rewrite lookup_omap, Hi.
    + rewrite omap_insert_None by done.
      rewrite map_filter_insert_False by (simpl; rewrite Hf; by intros [? ?]).
      rewrite delete_id by (by rewrite lookup_omap, Hi).
      rewrite delete_id by done. done.
Qed.


(** ** The refund cycle *)

Lemma sendCrypto_success u to a c w s :
  initialized s = true → walletOf (db_user s) u = Some w →
  ∃ res s', WalletService.sendCrypto u to a c s = (Return res, s') ∧
            WalletService.success res = true.
Proof.
  intros Hinit Hw.
  unfold WalletService.sendCrypto, WalletService.getWallet,
    WalletService.sendBlockchainTransaction, prisma.transaction_create,
    prisma.transaction_update, prisma.user_findUnique.
  unfold_async. rewrite Hinit. simpl.
  unfold walletOf in Hw.
  destruct (db_user s !! u) as [usr|]; simpl in *; [|done].
  destruct (User.walletAddress usr) as [w'|]; simpl in *; [|done].
  case_bool_decide as Hne; [|done].
  rewrite bool_decide_false by done. simpl.
  match goal with |- context [random36 ?x] =>
    destruct (random36_spec x) as (d & k & ->) end.
  simpl. rewrite lookup_snoc. simpl. eauto.
Qed.

Lemma walletService_sendCrypto_success u to a c n w s :
  initialized s = true → walletOf (db_user s) u = Some w →
  ∃ res s', walletService_sendCrypto u to a c n s = (Return res, s') ∧
            WalletService.success res = true.
Proof.
  intros Hinit Hw. unfold walletService_sendCrypto.
  unfold mbind, Async_bind, modify.
  by apply sendCrypto_success with w.
Qed.

Lemma executeRefund_resolves entry s : (executeRefund entry s).1 = Return tt.
Proof.
  destruct entry as [[id r] u]. unfold executeRefund. by rewrite tryCatch_swallow.
Qed.

Lemma executeRefund_refunds id r u r0 w s :
  initialized s = true →
  walletOf (db_user s) (PaymentRequest.userId r) = Some w →
  db_paymentRequest s !! id = Some r0 →
  db_paymentRequest (run (executeRefund ((id, r), u)) s) !! id =
    Some (PaymentRequest.set_status "refunded" r0).
Proof.
  intros Hinit Hw Hdb. unfold run, executeRefund. rewrite tryCatch_swallow. simpl.
  destruct (walletService_sendCrypto_success (PaymentRequest.userId r)
              (PaymentRequest.recipientEmail r) (PaymentRequest.amount r)
              (PaymentRequest.currency r) (PaymentRequest.network r) w s Hinit Hw)
    as (res & s1 & Hsend & Hok).
  assert (Hdb1 : db_paymentRequest s1 = db_paymentRequest s).
  { pose proof (walletService_sendCrypto_frame db_paymentRequest
      (PaymentRequest.userId r) (PaymentRequest.recipientEmail r)
      (PaymentRequest.amount r) (PaymentRequest.currency r)
      (PaymentRequest.network r) (λ _ _, eq_refl) (λ _ _, eq_refl) s) as Hf.
    by rewrite Hsend in Hf. }
  rewrite (bind_Return _ _ _ _ _ Hsend), Hok.
  assert (Hupd : prisma.paymentRequest_update id (PaymentRequest.set_status "refunded") s1 =
    (Return (PaymentRequest.set_status "refunded" r0),
     set_db_paymentRequest <[id := PaymentRequest.set_status "refunded" r0]> s1)).
  { unfold prisma.paymentRequest_update, prisma.paymentRequest_findUnique.
    unfold_async. by rewrite Hdb1, Hdb. }
  rewrite (bind_Return _ _ _ _ _ Hupd).
  match goal with |- context [(?m ?st).2] =>
    assert (Hf : preserves (agreeOn db_paymentRequest) m);
    [|rewrite (Hf st)] end.
  { unfold updateNotionRefund, updateNotionIncomingPayment, joinedWallet,
      prisma.transaction_create. frames. }
  simpl. by rewrite lookup_insert_eq.
Qed.

Lemma executeRefund_call id r u s :
  sendCryptoCalls (run (executeRefund ((id, r), u)) s) = sendCryptoCalls s ++ [refundCall r].
Proof.
  unfold run, executeRefund. rewrite tryCatch_swallow. cbv zeta. cbn [snd].
  unfold walletService_sendCrypto.
  rewrite bind_assoc, (bind_Return _ _ _ _ _ (modify_run _ _)).
  match goal with |- context [(WalletService.sendCrypto ?a ?b ?c ?d ≫= ?k) ?st] =>
    pose proof (sendCrypto_frame sendCryptoCalls a b c d (λ _ _, eq_refl) st) as Hsend;
    unfold agreeOn in Hsend;
    destruct (WalletService.sendCrypto a b c d st) as [[res|e] s1] eqn:Hres
  end.
  - rewrite (bind_Return _ _ _ _ _ Hres). simpl in Hsend. cbv beta.
    match goal with |- context [(?m ?st).2] =>
      assert (Hf : preserves (agreeOn sendCryptoCalls) m);
      [|by rewrite (Hf st), Hsend] end.
    unfold updateNotionRefund, updateNotionIncomingPayment, joinedWallet,
      prisma.transaction_create, prisma.paymentRequest_update,
      prisma.paymentRequest_findUnique.
    frames.
  - rewrite (bind_Throw _ _ _ _ _ Hres). simpl in *. by rewrite Hsend.
Qed.

Lemma forOf_executeRefund_refunds entries id r u w s :
  ((id, r), u) ∈ entries →
  initialized s = true →
  walletOf (db_user s) (PaymentRequest.userId r) = Some w →
  is_Some (db_paymentRequest s !! id) →
  refunded id (run (forOf entries executeRefund) s).
Proof.
  revert s. induction entries as [|e entries IH]; intros s Hin Hinit Hw Hdb.
  - by apply elem_of_nil in Hin.
  - unfold run. simpl. unfold mbind, Async_bind.
    pose proof (executeRefund_resolves e s) as Hres.
    pose proof (executeRefund_users e s) as Husers.
    pose proof (executeRefund_initialized e s) as Hini.
    pose proof (executeRefund_refundsOnly e s) as Honly.
    unfold agreeOn in *.
    apply elem_of_cons in Hin as [<-|Hin].
    + destruct Hdb as [r0 Hr0].
      pose proof (executeRefund_refunds id r u r0 w s Hinit Hw Hr0) as Hdone.
      unfold run in Hdone.
      destruct (executeRefund (id, r, u) s) as [c s1]. simpl in *. subst c.
      eapply refunded_refundsOnly.
      * apply (preserves_forOf refundsOnly entries executeRefund
                 (λ x _, executeRefund_refundsOnly x) s1).
      * by eexists.
    + destruct (executeRefund e s) as [c s1]. simpl in *. subst c.
      apply IH; [done|congruence|congruence|].
      destruct (Honly id) as [->|(r0 & _ & ->)]; [done|by eexists].
Qed.

Lemma forOf_executeRefund_calls entries s :
  sendCryptoCalls (run (forOf entries executeRefund) s) =
    sendCryptoCalls s ++ (refundCall <$> entries.*1.*2).
Proof.
  revert s. induction entries as [|[[id r] u] entries IH]; intros s.
  - simpl. by rewrite app_nil_r.
  - pose proof (executeRefund_resolves (id, r, u) s) as Hres.
    pose proof (executeRefund_call id r u s) as Hcall.
    pose proof (IH (run (executeRefund (id, r, u)) s)) as IH'.
    unfold run in *.
    destruct (executeRefund (id, r, u) s) as [c s1] eqn:E. simpl in Hres, Hcall, IH'. subst c.
    cbn [forOf]. rewrite (bind_Return _ _ _ _ _ E).
    etrans; [apply IH'|]. rewrite Hcall, <- app_assoc. done.
Qed.

Lemma processScheduledRefunds_run s :
  ∃ k, run processScheduledRefunds s =
    run (forOf
           ((λ row : PaymentRequest.row,
               (row, db_user s !! PaymentRequest.userId row.2))
              <$> filter (λ row : PaymentRequest.row, refundDue (nextDate s) row.2 = true)
                   (map_to_list (db_paymentRequest s)))
           executeRefund)
        (set_time (nextDate s) k s).
Proof.
  destruct (newDate_spec s) as (t & k & Hd & _ & Ht). exists k.
  unfold run, processScheduledRefunds. rewrite tryCatch_swallow.
  rewrite (bind_Return _ _ _ _ _ Hd). cbv beta.
  rewrite (bind_Return _ _ _ _ _ (findMany_spec _ _)). by subst t.
Qed.


(** ** The refund-date invariant *)

Lemma refundDateOk_sameButStatus r r' :
  sameButStatus r r' → refundDateOk r → refundDateOk r'.
Proof.
  unfold sameButStatus, refundDateOk. intros H Hok Hd.
  pose proof (f_equal PaymentRequest.refundDate H) as H1.
  pose proof (f_equal PaymentRequest.transactionType H) as H2.
  pose proof (f_equal PaymentRequest.recipientEmail H) as H3.
  pose proof (f_equal PaymentRequest.paidAt H) as H4.
  simpl in *. rewrite H2, H3, H4. apply Hok. congruence.
Qed.

Lemma refundInvariant_statusOnly s s' :
  statusOnly s s' → refundInvariant s → refundInvariant s'.
Proof.
  intros H Hinv id r' Hr'. specialize (H id). rewrite Hr' in H.
  destruct (db_paymentRequest s !! id) as [r|] eqn:Hr; [|done].
  eapply refundDateOk_sameButStatus; [exact H|]. by eapply Hinv.
Qed.

Lemma refundInvariant_agree s s' :
  db_paymentRequest s' = db_paymentRequest s → refundInvariant s → refundInvariant s'.
Proof. intros H Hinv id r. rewrite H. apply Hinv. Qed.

Lemma refundInvariant_insert s s' id r :
  db_paymentRequest s' = <[id := r]> (db_paymentRequest s) →
  refundDateOk r → refundInvariant s → refundInvariant s'.
Proof.
  intros H Hr Hinv id' r'. rewrite H.
  destruct (decide (id = id')) as [<-|Hne].
  - rewrite lookup_insert_eq. by intros [= <-].
  - rewrite lookup_insert_ne by done. apply Hinv.
Qed.

Lemma handlePaymentSuccess_refundInvariant id proof s :
  refundInvariant s → refundInvariant (run (handlePaymentSuccess id proof) s).
Proof.
  intros Hinv. unfold run.
  destruct (handlePaymentSuccess id proof s) as [c s'] eqn:Hout. simpl.
  apply handlePaymentSuccess_outcome in Hout as (_ & _ & Hcases).
  destruct (db_paymentRequest s !! id) as [r0|] eqn:Hr0.
  - destruct Hcases as [[_ ->]|(t1 & t2 & toAddress & _ & _ & H12 & _ & Hcases)]; [done|].
    pose proof (Hinv id r0 Hr0) as Hok0.
    assert (Hplain : PaymentRequest.refundDate r0 = None → refundDateOk (settled proof t1 r0)).
    { intros Hnone [d Hd]. simpl in Hd. congruence. }
    case_bool_decide as Hkind.
    + destruct (PaymentRequest.recipientEmail r0) as [e|] eqn:He.
      * destruct Hcases as (t3 & H23 & _ & _ & Hdb & _).
        eapply refundInvariant_insert; [exact Hdb| |done].
        intros _. simpl. rewrite He. split; [done|]. split; by eexists.
      * destruct Hcases as (_ & Hdb & _).
        eapply refundInvariant_insert; [exact Hdb| |done].
        apply Hplain. destruct (PaymentRequest.refundDate r0) as [d|] eqn:Hd; [|done].
        destruct Hok0 as (_ & [? Hsome] & _); [by eexists|]. congruence.
    + destruct Hcases as (_ & Hdb & _).
      eapply refundInvariant_insert; [exact Hdb| |done].
      apply Hplain. destruct (PaymentRequest.refundDate r0) as [d|] eqn:Hd; [|done].
      destruct Hok0 as (Hk & _); [by eexists|]. done.
  - destruct Hcases as (Hdb & _). by eapply refundInvariant_agree.
Qed.

Lemma exec_refundInvariant op s : refundInvariant s → refundInvariant (exec op s).
Proof.
  intros Hinv.
  destruct op as [a|pid proof|pid|pid x mc hs| | | | |uid u|ok|elapsed|elapsed digits]; simpl.
  - destruct (createPaymentRequest_requests a s) as [H|(id & r & H & Hr)].
    + by eapply refundInvariant_agree.
    + eapply refundInvariant_insert; [exact H| |done]. intros [d Hd]. congruence.
  - by apply handlePaymentSuccess_refundInvariant.
  - eapply refundInvariant_statusOnly; [|done]. apply cancelPaymentRequest_statusOnly.
  - destruct (onTimeout_run pid x mc hs s) as [->| ->];
      [done|by apply handlePaymentSuccess_refundInvariant].
  - eapply refundInvariant_agree; [|done]. apply constructor_requests.
  - eapply refundInvariant_agree; [|done]. apply processScheduledPayments_requests.
  - eapply refundInvariant_statusOnly; [|done]. apply processScheduledRefunds_statusOnly.
  - eapply refundInvariant_statusOnly; [|done]. apply processScheduledRequests_statusOnly.
  - done.
  - done.
  - done.
  - done.
Qed.

Lemma reachable_refundInvariant s : reachable s → refundInvariant s.
Proof.
  induction 1 as [s Hinit|op s _ IH].
  - intros id r. unfold initial in Hinit. by rewrite Hinit, lookup_empty.
  - by apply exec_refundInvariant.
Qed.


(** ** The owners of the stored requests *)

Lemma createPaymentRequest_users a :
  preserves (agreeOn db_user) (createPaymentRequest a).
Proof.
  unfold createPaymentRequest, prisma.paymentRequest_create,
    prisma.paymentRequest_findUnique.
  frames.
Qed.

Lemma createPaymentRequest_owner a s :
  db_paymentRequest (run (createPaymentRequest a) s) = db_paymentRequest s ∨
  ∃ id r,
    db_paymentRequest (run (createPaymentRequest a) s) = <[id := r]> (db_paymentRequest s) ∧
    is_Some (walletOf (db_user s) (PaymentRequest.userId r)).
Proof.
  unfold run, createPaymentRequest, prisma.user_findUnique, prisma.paymentRequest_create,
    prisma.paymentRequest_findUnique.
  unfold_async. unfold walletOf.
  destruct (db_user s !! arg_userId a) as [u|] eqn:Hu; simpl; [|by left].
  destruct (User.walletAddress u) as [w|] eqn:Hw; simpl; [|by left].
  case_bool_decide as Hne; [by left|].
  destruct (newDate_spec s) as (t1 & r1 & -> & _).
  destruct (random36_spec (set_time t1 r1 s)) as (d & r2 & ->).
  simpl.
  destruct (newDate_spec (set_randoms r2 (set_time t1 r1 s))) as (t2 & r3 & -> & _).
  simpl.
  destruct (db_paymentRequest s !! _) eqn:Hfresh; [by left|].
  match goal with |- context [newDate ?x] => destruct (newDate_spec x) as (t3 & r4 & -> & _) end.
  simpl. right. eexists _, _. split; [done|]. simpl. rewrite Hu. simpl. rewrite Hw. simpl.
  rewrite bool_decide_true by done. by eexists.
Qed.

Lemma processScheduledPayments_users :
  preserves (agreeOn db_user) processScheduledPayments.
Proof.
  unfold processScheduledPayments, prisma.outgoingPayment_findMany,
    executeOutgoingPayment, updateNotionOutgoingPayment, joinedWallet,
    prisma.transaction_create, prisma.outgoingPayment_update.
  frames.
Qed.

Lemma ownersHaveWallets_agree s s' :
  db_user s' = db_user s → db_paymentRequest s' = db_paymentRequest s →
  ownersHaveWallets s → ownersHaveWallets s'.
Proof. intros Hu Hdb Hinv id r. rewrite Hu, Hdb. apply Hinv. Qed.

Lemma ownersHaveWallets_statusOnly s s' :
  db_user s' = db_user s → statusOnly s s' →
  ownersHaveWallets s → ownersHaveWallets s'.
Proof.
  intros Hu H Hinv id r' Hr'. specialize (H id). rewrite Hr' in H. rewrite Hu.
  destruct (db_paymentRequest s !! id) as [r|] eqn:Hr; [|done].
  pose proof (f_equal PaymentRequest.userId H) as Hid. simpl in Hid.
  rewrite Hid. by eapply Hinv.
Qed.

Lemma ownersHaveWallets_insert s s' id r :
  db_user s' = db_user s →
  db_paymentRequest s' = <[id := r]> (db_paymentRequest s) →
  is_Some (walletOf (db_user s) (PaymentRequest.userId r)) →
  ownersHaveWallets s → ownersHaveWallets s'.
Proof.
  intros Hu H Hr Hinv id' r'. rewrite H, Hu.
  destruct (decide (id = id')) as [<-|Hne].
  - rewrite lookup_insert_eq. by intros [= <-].
  - rewrite lookup_insert_ne by done. apply Hinv.
Qed.

Lemma handlePaymentSuccess_ownersHaveWallets id proof s :
  ownersHaveWallets s → ownersHaveWallets (run (handlePaymentSuccess id proof) s).
Proof.
  intros Hinv. unfold run.
  destruct (handlePaymentSuccess id proof s) as [c s'] eqn:Hout. simpl.
  apply handlePaymentSuccess_outcome in Hout as (_ & Hu & Hcases).
  destruct (db_paymentRequest s !! id) as [r0|] eqn:Hr0.
  - destruct Hcases as [[_ ->]|(t1 & t2 & toAddress & _ & _ & _ & _ & Hcases)]; [done|].
    pose proof (Hinv id r0 Hr0) as Hok0.
    case_bool_decide as Hkind.
    + destruct (PaymentRequest.recipientEmail r0) as [e|] eqn:He.
      * destruct Hcases as (t3 & _ & _ & _ & Hdb & _).
        by eapply ownersHaveWallets_insert; [exact Hu|exact Hdb| |].
      * destruct Hcases as (_ & Hdb & _).
        by eapply ownersHaveWallets_insert; [exact Hu|exact Hdb| |].
    + destruct Hcases as (_ & Hdb & _).
      by eapply ownersHaveWallets_insert; [exact Hu|exact Hdb| |].
  - destruct Hcases as (Hdb & _). by eapply ownersHaveWallets_agree.
Qed.

Lemma exec_ownersHaveWallets op s :
  keepsWallets op s → ownersHaveWallets s → ownersHaveWallets (exec op s).
Proof.
  intros Hkeeps Hinv.
  destruct op as [a|pid proof|pid|pid x mc hs| | | | |uid u|ok|elapsed|elapsed digits];
    unfold exec.
  - destruct (createPaymentRequest_owner a s) as [H|(id & r & H & Hr)].
    + eapply ownersHaveWallets_agree; [apply createPaymentRequest_users|exact H|done].
    + eapply ownersHaveWallets_insert; [apply createPaymentRequest_users|exact H|done..].
  - by apply handlePaymentSuccess_ownersHaveWallets.
  - eapply ownersHaveWallets_statusOnly; [|apply cancelPaymentRequest_statusOnly|done].
    unfold run. rewrite cancelPaymentRequest_spec.
    by destruct (db_paymentRequest s !! pid).
  - destruct (onTimeout_run pid x mc hs s) as [->| ->];
      [done|by apply handlePaymentSuccess_ownersHaveWallets].
  - unfold run. by rewrite constructor_spec.
  - eapply ownersHaveWallets_agree;
      [apply processScheduledPayments_users|apply processScheduledPayments_requests|done].
  - eapply ownersHaveWallets_statusOnly; [|apply processScheduledRefunds_statusOnly|done].
    by apply (processScheduledRefunds_frame db_user).
  - eapply ownersHaveWallets_statusOnly; [|apply processScheduledRequests_statusOnly|done].
    by apply (processScheduledRequests_frame db_user).
  - intros id r Hr. simpl in *. specialize (Hinv id r Hr).
    destruct (decide (uid = PaymentRequest.userId r)) as [->|Hne].
    + specialize (Hkeeps Hinv). unfold walletOf in *.
      by rewrite lookup_insert_eq, lookup_singleton_eq in *.
    + unfold walletOf in *. by rewrite lookup_insert_ne.
  - done.
  - done.
  - done.
Qed.

Lemma produced_ownersHaveWallets s : produced s → ownersHaveWallets s.
Proof.
  induction 1 as [s Hinit|op s _ IH Hkeeps].
  - intros id r. unfold initial in Hinit. by rewrite Hinit, lookup_empty.
  - by apply exec_ownersHaveWallets.
Qed.


(** * The properties of the lifecycle specification *)

Import Scenario.

(** ** C1: a second settlement call *)

(** C1, as the code has it. [handlePaymentSuccess] does not look at the current
    status. After a first successful call for a payment id, a second call for
    the same id resolves again (the route is gone, so the request is found
    through the database fallback), returns a row whose status is
    [payment_received], appends one more INCOMING transaction, so that the two
    calls leave two ledger entries, and repeats the workspace-mirror call. *)
Theorem second_settlement_repeats id proof1 proof2 s res1 s1 :
  handlePaymentSuccess id proof1 s = (Return res1, s1) →
  ∃ res2 s2,
    handlePaymentSuccess id proof2 s1 = (Return res2, s2) ∧
    PaymentRequest.status res2.1.2 = "payment_received" ∧
    length (ledgerEntries id s1) = S (length (ledgerEntries id s)) ∧
    length (ledgerEntries id s2) = S (S (length (ledgerEntries id s))) ∧
    notionCalls s2 =
      notionCalls s1 ++ mirrorCalls (db_user s1) id (PaymentRequest.userId res1.1.2).
Proof.
  intros H1.
  pose proof H1 as Hfirst.
  apply handlePaymentSuccess_Return in Hfirst
    as (r0 & r1 & tx1 & Hr0 & Hr1 & Hres1 & _ & Huid & Hkind & Hmail & Hroute & Htx1 & Hl1 & _ & _).
  assert (Hsettles : settles id s1 = true).
  { pose proof H1 as Hs. apply handlePaymentSuccess_outcome in Hs as (Hs & _).
    simpl in Hs. unfold settles in *. rewrite Hr0 in Hs. rewrite Hr1, Hroute, Hkind, Hmail.
    symmetry in Hs. apply andb_true_iff in Hs as [_ Hs]. by rewrite Hs. }
  destruct (handlePaymentSuccess id proof2 s1) as [c2 s2] eqn:H2.
  pose proof H2 as Hs2. apply handlePaymentSuccess_outcome in Hs2 as (Hs2 & _).
  rewrite Hsettles in Hs2. destruct c2 as [res2|e]; [|done].
  exists res2, s2. split; [done|].
  apply handlePaymentSuccess_Return in H2
    as (r1' & r2 & tx2 & Hr1' & Hr2 & Hres2 & _ & _ & _ & _ & _ & Htx2 & Hl2 & Hn & _).
  rewrite Hres2. simpl. split; [done|].
  pose proof (ledgerEntries_snoc id s s1 tx1 Htx1 Hl1) as E1.
  pose proof (ledgerEntries_snoc id s1 s2 tx2 Htx2 Hl2) as E2.
  split; [done|]. split; [lia|].
  rewrite Hn, Hres1. simpl. rewrite Hr1 in Hr1'. injection Hr1' as <-. by rewrite Huid.
Qed.

(** The theorem of C1 applied to a refundable request paid twice, the second
    time without a proof. *)
Lemma second_settlement_repeats_witness :
  ∃ res1 s1,
    handlePaymentSuccess pid proof (created deposit) = (Return res1, s1) ∧
    ∃ res2 s2,
      handlePaymentSuccess pid None s1 = (Return res2, s2) ∧
      PaymentRequest.status res2.1.2 = "payment_received" ∧
      length (ledgerEntries pid s1) = S (length (ledgerEntries pid (created deposit))) ∧
      length (ledgerEntries pid s2) = S (S (length (ledgerEntries pid (created deposit)))) ∧
      notionCalls s2 =
        notionCalls s1 ++ mirrorCalls (db_user s1) pid (PaymentRequest.userId res1.1.2).
Proof.
  eexists _, _. split; [vm_compute; reflexivity|].
  apply (second_settlement_repeats pid proof None (created deposit)).
  vm_compute. reflexivity.
Defined.

(** C1 as stated fails: an invoice is created and paid twice with the same
    proof. Both calls resolve; after the second there are two ledger entries
    and two mirror calls, and the stored row has changed (a new paid
    timestamp). *)
Lemma second_call_is_not_a_noop :
  resolves (handlePaymentSuccess pid proof (created invoice)).1 = true ∧
  statusOf pid (paid invoice) = Some "payment_received" ∧
  resolves (handlePaymentSuccess pid proof (paid invoice)).1 = true ∧
  length (ledgerEntries pid (paid invoice)) = 1%nat ∧
  length (ledgerEntries pid (paidTwice invoice)) = 2%nat ∧
  length (notionCalls (paid invoice)) = 1%nat ∧
  length (notionCalls (paidTwice invoice)) = 2%nat ∧
  db_paymentRequest (paidTwice invoice) !! pid ≠ db_paymentRequest (paid invoice) !! pid.
Proof.
  repeat split; try (vm_compute; reflexivity).
  intros H. vm_compute in H. discriminate H.
Qed.

(** ** C2: when the route of a scheduled request is registered *)

(** C2, as the code has it. [createPaymentRequest] registers the route at
    creation whatever the schedule: a request created with schedule type
    [scheduled] is stored with status [scheduled], its route is in the map and
    the route check of the payment link lets its id through (no 404).
    Activation by the scheduler ([activatePaymentRequest], and the whole
    activation cycle) only writes the status and leaves the route map as it
    is. *)
Theorem route_registered_at_creation :
  (∀ a s res s',
     arg_scheduleType a = Some "scheduled" →
     createPaymentRequest a s = (Return res, s') →
     PaymentRequest.status (request res) = "scheduled" ∧
     is_Some (paymentRoutes s' !! paymentId res) ∧
     routeLookup (paymentId res) s' = (Return None, s')) ∧
  (∀ row s, paymentRoutes (run (activatePaymentRequest row) s) = paymentRoutes s) ∧
  (∀ s, paymentRoutes (run processScheduledRequests s) = paymentRoutes s).
Proof.
  split; [|split].
  - intros a s res s' Hsched H.
    apply createPaymentRequest_Return in H
      as (w & t & Hw & _ & _ & Hroutes & Hst & _ & _ & _ & _ & _ & Hu & _).
    unfold createdStatus in Hst. rewrite Hsched in Hst. simpl in Hst.
    split; [done|]. rewrite routeLookup_spec, Hroutes, lookup_insert_eq. simpl.
    split; [by eexists|]. rewrite Hu, Hw. by rewrite bool_decide_true by eauto.
  - intros row s.
    assert (Hf : preserves (agreeOn paymentRoutes) (activatePaymentRequest row)); [|apply Hf].
    unfold activatePaymentRequest, updateNotionIncomingPayment,
      prisma.paymentRequest_update, prisma.paymentRequest_findUnique.
    frames.
  - intros s. by apply (processScheduledRequests_frame paymentRoutes).
Qed.

(** The theorem of C2 applied to a request scheduled one hour ahead. *)
Lemma route_registered_at_creation_witness :
  ∃ res s',
    createPaymentRequest futureInvoice world = (Return res, s') ∧
    PaymentRequest.status (request res) = "scheduled" ∧
    is_Some (paymentRoutes s' !! paymentId res) ∧
    routeLookup (paymentId res) s' = (Return None, s').
Proof.
  eexists _, _. split; [vm_compute; reflexivity|].
  apply (proj1 route_registered_at_creation futureInvoice world); [reflexivity|].
  vm_compute. reflexivity.
Defined.

(** C2 as stated fails: a request scheduled one hour after its creation has
    status [scheduled], and its route is already registered and found by the
    route check, before any activation. *)
Lemma scheduled_request_has_a_live_route :
  statusOf pid (created futureInvoice) = Some "scheduled" ∧
  PaymentRequest.scheduledDate <$> db_paymentRequest (created futureInvoice) !! pid
    = Some (Some 1700003600000) ∧
  clock (created futureInvoice) < 1700003600000 ∧
  RouteConfig.userId <$> paymentRoutes (created futureInvoice) !! pid = Some "alice" ∧
  (routeLookup pid (created futureInvoice)).1 = Return None.
Proof. repeat split; vm_compute; reflexivity. Qed.

(** ** C3: cancelling a paid request *)

(** C3, as the code has it. [cancelPaymentRequest] has no guard on the status:
    for every stored request, whatever its status, it resolves with the row
    marked [cancelled], stores that row and removes the route. (It throws only
    when no request has the id: [cancelPaymentRequest_spec].) *)
Theorem cancel_has_no_status_guard id s r :
  db_paymentRequest s !! id = Some r →
  ∃ s',
    cancelPaymentRequest id s = (Return (PaymentRequest.set_status "cancelled" r), s') ∧
    db_paymentRequest s' !! id = Some (PaymentRequest.set_status "cancelled" r) ∧
    PaymentRequest.status (PaymentRequest.set_status "cancelled" r) = "cancelled" ∧
    paymentRoutes s' !! id = None.
Proof.
  intros Hr. rewrite cancelPaymentRequest_spec, Hr. eexists. split; [done|].
  simpl. by rewrite lookup_insert_eq, lookup_delete_eq.
Qed.

(** The theorem of C3 applied to a paid refundable request. *)
Lemma cancel_has_no_status_guard_witness :
  ∃ s',
    cancelPaymentRequest pid (paid deposit) =
      (Return (PaymentRequest.set_status "cancelled" paidDeposit), s') ∧
    db_paymentRequest s' !! pid = Some (PaymentRequest.set_status "cancelled" paidDeposit) ∧
    PaymentRequest.status (PaymentRequest.set_status "cancelled" paidDeposit) = "cancelled" ∧
    paymentRoutes s' !! pid = None.
Proof.
  apply (cancel_has_no_status_guard pid (paid deposit) paidDeposit).
  vm_compute. reflexivity.
Defined.

(** C3 as stated fails: cancelling a request whose status is
    [payment_received] resolves and leaves it [cancelled]. *)
Lemma cancel_after_payment_received :
  statusOf pid (paid invoice) = Some "payment_received" ∧
  resolves (cancelPaymentRequest pid (paid invoice)).1 = true ∧
  statusOf pid (exec (Cancel pid) (paid invoice)) = Some "cancelled".
Proof. repeat split; vm_compute; reflexivity. Qed.

(** ** C4: the refund date *)

(** C4, as the code has it. In every reachable state a stored request with a
    refund date is of kind [ask_and_refund], names a recipient e-mail and
    has a paid timestamp; no request of another kind ever has a refund date.
    A successful settlement of an [ask_and_refund] request, run on its own,
    stores as paid timestamp its first clock reading, and as refund date what
    [setDate(getDate() + 30)] makes of the later reading [scheduleRefund]
    takes: the same local clock time 30 calendar days on, in the local zone
    of the process. On a server whose zone has a constant offset that is the
    later reading plus 30 days of 24 hours, and it is the paid timestamp
    plus 30 days exactly when the clock did not move between the two
    readings. *)
Theorem refund_date_invariant :
  (∀ s, reachable s → ∀ id r,
     db_paymentRequest s !! id = Some r →
     is_Some (PaymentRequest.refundDate r) →
     PaymentRequest.transactionType r = "ask_and_refund" ∧
     is_Some (PaymentRequest.recipientEmail r) ∧
     is_Some (PaymentRequest.paidAt r)) ∧
  (∀ id proof s res s',
     handlePaymentSuccess id proof s = (Return res, s') →
     PaymentRequest.transactionType res.1.2 = "ask_and_refund" →
     ∃ r, db_paymentRequest s' !! id = Some r ∧
          PaymentRequest.paidAt r = Some (nextDate s) ∧
          nextDate s ≤ clock s' ∧
          PaymentRequest.refundDate r = Some (addDays (LocalTZA s) 30 (clock s')) ∧
          addDays (LocalTZA s) 30 (clock s') =
            UTC (LocalTZA s) (LocalTime (LocalTZA s) (clock s') + 30 * msPerDay) ∧
          ∀ offset, (∀ t isUTC, LocalTZA s t isUTC = offset) →
            PaymentRequest.refundDate r = Some (clock s' + 30 * msPerDay) ∧
            (PaymentRequest.refundDate r = Some (nextDate s + 30 * msPerDay)
               ↔ clock s' = nextDate s)).
Proof.
  split.
  - intros s Hs id r Hr Hd. by apply (reachable_refundInvariant s Hs id r Hr).
  - intros id proof s res s' Hout Hkind.
    apply handlePaymentSuccess_outcome in Hout as (Hres & _ & Hcases).
    destruct (db_paymentRequest s !! id) as [r0|] eqn:Hr0.
    + destruct Hcases as [[? _]|(t1 & t2 & toAddress & Ht1 & _ & H12 & _ & Hcases)]; [done|].
      case_bool_decide as Hk.
      * destruct (PaymentRequest.recipientEmail r0) as [e|] eqn:He.
        -- destruct Hcases as (t3 & H23 & Hclock & _ & Hdb & _).
           eexists. rewrite Hdb, lookup_insert_eq. split; [done|]. simpl.
           subst. split; [done|]. split; [lia|]. split; [done|].
           split; [apply addDays_local|].
           intros offset Hzone. rewrite (addDays_fixed _ offset) by done.
           split; [done|]. split; [intros [= ?]; lia|by intros ->].
        -- by destruct Hcases as (? & _).
      * destruct Hcases as ([= ->] & _). simpl in Hkind. done.
    + unfold settles in Hres. by rewrite Hr0 in Hres.
Qed.

Lemma paid_deposit_reachable : reachable (paid deposit).
Proof.
  unfold paid, created. do 2 apply reachable_exec. apply reachable_initial. reflexivity.
Defined.

(** The theorem of C4 applied to the stored row of a paid refundable
    request. *)
Lemma refund_date_invariant_witness :
  PaymentRequest.transactionType paidDeposit = "ask_and_refund" ∧
  is_Some (PaymentRequest.recipientEmail paidDeposit) ∧
  is_Some (PaymentRequest.paidAt paidDeposit).
Proof.
  apply (proj1 refund_date_invariant (paid deposit) paid_deposit_reachable pid).
  - vm_compute. reflexivity.
  - exists 1702592000015. reflexivity.
Defined.

(** C4 as stated fails three times. On a server in UTC a refundable request
    is paid while the clock advances between the reads: its refund date is
    not its paid timestamp plus 30 days. On a server in New York a request
    paid on 26 February 2024 gets a refund date 30 days less one hour after
    the clock reading it is computed from, and one paid on 11 October 2023 a
    refund date 30 days and one hour after it. And a refundable request
    without a recipient e-mail reaches [payment_received] ([scheduleRefund]
    throws on the refund row) with no refund date. *)
Lemma refund_date_differs_from_paid_plus_30_days :
  (PaymentRequest.paidAt <$> db_paymentRequest (paid deposit) !! pid
     = Some (Some 1700000000010) ∧
   PaymentRequest.refundDate <$> db_paymentRequest (paid deposit) !! pid
     = Some (Some 1702592000015) ∧
   1700000000010 + 30 * msPerDay ≠ 1702592000015) ∧
  (PaymentRequest.paidAt <$> db_paymentRequest paidInFebruary !! februaryPid
     = Some (Some 1709000000010) ∧
   clock paidInFebruary = 1709000000015 ∧
   PaymentRequest.refundDate <$> db_paymentRequest paidInFebruary !! februaryPid
     = Some (Some (1709000000015 + 30 * msPerDay - 3600000))) ∧
  (PaymentRequest.paidAt <$> db_paymentRequest paidInOctober !! octoberPid
     = Some (Some 1697000000010) ∧
   clock paidInOctober = 1697000000015 ∧
   PaymentRequest.refundDate <$> db_paymentRequest paidInOctober !! octoberPid
     = Some (Some (1697000000015 + 30 * msPerDay + 3600000))) ∧
  (statusOf pid (paid anonymousDeposit) = Some "payment_received" ∧
   PaymentRequest.transactionType <$> db_paymentRequest (paid anonymousDeposit) !! pid
     = Some "ask_and_refund" ∧
   PaymentRequest.refundDate <$> db_paymentRequest (paid anonymousDeposit) !! pid
     = Some None).
Proof.
  repeat split; try (vm_compute; reflexivity).
  intros H. vm_compute in H. discriminate H.
Qed.

(** ** C5: the timeout of the payment link *)

(** C5, as the code has it. When the timer fires and the middleware has
    neither completed nor sent headers, the callback always answers. With a
    proof header it invokes [handlePaymentSuccess] and answers with the
    success page (200) when that resolves, which it does exactly when
    [settles] holds, and with 400 "Payment verification failed" when it
    throws; without a proof header it answers 500 with the timeout error and
    changes nothing. *)
Theorem timeout_gives_definite_response id x s :
  (truthy x = true →
     let out := handlePaymentSuccess id x s in
     onTimeout id x false false s =
       (Return (true, Some (timeoutResponse id out.1)), out.2) ∧
     resolves out.1 = settles id s) ∧
  (truthy x = false →
     onTimeout id x false false s =
       (Return (true, Some (mkResponse 500 (json "X402 payment processing timeout" None))), s)).
Proof.
  rewrite onTimeout_spec. split; intros ->; [|done]. simpl. split; [done|].
  destruct (handlePaymentSuccess id x s) as [c s'] eqn:Hout.
  by apply handlePaymentSuccess_outcome in Hout as [? _].
Qed.

(** The theorem of C5 applied to an invoice, with and without a proof
    header. *)
Lemma timeout_gives_definite_response_witness :
  (onTimeout pid proof false false (created invoice) =
     (Return (true, Some (timeoutResponse pid
                (handlePaymentSuccess pid proof (created invoice)).1)),
      (handlePaymentSuccess pid proof (created invoice)).2) ∧
   resolves (handlePaymentSuccess pid proof (created invoice)).1
     = settles pid (created invoice)) ∧
  onTimeout pid None false false (created invoice) =
    (Return (true, Some (mkResponse 500
       (json "X402 payment processing timeout" None))), created invoice).
Proof.
  split.
  - apply (proj1 (timeout_gives_definite_response pid proof (created invoice))).
    reflexivity.
  - apply (proj2 (timeout_gives_definite_response pid None (created invoice))).
    reflexivity.
Defined.

(** C5 as stated fails: for a refundable request without a recipient e-mail
    the timer fires with a proof header present; the settlement throws and
    the answer is 400, not the success page (the request is nonetheless
    marked [payment_received]). *)
Lemma timeout_with_proof_answers_400 :
  truthy proof = true ∧
  (onTimeout pid proof false false (created anonymousDeposit)).1 =
    Return (true, Some (mkResponse 400
      (json "Payment verification failed"
         (Some "Argument `recipientAddress` must not be null.")))) ∧
  statusOf pid (exec (Timeout pid proof false false) (created anonymousDeposit))
    = Some "payment_received".
Proof. repeat split; vm_compute; reflexivity. Qed.

(** ** C6: the status of a new request *)

(** C6, as the code has it. The status of a created request depends on the
    schedule type alone: [processing] when it is [immediate], [scheduled]
    otherwise. The scheduled date is stored as given and is not compared with
    the current time. *)
Theorem created_status_follows_scheduleType a s res s' :
  createPaymentRequest a s = (Return res, s') →
  PaymentRequest.status (request res) =
    (if bool_decide (default "immediate" (arg_scheduleType a) = "immediate")
     then "processing" else "scheduled") ∧
  PaymentRequest.scheduledDate (request res) = arg_scheduledDate a ∧
  db_paymentRequest s' !! paymentId res = Some (request res).
Proof.
  intros H. apply createPaymentRequest_Return in H
    as (w & t & _ & _ & Hdb & _ & Hst & _ & Hsd & _).
  rewrite Hdb, lookup_insert_eq. done.
Qed.

(** The theorem of C6 applied to a request scheduled in the past. *)
Lemma created_status_follows_scheduleType_witness :
  ∃ res s',
    createPaymentRequest lateInvoice world = (Return res, s') ∧
    PaymentRequest.status (request res) =
      (if bool_decide (default "immediate" (arg_scheduleType lateInvoice) = "immediate")
       then "processing" else "scheduled") ∧
    PaymentRequest.scheduledDate (request res) = arg_scheduledDate lateInvoice ∧
    db_paymentRequest s' !! paymentId res = Some (request res).
Proof.
  eexists _, _. split; [vm_compute; reflexivity|].
  apply (created_status_follows_scheduleType lateInvoice world).
  vm_compute. reflexivity.
Defined.

(** C6 as stated fails: a request created with schedule type [scheduled] and
    an activation time that has already passed is stored as [scheduled], not
    [processing]. *)
Lemma past_scheduled_request_stays_scheduled :
  PaymentRequest.scheduleType <$> db_paymentRequest (created lateInvoice) !! pid
    = Some "scheduled" ∧
  PaymentRequest.scheduledDate <$> db_paymentRequest (created lateInvoice) !! pid
    = Some (Some 1699999000000) ∧
  1699999000000 < clock world ∧
  statusOf pid (created lateInvoice) = Some "scheduled".
Proof. repeat split; vm_compute; reflexivity. Qed.

(** ** C7: rebuilding the routes after a restart *)

(** C7. In every state the code produces from a fresh deployment, the
    constructor of a new process rebuilds the routes from the stored requests
    and users alone: the map holds one route for every stored request in
    status [processing] or [scheduled], made of that request and its owner's
    wallet address, and no other route. It has as many routes as there are
    awaiting requests; those of the requests in [processing] are as many as
    these requests; and it is the same whatever the process before held in
    memory. *)
Theorem routes_rebuilt_from_storage s :
  produced s →
  let s' := run X402PayService.constructor s in
  (∀ id r, db_paymentRequest s !! id = Some r → awaitingPayment r = true →
     ∃ w, walletOf (db_user s) (PaymentRequest.userId r) = Some w ∧
          paymentRoutes s' !! id = Some (routeConfigOf r w)) ∧
  (∀ id, is_Some (paymentRoutes s' !! id) →
     ∃ r, db_paymentRequest s !! id = Some r ∧ awaitingPayment r = true) ∧
  size (paymentRoutes s') = size (awaitingRequests s) ∧
  size (processingRoutes s') = size (processingRequests s) ∧
  (∀ s0, db_user s0 = db_user s → db_paymentRequest s0 = db_paymentRequest s →
     paymentRoutes (run X402PayService.constructor s0) = paymentRoutes s').
Proof.
  intros Hs. apply produced_ownersHaveWallets in Hs.
  assert (Hroute : ∀ id r, db_paymentRequest s !! id = Some r → awaitingPayment r = true →
    ∃ w, walletOf (db_user s) (PaymentRequest.userId r) = Some w ∧
         routeFor (db_user s) r = Some (routeConfigOf r w)).
  { intros id r Hr Haw. destruct (Hs id r Hr) as [w Hw]. exists w. split; [done|].
    unfold routeFor. by rewrite Haw, Hw. }
  unfold run. rewrite constructor_spec. cbn [snd]. cbv zeta.
  unfold processingRoutes, processingRequests, awaitingRequests. simpl.
  split; [|split; [|split; [|split]]].
  - intros id r Hr Haw. destruct (Hroute id r Hr Haw) as (w & Hw & Hrt).
    exists w. split; [done|]. by rewrite lookup_omap, Hr.
  - intros id [c Hc]. rewrite lookup_omap in Hc.
    destruct (db_paymentRequest s !! id) as [r|]; [|done]. simpl in Hc.
    exists r. split; [done|]. unfold routeFor in Hc.
    by destruct (awaitingPayment r).
  - rewrite size_omap_filter. f_equal.
    apply map_filter_ext. intros id r Hr. simpl. unfold routeFor.
    destruct (awaitingPayment r) eqn:Haw.
    + split; [done|]. intros _. destruct (Hs id r Hr) as [w ->]. by eexists.
    + split; [by intros [? ?]|done].
  - rewrite <- !size_dom. f_equal. apply set_eq. intros id.
    rewrite !elem_of_dom. unfold is_Some.
    setoid_rewrite map_lookup_filter_Some. setoid_rewrite lookup_omap. simpl.
    destruct (db_paymentRequest s !! id) as [r|] eqn:Hr; simpl.
    + split.
      * intros (c & _ & [= Hst]). eauto.
      * intros (r' & [= <-] & Hst).
        destruct (Hroute id r Hr) as (w & _ & ->).
        { unfold awaitingPayment. rewrite Hst. apply bool_decide_eq_true. set_solver. }
        rewrite Hst. eauto.
    + split; [by intros (? & ? & ?)|by intros (? & ? & ?)].
  - intros s0 Hu Hdb. rewrite constructor_spec. simpl. by rewrite Hu, Hdb.
Qed.

Lemma twoAwaiting_produced : produced twoAwaiting.
Proof.
  unfold twoAwaiting, created.
  do 2 (apply produced_exec; [|exact I]). apply produced_initial. reflexivity.
Defined.

(** The theorem of C7 applied to a deployment with two awaiting requests, one
    of them in [processing]. *)
Lemma routes_rebuilt_from_storage_witness :
  size (paymentRoutes (run X402PayService.constructor twoAwaiting))
    = size (awaitingRequests twoAwaiting) ∧
  size (processingRoutes (run X402PayService.constructor twoAwaiting))
    = size (processingRequests twoAwaiting).
Proof.
  pose proof (routes_rebuilt_from_storage twoAwaiting twoAwaiting_produced) as H.
  split; [exact (proj1 (proj2 (proj2 H)))|exact (proj1 (proj2 (proj2 (proj2 H))))].
Defined.

(** ** C8: the refund cycle *)

(** C8, as the code has it. The refund cycle neither creates nor consults an
    OutgoingPayment: it leaves that table as it is. It sends the refunds
    itself: the calls it makes on the send primitive of the wallet service
    are exactly one for each stored [payment_received] request of kind
    [ask_and_refund] whose refund date is at or before the cycle's clock
    reading, in the order of the query, each to the request's
    [recipientEmail] for its amount. Every such request is among them, and
    when the wallet service is initialised and the owner has a wallet (so
    that the send succeeds) the request is marked [refunded]. *)
Theorem refund_cycle_sends_directly s :
  let s' := run processScheduledRefunds s in
  db_outgoingPayment s' = db_outgoingPayment s ∧
  sendCryptoCalls s' =
    sendCryptoCalls s ++ (refundCall <$> (selected (refundDue (nextDate s)) s).*2) ∧
  ∀ id r,
    db_paymentRequest s !! id = Some r →
    refundDue (nextDate s) r = true →
    refundCall r ∈ drop (length (sendCryptoCalls s)) (sendCryptoCalls s') ∧
    (initialized s = true →
     is_Some (walletOf (db_user s) (PaymentRequest.userId r)) →
     refunded id s').
Proof.
  assert (Hcalls : sendCryptoCalls (run processScheduledRefunds s) =
    sendCryptoCalls s ++ (refundCall <$> (selected (refundDue (nextDate s)) s).*2)).
  { destruct (processScheduledRefunds_run s) as [k ->].
    rewrite forOf_executeRefund_calls, findMany_keys. done. }
  cbv zeta. split; [|split; [exact Hcalls|]].
  - by apply (processScheduledRefunds_frame db_outgoingPayment).
  - intros id r Hdb Hdue. split.
    + rewrite Hcalls, drop_app_length.
      apply (list_elem_of_fmap_2 refundCall).
      apply (list_elem_of_fmap_2 snd _ (id, r)).
      apply list_elem_of_filter. split; [done|]. by apply elem_of_map_to_list.
    + intros Hinit [w Hw].
      destruct (processScheduledRefunds_run s) as [k ->].
      apply forOf_executeRefund_refunds with r (db_user s !! PaymentRequest.userId r) w;
        simpl; try done; [|by eexists..].
      apply (list_elem_of_fmap_2
        (λ row : PaymentRequest.row, (row, db_user s !! PaymentRequest.userId row.2))
        _ (id, r)).
      apply list_elem_of_filter. split; [done|]. by apply elem_of_map_to_list.
Qed.

(** The theorem of C8 applied thirty days after a refundable request was
    paid. *)
Lemma refund_cycle_sends_directly_witness :
  refundCall paidDeposit
    ∈ drop (length (sendCryptoCalls dueWorld))
        (sendCryptoCalls (run processScheduledRefunds dueWorld)) ∧
  refunded pid (run processScheduledRefunds dueWorld).
Proof.
  destruct (proj2 (proj2 (refund_cycle_sends_directly dueWorld)) pid paidDeposit)
    as [Hcall Hrefunded].
  - vm_compute. reflexivity.
  - vm_compute. reflexivity.
  - split; [exact Hcall|]. apply Hrefunded.
    + reflexivity.
    + exists "0xA11CE". vm_compute. reflexivity.
Defined.

(** C8 as stated fails: thirty days after the settlement the refund cycle
    sends the refund and marks the request [refunded] while its
    OutgoingPayment (created by [scheduleRefund]) is still [scheduled], not
    completed, and the cycle has created none. *)
Lemma refund_cycle_ignores_outgoing_payment :
  statusOf pid dueWorld = Some "payment_received" ∧
  OutgoingPayment.status <$> db_outgoingPayment dueWorld = ["scheduled"] ∧
  sendCryptoCalls dueWorld = [] ∧
  statusOf pid refundedWorld = Some "refunded" ∧
  OutgoingPayment.status <$> db_outgoingPayment refundedWorld = ["scheduled"] ∧
  sendCryptoCalls refundedWorld =
    [mkSendCryptoCall "alice" (Some "bob@example.com") (100 # 1) "USDC" "sei-testnet"].
Proof. repeat split; vm_compute; reflexivity. Qed.

(** ** C9: creation requires a wallet *)

(** C9. When the user is unknown or has no (non-empty) wallet address,
    [createPaymentRequest] throws "User must create a Privy wallet before
    requesting payments" and leaves the whole state, hence the stored
    requests and the routes, unchanged; and whenever it resolves the user has
    a wallet address. *)
Theorem createPaymentRequest_needs_wallet a s :
  (truthy (db_user s !! arg_userId a ≫= User.walletAddress) = false →
     createPaymentRequest a s = (Throw noWalletMessage, s)) ∧
  (resolves (createPaymentRequest a s).1 = true →
     truthy (db_user s !! arg_userId a ≫= User.walletAddress) = true).
Proof.
  assert (Hfail : truthy (db_user s !! arg_userId a ≫= User.walletAddress) = false →
     createPaymentRequest a s = (Throw noWalletMessage, s)).
  { intros H. unfold createPaymentRequest, prisma.user_findUnique. unfold_async.
    destruct (db_user s !! arg_userId a) as [u|]; simpl in *; [|done].
    destruct (User.walletAddress u) as [w|]; simpl in *; [|done].
    destruct (decide (w = "")) as [->|Hw]; [done|].
    by rewrite bool_decide_true in H. }
  split; [exact Hfail|].
  intros Hok.
  destruct (truthy (db_user s !! arg_userId a ≫= User.walletAddress)); [done|].
  rewrite Hfail in Hok by done. done.
Qed.

(** The theorem of C9 applied to a user without a wallet and to one with a
    wallet. *)
Lemma createPaymentRequest_needs_wallet_witness :
  createPaymentRequest (mkCreateArgs "carol" (5 # 1) None None None None None None None None None)
    world = (Throw noWalletMessage, world) ∧
  truthy (db_user world !! arg_userId invoice ≫= User.walletAddress) = true.
Proof.
  split.
  - apply (proj1 (createPaymentRequest_needs_wallet _ world)). reflexivity.
  - apply (proj2 (createPaymentRequest_needs_wallet invoice world)).
    vm_compute. reflexivity.
Defined.

(** ** C10: the recipient of a refund *)




(** * Further properties of the code *)

(** ** A loop over the rows of a query *)

Section cycle.
Context (f : PaymentRequest.row * option User.t → Async unit).
Context (g : PaymentRequest.row * option User.t → PaymentRequest.t → PaymentRequest.t).
Context (I : State → Prop).
Hypothesis step : ∀ e st, I st →
  (f e st).1 = Return tt ∧ I (run (f e) st) ∧
  ∀ id, db_paymentRequest (run (f e) st) !! id =
        if decide (id = e.1.1) then g e <$> db_paymentRequest st !! id
        else db_paymentRequest st !! id.

Lemma forOf_rows_invariant entries st : I st → I (run (forOf entries f) st).
Proof.
  revert st. induction entries as [|e entries IH]; intros st Hst; [done|].
  destruct (step e st Hst) as (Hres & HI & _).
  unfold run in *. simpl. unfold mbind, Async_bind.
  destruct (f e st) as [c s1]. simpl in *. subst c. by apply IH.
Qed.

Lemma forOf_rows_other entries st id :
  I st → id ∉ entries.*1.*1 →
  db_paymentRequest (run (forOf entries f) st) !! id = db_paymentRequest st !! id.
Proof.
  revert st. induction entries as [|e entries IH]; intros st Hst Hid; [done|].
  rewrite !fmap_cons in Hid. apply not_elem_of_cons in Hid as [Hne Hid].
  destruct (step e st Hst) as (Hres & HI & Hdb).
  unfold run in *. simpl. unfold mbind, Async_bind.
  destruct (f e st) as [c s1]. simpl in *. subst c.
  rewrite IH by done. rewrite Hdb. by rewrite decide_False.
Qed.

Lemma forOf_rows_entry entries st e :
  I st → NoDup entries.*1.*1 → e ∈ entries →
  db_paymentRequest (run (forOf entries f) st) !! e.1.1 =
    g e <$> db_paymentRequest st !! e.1.1.
Proof.
  revert st. induction entries as [|e' entries IH]; intros st Hst Hnd He.
  - by apply elem_of_nil in He.
  - rewrite !fmap_cons in Hnd. apply NoDup_cons in Hnd as [Hfresh Hnd].
    destruct (step e' st Hst) as (Hres & HI & Hdb).
    pose proof (forOf_rows_other entries (run (f e') st)) as Hother.
    pose proof (IH (run (f e') st)) as IH'.
    unfold run in *. simpl. unfold mbind, Async_bind.
    destruct (f e' st) as [c s1]. simpl in *. subst c.
    apply elem_of_cons in He as [<-|He].
    + rewrite Hother by done. rewrite Hdb. by rewrite decide_True.
    + rewrite IH' by done. rewrite Hdb. rewrite decide_False; [done|].
      intros Heq. apply Hfresh.
      apply (list_elem_of_fmap_2 fst), (list_elem_of_fmap_2 fst) in He.
      destruct e as [[? ?] ?], e' as [[? ?] ?]; simpl in *. by subst.
Qed.

(** The loop over the result of a [findMany] taken in the state it starts
    from: every selected row is changed by its own iteration, every other row
    is left alone. *)
Lemma forOf_findMany_rows (where_ : PaymentRequest.t → bool)
    (users : gmap string User.t) st id :
  I st →
  db_paymentRequest
    (run (forOf ((λ row : PaymentRequest.row, (row, users !! PaymentRequest.userId row.2))
                   <$> selected where_ st) f) st) !! id =
    (λ r, if where_ r then g ((id, r), users !! PaymentRequest.userId r) r else r)
      <$> db_paymentRequest st !! id.
Proof.
  intros HI. unfold selected. set (entries := _ <$> filter _ _).
  assert (Hnd : NoDup entries.*1.*1).
  { unfold entries. rewrite findMany_keys. apply NoDup_filter_keys. }
  assert (Hout : (∀ r, db_paymentRequest st !! id = Some r → where_ r = false) →
                 id ∉ entries.*1.*1).
  { intros Hno. unfold entries. rewrite findMany_keys.
    intros Hin. apply list_elem_of_fmap in Hin as ([id' r'] & -> & Hin).
    apply list_elem_of_filter in Hin as [Hw Hin]. simpl in *.
    apply elem_of_map_to_list in Hin. rewrite (Hno _ Hin) in Hw. done. }
  destruct (db_paymentRequest st !! id) as [r|] eqn:Hr; simpl.
  - destruct (where_ r) eqn:Hw.
    + assert (He : ((id, r), users !! PaymentRequest.userId r) ∈ entries).
      { unfold entries.
        apply (list_elem_of_fmap_2
          (λ row : PaymentRequest.row, (row, users !! PaymentRequest.userId row.2))
          _ (id, r)).
        apply list_elem_of_filter. split; [done|]. by apply elem_of_map_to_list. }
      pose proof (forOf_rows_entry entries st _ HI Hnd He) as Hx.
      simpl in Hx. etrans; [exact Hx|]. by rewrite Hr.
    + etrans; [apply (forOf_rows_other entries st id HI)|]; [|done].
      apply Hout. intros r' [= <-]. done.
  - etrans; [apply (forOf_rows_other entries st id HI)|]; [|done].
    apply Hout. intros r' [=].
Qed.
End cycle.

(** ** The send primitive *)

Lemma sendCrypto_failure u to a c s :
  sends s u = false →
  ∃ e s', WalletService.sendCrypto u to a c s = (Throw e, s').
Proof.
  unfold sends. intros H.
  unfold WalletService.sendCrypto, WalletService.getWallet, prisma.user_findUnique.
  unfold_async. destruct (initialized s); simpl in *; [|eauto].
  unfold walletOf in H.
  destruct (db_user s !! u) as [usr|]; simpl in *; [|eauto].
  destruct (User.walletAddress usr) as [w|]; simpl in *; [|eauto].
  destruct (decide (w = "")) as [->|Hw]; simpl; [eauto|].
  rewrite (bool_decide_true (w ≠ "")) in H by done.
  rewrite bool_decide_true in H by eauto. done.
Qed.

Lemma sends_agree s s' u :
  initialized s' = initialized s → db_user s' = db_user s → sends s' u = sends s u.
Proof. unfold sends. by intros -> ->. Qed.

(** The outcome of one recorded send: it resolves exactly for a user who can
    send, and then reports success. *)
Lemma walletService_sendCrypto_outcome u to a c n s :
  ∃ out s',
    walletService_sendCrypto u to a c n s = (out, s') ∧
    db_paymentRequest s' = db_paymentRequest s ∧
    resolves out = sends s u ∧
    ∀ res, out = Return res → WalletService.success res = true.
Proof.
  pose proof (walletService_sendCrypto_frame db_paymentRequest u to a c n
                (λ _ _, eq_refl) (λ _ _, eq_refl) s) as Hf.
  unfold agreeOn in Hf.
  destruct (sends s u) eqn:Hs.
  - unfold sends in Hs. apply andb_true_iff in Hs as [Hi Hw].
    apply bool_decide_eq_true in Hw as [w Hw].
    destruct (walletService_sendCrypto_success u to a c n w s Hi Hw) as (res & s' & E & Hok).
    rewrite E in Hf. exists (Return res), s'. repeat split; try done.
    by intros ? [= <-].
  - unfold walletService_sendCrypto.
    destruct (sendCrypto_failure u to a c
                (set_sendCryptoCalls (λ l, l ++ [mkSendCryptoCall u to a c n]) s))
      as (e & s' & E); [done|].
    unfold walletService_sendCrypto in Hf.
    rewrite (bind_Return _ _ _ _ _ (modify_run _ _)) in Hf |- *.
    rewrite E in Hf. exists (Throw e), s'. by repeat split.
Qed.

(** ** The refund cycle *)

Lemma executeRefund_requests id r u st id' :
  db_paymentRequest (run (executeRefund ((id, r), u)) st) !! id' =
    if decide (id' = id)
    then (if sends st (PaymentRequest.userId r)
          then PaymentRequest.set_status "refunded" else λ x, x)
           <$> db_paymentRequest st !! id'
    else db_paymentRequest st !! id'.
Proof.
  unfold run, executeRefund. rewrite tryCatch_swallow. cbv zeta. cbn [snd].
  destruct (walletService_sendCrypto_outcome (PaymentRequest.userId r)
              (PaymentRequest.recipientEmail r) (PaymentRequest.amount r)
              (PaymentRequest.currency r) (PaymentRequest.network r) st)
    as (out & s1 & Hsend & Hdb1 & Hres & Hok).
  destruct out as [res|e]; simpl in Hres; rewrite <- Hres.
  - rewrite (bind_Return _ _ _ _ _ Hsend). cbv beta. rewrite (Hok res eq_refl).
    destruct (db_paymentRequest st !! id) as [r0|] eqn:Hr0.
    + assert (Hupd : prisma.paymentRequest_update id (PaymentRequest.set_status "refunded") s1 =
        (Return (PaymentRequest.set_status "refunded" r0),
         set_db_paymentRequest <[id := PaymentRequest.set_status "refunded" r0]> s1)).
      { unfold prisma.paymentRequest_update, prisma.paymentRequest_findUnique.
        unfold_async. by rewrite Hdb1, Hr0. }
      rewrite (bind_Return _ _ _ _ _ Hupd). cbv beta.
      match goal with |- context [(?m ?st).2] =>
        assert (Hf : preserves (agreeOn db_paymentRequest) m);
        [|rewrite (Hf st)] end.
      { unfold updateNotionRefund, updateNotionIncomingPayment, joinedWallet,
          prisma.transaction_create. frames. }
      simpl. rewrite Hdb1. destruct (decide (id' = id)) as [->|Hne].
      * by rewrite lookup_insert_eq, Hr0.
      * by rewrite lookup_insert_ne.
    + assert (Hupd : prisma.paymentRequest_update id (PaymentRequest.set_status "refunded") s1 =
        (Throw "Record to update not found.", s1)).
      { unfold prisma.paymentRequest_update, prisma.paymentRequest_findUnique.
        unfold_async. by rewrite Hdb1, Hr0. }
      rewrite (bind_Throw _ _ _ _ _ Hupd). simpl. rewrite Hdb1.
      destruct (decide (id' = id)) as [->|Hne]; [by rewrite Hr0|done].
  - rewrite (bind_Throw _ _ _ _ _ Hsend). simpl. rewrite Hdb1.
    destruct (decide (id' = id)); [|done]. by destruct (db_paymentRequest st !! id').
Qed.

(** X1. The refund cycle changes the stored requests as [refundStep] says: a
    request is marked [refunded] exactly when it is a paid [ask_and_refund]
    request whose refund date has come and its owner can send (the wallet
    service is initialised and the owner has a wallet); every other request,
    and a due request whose send fails, is stored as it was. *)
Theorem refund_cycle_marks_exactly_the_sent s :
  db_paymentRequest (run processScheduledRefunds s) = refundStep s <$> db_paymentRequest s.
Proof.
  destruct (processScheduledRefunds_run s) as [k ->].
  set (g := λ e : PaymentRequest.row * option User.t,
         if sends s (PaymentRequest.userId e.1.2)
         then PaymentRequest.set_status "refunded" else λ x, x).
  set (I := λ st : State, initialized st = initialized s ∧ db_user st = db_user s).
  assert (Hstep : ∀ e st, I st →
    (executeRefund e st).1 = Return tt ∧ I (run (executeRefund e) st) ∧
    ∀ id, db_paymentRequest (run (executeRefund e) st) !! id =
          if decide (id = e.1.1) then g e <$> db_paymentRequest st !! id
          else db_paymentRequest st !! id).
  { intros [[id r] u] st [Hi Hu]. split; [apply executeRefund_resolves|]. split.
    - split.
      + rewrite <- Hi. apply (executeRefund_initialized (id, r, u) st).
      + rewrite <- Hu. apply (executeRefund_users (id, r, u) st).
    - intros id'. rewrite executeRefund_requests. unfold g. simpl.
      by rewrite (sends_agree s st). }
  apply map_eq. intros id. rewrite lookup_fmap.
  pose proof (forOf_findMany_rows executeRefund g I Hstep (refundDue (nextDate s))
                (db_user s) (set_time (nextDate s) k s) id) as Hx.
  unfold selected in Hx. simpl in Hx. etrans; [apply Hx; done|].
  destruct (db_paymentRequest s !! id) as [r|]; [|done]. simpl. f_equal.
  unfold refundStep, g. simpl.
  by destruct (refundDue (nextDate s) r), (sends s (PaymentRequest.userId r)).
Qed.

(** X2. The refund cycle calls the send primitive exactly once for each
    request its query selects, in the order of the query, with the request's
    [recipientEmail] as destination; it makes no other send. *)
Theorem refund_cycle_sends_once_per_due_request s :
  sendCryptoCalls (run processScheduledRefunds s) =
    sendCryptoCalls s ++ (refundCall <$> (selected (refundDue (nextDate s)) s).*2).
Proof.
  destruct (processScheduledRefunds_run s) as [k ->].
  rewrite forOf_executeRefund_calls, findMany_keys. done.
Qed.

(** ** The activation cycle *)

Lemma activatePaymentRequest_requests id r st id' :
  db_paymentRequest (run (activatePaymentRequest (id, r)) st) !! id' =
    if decide (id' = id)
    then PaymentRequest.set_status "processing" <$> db_paymentRequest st !! id'
    else db_paymentRequest st !! id'.
Proof.
  unfold run, activatePaymentRequest. rewrite tryCatch_swallow. cbn [fst snd].
  destruct (db_paymentRequest st !! id) as [r0|] eqn:Hr0.
  - assert (Hupd : prisma.paymentRequest_update id (PaymentRequest.set_status "processing") st =
      (Return (PaymentRequest.set_status "processing" r0),
       set_db_paymentRequest <[id := PaymentRequest.set_status "processing" r0]> st)).
    { unfold prisma.paymentRequest_update, prisma.paymentRequest_findUnique.
      unfold_async. by rewrite Hr0. }
    rewrite (bind_Return _ _ _ _ _ Hupd). cbv beta.
    match goal with |- context [(?m ?st).2] =>
      assert (Hf : preserves (agreeOn db_paymentRequest) m);
      [|rewrite (Hf st)] end.
    { unfold updateNotionIncomingPayment. frames. }
    simpl. destruct (decide (id' = id)) as [->|Hne].
    + by rewrite lookup_insert_eq, Hr0.
    + by rewrite lookup_insert_ne.
  - assert (Hupd : prisma.paymentRequest_update id (PaymentRequest.set_status "processing") st =
      (Throw "Record to update not found.", st)).
    { unfold prisma.paymentRequest_update, prisma.paymentRequest_findUnique.
      unfold_async. by rewrite Hr0. }
    rewrite (bind_Throw _ _ _ _ _ Hupd). simpl.
    destruct (decide (id' = id)) as [->|Hne]; [by rewrite Hr0|done].
Qed.

Lemma processScheduledRequests_run s :
  ∃ k, run processScheduledRequests s =
    run (forOf
           ((λ row : PaymentRequest.row,
               (row, db_user s !! PaymentRequest.userId row.2))
              <$> selected (activationDue (nextDate s)) s)
           (λ entry, activatePaymentRequest entry.1))
        (set_time (nextDate s) k s).
Proof.
  destruct (newDate_spec s) as (t & k & Hd & _ & Ht). exists k.
  unfold run, processScheduledRequests. rewrite tryCatch_swallow.
  rewrite (bind_Return _ _ _ _ _ Hd). cbv beta.
  rewrite (bind_Return _ _ _ _ _ (findMany_spec _ _)). by subst t.
Qed.

(** X3. The activation cycle changes the stored requests as [activationStep]
    says: a request is moved to [processing] exactly when its schedule type
    and its status are both [scheduled] and its scheduled date is at or before
    the cycle's clock reading; every other request is stored as it was. The
    cycle reads and writes nothing else: the routes, the ledger, the
    outgoing payments and the users are as before, and no send is made. *)
Theorem activation_cycle_moves_exactly_the_due s :
  let s' := run processScheduledRequests s in
  db_paymentRequest s' = activationStep s <$> db_paymentRequest s ∧
  paymentRoutes s' = paymentRoutes s ∧
  db_transaction s' = db_transaction s ∧
  db_outgoingPayment s' = db_outgoingPayment s ∧
  db_user s' = db_user s ∧
  sendCryptoCalls s' = sendCryptoCalls s.
Proof.
  cbv zeta. split.
  - destruct (processScheduledRequests_run s) as [k ->].
    set (f := λ entry : PaymentRequest.row * option User.t, activatePaymentRequest entry.1).
    set (g := λ (_ : PaymentRequest.row * option User.t),
                PaymentRequest.set_status "processing").
    assert (Hstep : ∀ e st, True →
      (f e st).1 = Return tt ∧ True ∧
      ∀ id, db_paymentRequest (run (f e) st) !! id =
            if decide (id = e.1.1) then g e <$> db_paymentRequest st !! id
            else db_paymentRequest st !! id).
    { intros [[id r] u] st _. split; [|split; [done|]].
      - unfold f, activatePaymentRequest. by rewrite tryCatch_swallow.
      - intros id'. apply activatePaymentRequest_requests. }
    apply map_eq. intros id. rewrite lookup_fmap.
    pose proof (forOf_findMany_rows f g (λ _, True) Hstep (activationDue (nextDate s))
                  (db_user s) (set_time (nextDate s) k s) id I) as Hx.
    etrans; [exact Hx|]. simpl.
    destruct (db_paymentRequest s !! id) as [r|]; [|done]. simpl. f_equal.
  - repeat split; by apply (processScheduledRequests_frame _).
Qed.

(** ** The payment cycle *)

Lemma walletService_sendCrypto_call u to a c n s :
  sendCryptoCalls (walletService_sendCrypto u to a c n s).2 =
    sendCryptoCalls s ++ [mkSendCryptoCall u to a c n].
Proof.
  unfold walletService_sendCrypto.
  rewrite (bind_Return _ _ _ _ _ (modify_run _ _)).
  by rewrite (sendCrypto_frame sendCryptoCalls u to a c (λ _ _, eq_refl) _).
Qed.

Lemma executeOutgoingPayment_frame {B} (f : State → B) `{!Stored f} entry :
  (∀ g s, f (set_db_transaction g s) = f s) →
  (∀ g s, f (set_sendCryptoCalls g s) = f s) →
  (∀ g s, f (set_notionCalls g s) = f s) →
  (∀ g s, f (set_db_outgoingPayment g s) = f s) →
  preserves (agreeOn f) (executeOutgoingPayment entry).
Proof.
  intros H1 H2 H3 H4.
  unfold executeOutgoingPayment, updateNotionOutgoingPayment, joinedWallet,
    prisma.transaction_create, prisma.outgoingPayment_update.
  frames.
  all: try (apply walletService_sendCrypto_frame; [apply _|done..]).
  all: apply preserves_modify; intros ?; first [apply H1 | apply H2 | apply H3 | apply H4].
Qed.

Lemma outgoingPayment_update_run j data p0 s :
  db_outgoingPayment s !! j = Some p0 →
  prisma.outgoingPayment_update j data s =
    (Return tt, set_db_outgoingPayment <[j := data p0]> s).
Proof. intros H. unfold prisma.outgoingPayment_update. unfold_async. by rewrite H. Qed.

Lemma executed_after_completed sent t t' p :
  executed sent t
    (OutgoingPayment.set_executed "completed" None t' (OutgoingPayment.set_status "processing" p))
  = executed sent t p.
Proof. by destruct sent, p. Qed.

Lemma executed_after_processing sent t p :
  executed sent t (OutgoingPayment.set_status "processing" p) = executed sent t p.
Proof. by destruct sent, p. Qed.

(** One payment: the call is made, and the row ends [completed] or
    [failed]. *)
Lemma executeOutgoingPayment_spec j p u p0 st :
  db_outgoingPayment st !! j = Some p0 →
  ∃ t,
    (executeOutgoingPayment ((j, p), u) st).1 = Return tt ∧
    db_outgoingPayment (run (executeOutgoingPayment ((j, p), u)) st) =
      <[j := executed (sends st (OutgoingPayment.userId p) && bool_decide (is_Some u)) t p0]>
        (db_outgoingPayment st) ∧
    sendCryptoCalls (run (executeOutgoingPayment ((j, p), u)) st) =
      sendCryptoCalls st ++ [paymentCall p].
Proof.
  intros Hp0. unfold run, executeOutgoingPayment. cbv beta iota zeta.
  match goal with |- context [tryCatch ?b ?h] => set (body := b); set (handler := h) end.
  pose proof (lookup_lt_Some _ _ _ Hp0) as Hlen.
  assert (Hbody : ∃ c st' x,
    body st = (c, st') ∧
    db_outgoingPayment st' = <[j := x]> (db_outgoingPayment st) ∧
    sendCryptoCalls st' = sendCryptoCalls st ++ [paymentCall p] ∧
    match c with
    | Return _ =>
        sends st (OutgoingPayment.userId p) && bool_decide (is_Some u) = true ∧
        ∃ t, x = executed true t p0
    | Throw _ =>
        sends st (OutgoingPayment.userId p) && bool_decide (is_Some u) = false ∧
        ∀ t, OutgoingPayment.set_failed "failed" t x = executed false t p0
    end).
  { unfold body.
    rewrite (bind_Return _ _ _ _ _ (outgoingPayment_update_run j _ p0 st Hp0)).
    set (st1 := set_db_outgoingPayment _ st).
    pose proof (walletService_sendCrypto_call (OutgoingPayment.userId p)
                  (Some (OutgoingPayment.recipientAddress p)) (OutgoingPayment.amount p)
                  (OutgoingPayment.currency p) (OutgoingPayment.network p) st1) as Hcall.
    pose proof (walletService_sendCrypto_frame db_outgoingPayment (OutgoingPayment.userId p)
                  (Some (OutgoingPayment.recipientAddress p)) (OutgoingPayment.amount p)
                  (OutgoingPayment.currency p) (OutgoingPayment.network p)
                  (λ _ _, eq_refl) (λ _ _, eq_refl) st1) as Hout.
    destruct (walletService_sendCrypto_outcome (OutgoingPayment.userId p)
                (Some (OutgoingPayment.recipientAddress p)) (OutgoingPayment.amount p)
                (OutgoingPayment.currency p) (OutgoingPayment.network p) st1)
      as (out & st2 & Hsend & _ & Hres & Hok).
    rewrite Hsend in Hcall, Hout. unfold agreeOn in Hout. simpl in Hcall, Hout.
    change (sends st1 (OutgoingPayment.userId p)) with (sends st (OutgoingPayment.userId p))
      in Hres.
    assert (Hrow2 : db_outgoingPayment st2 !! j =
                    Some (OutgoingPayment.set_status "processing" p0)).
    { rewrite Hout. by rewrite list_lookup_insert_eq. }
    destruct out as [res|e]; simpl in Hres; rewrite <- Hres.
    - rewrite (bind_Return _ _ _ _ _ Hsend). cbv beta. rewrite (Hok res eq_refl).
      destruct (newDate_spec st2) as (t1 & k1 & Hd1 & _).
      rewrite (bind_Return _ _ _ _ _ Hd1). cbv beta.
      rewrite (bind_Return _ _ _ _ _
                 (outgoingPayment_update_run j _ (OutgoingPayment.set_status "processing" p0)
                    (set_time t1 k1 st2) Hrow2)).
      set (st4 := set_db_outgoingPayment _ (set_time t1 k1 st2)).
      assert (Hdb4 : db_outgoingPayment st4 =
                <[j := executed true t1 p0]> (db_outgoingPayment st)).
      { unfold st4. simpl. by rewrite Hout, list_insert_insert_eq. }
      destruct u as [usr|].
      + rewrite (bind_Return (joinedWallet (Some usr)) _ st4 (User.walletAddress usr) st4 eq_refl).
        cbv beta.
        destruct (newDate_spec st4) as (t2 & k2 & Hd2 & _).
        rewrite (bind_Return _ _ _ _ _ Hd2). cbv beta.
        match goal with |- context [(prisma.transaction_create ?d ≫= ?k) ?s] =>
          rewrite (bind_Return (prisma.transaction_create d) k s
                     (length (db_transaction s))
                     (set_db_transaction (λ l, l ++ [d]) s) eq_refl) end.
        cbv beta. unfold updateNotionOutgoingPayment. rewrite tryCatch_swallow.
        match goal with |- context [(?m ?s).2] =>
          assert (Hf1 : preserves (agreeOn db_outgoingPayment) m);
          [|assert (Hf2 : preserves (agreeOn sendCryptoCalls) m);
            [|pose proof (Hf1 s) as Hg1; pose proof (Hf2 s) as Hg2] ] end.
        { frames. }
        { frames. }
        unfold agreeOn in Hg1, Hg2.
        eexists _, _, _. split; [reflexivity|].
        split; [etrans; [exact Hg1|exact Hdb4]|].
        split; [etrans; [exact Hg2|exact Hcall]|]. split; [done|]. by exists t1.
      + eexists _, _, _. split; [reflexivity|]. split; [exact Hdb4|].
        split; [exact Hcall|]. split; [by rewrite andb_false_r|].
        intros t. by destruct p0.
    - rewrite (bind_Throw _ _ _ _ _ Hsend).
      eexists _, _, _. split; [reflexivity|]. split; [exact Hout|].
      split; [exact Hcall|]. split; [done|]. intros t. by destruct p0. }
  destruct Hbody as (c & st' & x & Hb & Hdb & Hcalls & Hc).
  unfold tryCatch. rewrite Hb. destruct c as [[]|e].
  - destruct Hc as (-> & t & ->). exists t. simpl. by rewrite Hdb, Hcalls.
  - destruct Hc as (-> & Hx). unfold handler.
    destruct (newDate_spec st') as (t & k & Hd & _). exists t.
    rewrite (bind_Return _ _ _ _ _ Hd). cbv beta.
    assert (Hrow : db_outgoingPayment (set_time t k st') !! j = Some x).
    { simpl. rewrite Hdb. by rewrite list_lookup_insert_eq. }
    rewrite (outgoingPayment_update_run j _ x _ Hrow). simpl.
    rewrite Hdb, Hcalls, list_insert_insert_eq, Hx. done.
Qed.

Lemma forOf_executeOutgoingPayment entries st :
  NoDup entries.*1.*1 →
  (∀ e, e ∈ entries → is_Some (db_outgoingPayment st !! e.1.1)) →
  let st' := run (forOf entries executeOutgoingPayment) st in
  length (db_outgoingPayment st') = length (db_outgoingPayment st) ∧
  sendCryptoCalls st' = sendCryptoCalls st ++ (paymentCall <$> entries.*1.*2) ∧
  (∀ j, j ∉ entries.*1.*1 → db_outgoingPayment st' !! j = db_outgoingPayment st !! j) ∧
  (∀ j p u p0, ((j, p), u) ∈ entries → db_outgoingPayment st !! j = Some p0 →
     ∃ t, db_outgoingPayment st' !! j =
          Some (executed (sends st (OutgoingPayment.userId p) && bool_decide (is_Some u)) t p0)).
Proof.
  revert st. induction entries as [|[[j p] u] entries IH]; intros st Hnd Hex; cbv zeta.
  - simpl. rewrite app_nil_r. repeat split; try done. intros ? ? ? ? Hin. by apply elem_of_nil in Hin.
  - rewrite !fmap_cons in Hnd. apply NoDup_cons in Hnd as [Hfresh Hnd]. simpl in Hfresh.
    destruct (Hex ((j, p), u)) as [p0 Hp0]; [left|]. simpl in Hp0.
    destruct (executeOutgoingPayment_spec j p u p0 st Hp0) as (t & Hres & Hdb & Hcalls).
    pose proof (executeOutgoingPayment_frame db_user ((j, p), u)
                  (λ _ _, eq_refl) (λ _ _, eq_refl) (λ _ _, eq_refl) (λ _ _, eq_refl) st) as Hu.
    pose proof (executeOutgoingPayment_frame initialized ((j, p), u)
                  (λ _ _, eq_refl) (λ _ _, eq_refl) (λ _ _, eq_refl) (λ _ _, eq_refl) st) as Hi.
    unfold agreeOn, run in *.
    destruct (executeOutgoingPayment ((j, p), u) st) as [c st1] eqn:E.
    simpl in Hres, Hdb, Hcalls, Hu, Hi. subst c.
    cbn [forOf]. rewrite (bind_Return _ _ _ _ _ E).
    destruct (IH st1 Hnd) as (Hlen & Hcalls' & Hother & Hentry).
    { intros e He. rewrite Hdb. apply lookup_lt_is_Some. rewrite length_insert.
      apply lookup_lt_is_Some. apply Hex. by right. }
    split; [by rewrite Hlen, Hdb, length_insert|].
    split; [rewrite Hcalls', Hcalls, <- app_assoc; done|].
    split.
    + intros j' Hj'. simpl in Hj'. apply not_elem_of_cons in Hj' as [Hne Hj'].
      rewrite Hother by done. rewrite Hdb. by rewrite list_lookup_insert_ne.
    + intros j' p' u' p0' Hin Hp0'. apply elem_of_cons in Hin as [[= -> -> ->]|Hin].
      * exists t. rewrite Hother by done. rewrite Hdb, list_lookup_insert_eq.
        -- congruence.
        -- by apply lookup_lt_Some in Hp0.
      * assert (Hne : j ≠ j').
        { intros <-. apply Hfresh.
          apply (list_elem_of_fmap_2 fst), (list_elem_of_fmap_2 fst) in Hin. done. }
        destruct (Hentry j' p' u' p0' Hin) as (t' & Ht').
        { rewrite Hdb. by rewrite list_lookup_insert_ne. }
        exists t'. rewrite Ht'. by rewrite (sends_agree st st1).
Qed.

Lemma processScheduledPayments_run s :
  ∃ k, run processScheduledPayments s =
    run (forOf
           ((λ row : nat * OutgoingPayment.t,
               (row, db_user s !! OutgoingPayment.userId row.2))
              <$> selectedPayments (paymentDue (nextDate s)) s)
           executeOutgoingPayment)
        (set_time (nextDate s) k s).
Proof.
  destruct (newDate_spec s) as (t & k & Hd & _ & Ht). exists k.
  unfold run, processScheduledPayments. rewrite tryCatch_swallow.
  rewrite (bind_Return _ _ _ _ _ Hd). cbv beta. subst t. reflexivity.
Qed.

Lemma selectedPayments_keys (where_ : OutgoingPayment.t → bool) (users : gmap string User.t) s :
  ((λ row : nat * OutgoingPayment.t, (row, users !! OutgoingPayment.userId row.2))
     <$> selectedPayments where_ s).*1 = selectedPayments where_ s.
Proof.
  induction (selectedPayments where_ s) as [|x l IH]; [done|].
  rewrite !fmap_cons. simpl. f_equal. exact IH.
Qed.

Lemma selectedPayments_elem where_ s j p :
  (j, p) ∈ selectedPayments where_ s ↔ db_outgoingPayment s !! j = Some p ∧ where_ p = true.
Proof.
  unfold selectedPayments. rewrite list_elem_of_filter. simpl.
  rewrite elem_of_lookup_imap. split.
  - intros [Hw (i & x & [= -> ->] & Hx)]. done.
  - intros [Hx Hw]. split; [done|]. by exists j, p.
Qed.

Lemma selectedPayments_NoDup where_ s : NoDup (selectedPayments where_ s).*1.
Proof.
  unfold selectedPayments.
  eapply sublist_NoDup; [|apply fmap_sublist, sublist_filter].
  rewrite fmap_imap. unfold compose. simpl.
  rewrite (imap_seq_0 (db_outgoingPayment s) (λ i, i)), list_fmap_id. apply NoDup_seq.
Qed.

(** X4. The payment cycle, row by row. Every outgoing payment whose status is
    [scheduled] and whose schedule date is at or before the cycle's clock
    reading ends [completed] when its owner can send and [failed] when not,
    with an execution time, and is never left [scheduled] or [processing];
    its transaction hash column is not written. Every other row, and so
    every [completed], [failed] or [processing] one, is stored as it was, and
    no row is added or removed. *)
Theorem payment_cycle_settles_every_due_payment s :
  Forall2 (paymentStep s) (db_outgoingPayment s)
    (db_outgoingPayment (run processScheduledPayments s)).
Proof.
  destruct (processScheduledPayments_run s) as [k ->].
  set (entries := _ <$> selectedPayments _ _).
  set (s0 := set_time _ _ _).
  assert (Hin : ∀ j p u, ((j, p), u) ∈ entries ↔
            db_outgoingPayment s !! j = Some p ∧ paymentDue (nextDate s) p = true ∧
            u = db_user s !! OutgoingPayment.userId p).
  { intros j p u. unfold entries. rewrite list_elem_of_fmap. split.
    - intros ([j' p'] & Heq & Hsel). injection Heq as -> -> ->.
      apply selectedPayments_elem in Hsel as [Hp Hdue]. done.
    - intros (Hp & Hdue & ->). exists (j, p). split; [done|]. by apply selectedPayments_elem. }
  destruct (forOf_executeOutgoingPayment entries s0) as (Hlen & _ & Hother & Hentry).
  { unfold entries. rewrite selectedPayments_keys. apply selectedPayments_NoDup. }
  { intros [[j p] u] He. apply Hin in He as (Hp & _). simpl. by eexists. }
  apply Forall2_same_length_lookup. split; [done|].
  intros j p p' Hp Hp'. unfold paymentStep.
  destruct (paymentDue (nextDate s) p) eqn:Hdue.
  - destruct (Hentry j p (db_user s !! OutgoingPayment.userId p) p) as (t & Ht).
    { by apply Hin. } { done. }
    exists t. rewrite Hp' in Ht. injection Ht as ->. f_equal.
    change (sends s0 (OutgoingPayment.userId p)) with (sends s (OutgoingPayment.userId p)).
    destruct (sends s (OutgoingPayment.userId p)) eqn:Hs; [|done]. simpl.
    apply bool_decide_eq_true. unfold sends in Hs. apply andb_true_iff in Hs as [_ Hw].
    apply bool_decide_eq_true in Hw as [w Hw]. unfold walletOf in Hw.
    destruct (db_user s !! OutgoingPayment.userId p); [by eexists|done].
  - rewrite Hother in Hp'.
    + change (db_outgoingPayment s0) with (db_outgoingPayment s) in Hp'. congruence.
    + unfold entries. rewrite selectedPayments_keys. intros Hj.
      apply list_elem_of_fmap in Hj as ([j' q] & -> & Hsel).
      apply selectedPayments_elem in Hsel as [Hq Hw]. simpl in *. congruence.
Qed.

(** X5. The payment cycle calls the send primitive exactly once for each
    payment its query selects, in the order of the query, with the payment's
    [recipientAddress] as destination; it makes no other send. *)
Theorem payment_cycle_sends_once_per_due_payment s :
  sendCryptoCalls (run processScheduledPayments s) =
    sendCryptoCalls s ++ (paymentCall <$> (selectedPayments (paymentDue (nextDate s)) s).*2).
Proof.
  destruct (processScheduledPayments_run s) as [k ->].
  set (entries := _ <$> selectedPayments _ _).
  destruct (forOf_executeOutgoingPayment entries (set_time (nextDate s) k s))
    as (_ & Hcalls & _).
  { unfold entries. rewrite selectedPayments_keys. apply selectedPayments_NoDup. }
  { intros [[j p] u] He. unfold entries in He. apply list_elem_of_fmap in He as ([j' p'] & [= -> -> ->] & Hsel).
    apply selectedPayments_elem in Hsel as [Hp _]. simpl. by eexists. }
  rewrite Hcalls. unfold entries. by rewrite selectedPayments_keys.
Qed.

(** ** Histories: what no operation undoes *)

(** Unfolds the computations down to the calls of the Prisma client. *)
Ltac unfold_services :=
  unfold onTimeout, createPaymentRequest, handlePaymentSuccess, cancelPaymentRequest,
    constructor, loadActivePaymentRoutes, loadRoute, scheduleRefund, updateNotionRecord,
    processScheduledPayments, processScheduledRefunds, processScheduledRequests,
    executeOutgoingPayment, executeRefund, activatePaymentRequest,
    updateNotionOutgoingPayment, updateNotionRefund, updateNotionIncomingPayment,
    joinedWallet.

Ltac unfold_prisma :=
  unfold walletService_sendCrypto, WalletService.sendCrypto, WalletService.getWallet,
    WalletService.sendBlockchainTransaction,
    prisma.paymentRequest_create, prisma.paymentRequest_update,
    prisma.paymentRequest_findUnique, prisma.paymentRequest_findMany,
    prisma.outgoingPayment_create, prisma.outgoingPayment_update,
    prisma.outgoingPayment_findMany, prisma.transaction_create,
    prisma.transaction_update, prisma.user_findUnique.

(** *** The ledger is append-only *)

#[export] Instance ledgerGrows_preorder : PreOrder ledgerGrows.
Proof. unfold ledgerGrows. split; [by intros s|]. intros s1 s2 s3 H1 H2. by etrans. Qed.

Lemma ledgerGrows_of_agree {A} (m : Async A) :
  preserves (agreeOn db_transaction) m → preserves ledgerGrows m.
Proof. intros H s. unfold ledgerGrows. by rewrite (H s). Qed.

Lemma transaction_create_ledgerGrows d : preserves ledgerGrows (prisma.transaction_create d).
Proof. intros s. unfold ledgerGrows. simpl. by apply prefix_app_r. Qed.

Lemma sendCrypto_ledgerGrows u to a c : preserves ledgerGrows (WalletService.sendCrypto u to a c).
Proof.
  intros s. unfold ledgerGrows.
  unfold WalletService.sendCrypto, WalletService.getWallet,
    WalletService.sendBlockchainTransaction, prisma.transaction_create,
    prisma.transaction_update, prisma.user_findUnique.
  unfold_async. destruct (initialized s); simpl; [|done].
  destruct (db_user s !! u) as [usr|]; simpl; [|done].
  destruct (User.walletAddress usr) as [w|]; simpl; [|done].
  case_bool_decide; simpl; [done|].
  match goal with |- context [random36 ?x] =>
    destruct (random36_spec x) as (d & k & ->) end.
  simpl. rewrite lookup_snoc. simpl.
  rewrite insert_app_r_alt by done. by apply prefix_app_r.
Qed.

Lemma walletService_sendCrypto_ledgerGrows u to a c n :
  preserves ledgerGrows (walletService_sendCrypto u to a c n).
Proof.
  unfold walletService_sendCrypto.
  apply preserves_bind; [apply _| |intros _; apply sendCrypto_ledgerGrows].
  apply preserves_modify. intros s. by unfold ledgerGrows.
Qed.

Create HintDb ledger discriminated.
#[export] Hint Resolve transaction_create_ledgerGrows walletService_sendCrypto_ledgerGrows
  : ledger.

Ltac ledger_walk :=
  repeat first
    [ solve [auto 1 with ledger nocore]
    | frame_step
    | solve [apply ledgerGrows_of_agree; unfold_prisma; frame] ].

Lemma exec_ledgerGrows op s : ledgerGrows s (exec op s).
Proof.
  destruct op as [a|pid proof|pid|pid x mc hs| | | | |uid u|ok|elapsed|elapsed digits];
    unfold exec; try by unfold ledgerGrows.
  all: match goal with |- ledgerGrows ?s (run ?m ?s) =>
         revert s; change (preserves ledgerGrows m) end.
  all: unfold_services; ledger_walk.
Qed.

(** *** Requests are never deleted and keep their terms *)

#[export] Instance termsKept_preorder : PreOrder termsKept.
Proof.
  split.
  - intros s id r Hr. by exists r.
  - intros s1 s2 s3 H12 H23 id r Hr.
    destruct (H12 id r Hr) as (r2 & Hr2 & E2).
    destruct (H23 id r2 Hr2) as (r3 & Hr3 & E3).
    exists r3. split; [done|congruence].
Qed.

Lemma termsKept_of_agree {A} (m : Async A) :
  preserves (agreeOn db_paymentRequest) m → preserves termsKept m.
Proof. intros H s id r Hr. exists r. by rewrite (H s). Qed.

Lemma update_termsKept id data :
  (∀ r, terms (data r) = terms r) →
  preserves termsKept (prisma.paymentRequest_update id data).
Proof.
  intros Hdata s. unfold prisma.paymentRequest_update, prisma.paymentRequest_findUnique.
  unfold_async. destruct (db_paymentRequest s !! id) as [r0|] eqn:Hr0; simpl; [|reflexivity].
  intros id' r Hr. simpl. destruct (decide (id' = id)) as [->|Hne].
  - rewrite lookup_insert_eq. exists (data r0). split; [done|]. rewrite Hdata. congruence.
  - rewrite lookup_insert_ne by done. by exists r.
Qed.

Lemma create_termsKept id data : preserves termsKept (prisma.paymentRequest_create id data).
Proof.
  intros s. unfold prisma.paymentRequest_create, prisma.paymentRequest_findUnique.
  unfold_async. destruct (db_paymentRequest s !! id) as [r0|] eqn:Hr0; simpl; [reflexivity|].
  intros id' r Hr. simpl. exists r. split; [|done].
  rewrite lookup_insert_ne; [done|]. intros ->. congruence.
Qed.

Create HintDb terms discriminated.
#[export] Hint Resolve create_termsKept : terms.
#[export] Hint Extern 1 (preserves termsKept (prisma.paymentRequest_update _ _)) =>
  apply update_termsKept; intros []; reflexivity : terms.

Ltac terms_walk :=
  repeat first
    [ solve [auto 1 with terms nocore]
    | frame_step
    | solve [apply termsKept_of_agree; unfold_prisma; frame] ].

Lemma exec_termsKept op s : termsKept s (exec op s).
Proof.
  destruct op as [a|pid proof|pid|pid x mc hs| | | | |uid u|ok|elapsed|elapsed digits];
    unfold exec; try (by intros id r Hr; exists r).
  all: match goal with |- termsKept ?s (run ?m ?s) =>
         revert s; change (preserves termsKept m) end.
  all: unfold_services; terms_walk.
Qed.

(** *** Executed outgoing payments are final *)

#[export] Instance executedKept_preorder : PreOrder executedKept.
Proof.
  split.
  - by intros s j p Hp _.
  - intros s1 s2 s3 H12 H23 j p Hp Hst. apply H23; [|done]. by apply H12.
Qed.

Lemma executedKept_of_agree {A} (m : Async A) :
  preserves (agreeOn db_outgoingPayment) m → preserves executedKept m.
Proof. intros H s j p Hp _. by rewrite (H s). Qed.

Lemma outgoingPayment_create_executedKept d :
  preserves executedKept (prisma.outgoingPayment_create d).
Proof. intros s j p Hp _. simpl. by apply lookup_app_l_Some. Qed.

Lemma processScheduledPayments_executedKept : preserves executedKept processScheduledPayments.
Proof.
  intros s j p Hp Hst. change ((processScheduledPayments s).2) with (run processScheduledPayments s).
  destruct (processScheduledPayments_run s) as [k ->].
  set (entries := _ <$> selectedPayments _ _).
  destruct (forOf_executeOutgoingPayment entries (set_time (nextDate s) k s))
    as (_ & _ & Hother & _).
  { unfold entries. rewrite selectedPayments_keys. apply selectedPayments_NoDup. }
  { intros [[j' p'] u] He. unfold entries in He.
    apply list_elem_of_fmap in He as ([j'' p''] & [= -> -> ->] & Hsel).
    apply selectedPayments_elem in Hsel as [Hp' _]. simpl. by eexists. }
  rewrite Hother; [done|].
  unfold entries. rewrite selectedPayments_keys. intros Hj.
  apply list_elem_of_fmap in Hj as ([j' q] & -> & Hsel).
  apply selectedPayments_elem in Hsel as [Hq Hw]. simpl in *.
  unfold paymentDue in Hw. apply andb_true_iff in Hw as [Hw _].
  apply bool_decide_eq_true in Hw. congruence.
Qed.

Create HintDb executed discriminated.
#[export] Hint Resolve outgoingPayment_create_executedKept : executed.

Ltac executed_walk :=
  repeat first
    [ solve [auto 1 with executed nocore]
    | frame_step
    | solve [apply executedKept_of_agree; unfold_prisma; frame] ].

Lemma exec_executedKept op s : executedKept s (exec op s).
Proof.
  destruct op as [a|pid proof|pid|pid x mc hs| | | | |uid u|ok|elapsed|elapsed digits];
    unfold exec; try (by intros j p Hp _).
  6: apply processScheduledPayments_executedKept.
  all: match goal with |- executedKept ?s (run ?m ?s) =>
         revert s; change (preserves executedKept m) end.
  all: unfold_services; executed_walk.
Qed.

(** X6. The ledger is append-only: whatever sequence of operations is run
    (creation, settlement, cancellation, the timer, a restart, the three
    cycles of the scheduler), every transaction record that was stored is
    still stored afterwards, at the same place and with the same contents. *)
Theorem ledger_is_append_only ops s :
  db_transaction s `prefix_of` db_transaction (execAll ops s).
Proof.
  unfold execAll. revert s. induction ops as [|op ops IH]; intros s; simpl; [done|].
  etrans; [apply exec_ledgerGrows|apply IH].
Qed.

(** X7. No operation deletes a payment request or changes its terms: after
    any sequence of operations a stored request is still stored under its id,
    with the same owner, amount, currency, network, recipient, description,
    kind, schedule, link and creation time. Only its status, payment hash,
    paid timestamp and refund date can differ. *)
Theorem request_terms_are_immutable ops s id r :
  db_paymentRequest s !! id = Some r →
  ∃ r', db_paymentRequest (execAll ops s) !! id = Some r' ∧ terms r' = terms r.
Proof.
  unfold execAll. revert s r. induction ops as [|op ops IH]; intros s r Hr; simpl.
  - by exists r.
  - destruct (exec_termsKept op s id r Hr) as (r1 & Hr1 & E1).
    destruct (IH _ _ Hr1) as (r' & Hr' & E'). exists r'. split; [done|congruence].
Qed.

(** The theorem of X7 applied to a paid deposit that is then refunded and
    cancelled. *)
Lemma request_terms_are_immutable_witness :
  ∃ r', db_paymentRequest
          (execAll [Wait 2592000000; RefundCycle; Cancel pid; Restart] (paid deposit)) !! pid
        = Some r' ∧ terms r' = terms paidDeposit.
Proof.
  apply (request_terms_are_immutable [Wait 2592000000; RefundCycle; Cancel pid; Restart]
           (paid deposit) pid paidDeposit).
  vm_compute. reflexivity.
Defined.

(** X8. With the operations run one after another, an outgoing payment row
    that is no longer [scheduled] ([completed], [failed], or left
    [processing]) is final: no sequence of operations writes the row again,
    and the query of the payment cycle never selects it again, whatever the
    clock reads, so that cycle makes no further send for it. This is about
    the rows of the OutgoingPayment table only. *)
Theorem executed_payment_is_final ops s j p :
  db_outgoingPayment s !! j = Some p →
  OutgoingPayment.status p ≠ "scheduled" →
  db_outgoingPayment (execAll ops s) !! j = Some p ∧
  ∀ now, j ∉ (selectedPayments (paymentDue now) (execAll ops s)).*1.
Proof.
  intros Hp Hst.
  assert (Hkept : db_outgoingPayment (execAll ops s) !! j = Some p).
  { unfold execAll. revert s Hp. induction ops as [|op ops IH]; intros s Hp; simpl; [done|].
    apply IH. by apply exec_executedKept. }
  split; [exact Hkept|]. intros now Hin.
  apply list_elem_of_fmap in Hin as ([j' q] & -> & Hin).
  apply selectedPayments_elem in Hin as [Hq Hdue]. simpl in Hkept.
  assert (q = p) as -> by congruence.
  unfold paymentDue in Hdue. apply andb_true_iff in Hdue as [Hdue _].
  by apply bool_decide_eq_true in Hdue.
Qed.

(** The theorem of X8 applied to the executed refund of a deposit. *)
Lemma executed_payment_is_final_witness :
  db_outgoingPayment
    (execAll [PaymentCycle; RefundCycle; PaymentSuccess pid proof; PaymentCycle]
       Cases.executedWorld) !! 0%nat
  = Some Cases.completedRefund ∧
  ∀ now, 0%nat ∉
    (selectedPayments (paymentDue now)
       (execAll [PaymentCycle; RefundCycle; PaymentSuccess pid proof; PaymentCycle]
          Cases.executedWorld)).*1.
Proof.
  apply (executed_payment_is_final
           [PaymentCycle; RefundCycle; PaymentSuccess pid proof; PaymentCycle]
           Cases.executedWorld 0 Cases.completedRefund).
  - vm_compute. reflexivity.
  - vm_compute. intros H. discriminate H.
Defined.

(** ** Settlement of a refundable request without recipient *)

(** X9. Settling an [ask_and_refund] request that has no recipient e-mail is
    left half done. The request is stored as [payment_received] with its
    payment hash and paid timestamp and an INCOMING ledger entry is written;
    then the creation of the refund row is rejected, [handlePaymentSuccess]
    throws, no refund is scheduled, no refund date is set, and the route is
    still in the routes map, so the link stays live. *)
Theorem settlement_without_recipient_is_half_done id proof s r0 :
  db_paymentRequest s !! id = Some r0 →
  PaymentRequest.transactionType r0 = "ask_and_refund" →
  PaymentRequest.recipientEmail r0 = None →
  (∀ c, paymentRoutes s !! id = Some c → RouteConfig.userId c ≠ "") →
  ∃ s' tx,
    handlePaymentSuccess id proof s =
      (Throw "Argument `recipientAddress` must not be null.", s') ∧
    db_paymentRequest s' = <[id := settled proof (nextDate s) r0]> (db_paymentRequest s) ∧
    db_transaction s' = db_transaction s ++ [tx] ∧
    isLedgerEntryOf id tx = true ∧
    db_outgoingPayment s' = db_outgoingPayment s ∧
    paymentRoutes s' = paymentRoutes s.
Proof.
  intros Hdb Hkind Hmail Hroute.
  unfold handlePaymentSuccess, prisma.paymentRequest_findUnique,
    prisma.paymentRequest_update, prisma.transaction_create.
  unfold_async.
  destruct (newDate_spec s) as (t1 & k1 & Hd1 & _ & Ht1).
  assert (Huser : ∀ (u : option string) (st : State),
    prisma.user_findUnique u st =
      match u with
      | None => (Throw "Argument `where` needs at least one of `id` or `email` arguments", st)
      | Some i => (Return (db_user st !! i), st)
      end).
  { intros [i|] st; reflexivity. }
  assert (Hledger : ∀ toAddress t2,
    isLedgerEntryOf id (incomingEntry id proof toAddress t2 (settled proof t1 r0)) = true).
  { intros. unfold isLedgerEntryOf. simpl. by rewrite bool_decide_true. }
  destruct (paymentRoutes s !! id) as [cfg|] eqn:Hcfg; simpl.
  - rewrite Huser. unfold jsOr at 1. simpl.
    rewrite !(bool_decide_true (_ ≠ _)) by eauto. simpl.
    rewrite Hd1. simpl. rewrite Hdb. simpl.
    match goal with |- context [newDate ?x] =>
      destruct (newDate_spec x) as (t2 & k2 & -> & _ & _) end.
    simpl. rewrite Hkind. rewrite bool_decide_true by done. simpl.
    match goal with |- context [scheduleRefund (_, ?x) ?y] =>
      destruct (scheduleRefund_spec id x y) as (t3 & k3 & _ & _ & ->) end.
    simpl. rewrite Hmail. simpl.
    eexists _, _. split; [reflexivity|]. simpl. subst t1.
    split; [done|]. split; [reflexivity|]. split; [apply Hledger|done].
  - rewrite Hdb. simpl. rewrite Hd1. simpl. rewrite Hdb. simpl.
    match goal with |- context [newDate ?x] =>
      destruct (newDate_spec x) as (t2 & k2 & -> & _ & _) end.
    simpl. rewrite Hkind. rewrite bool_decide_true by done. simpl.
    match goal with |- context [scheduleRefund (_, ?x) ?y] =>
      destruct (scheduleRefund_spec id x y) as (t3 & k3 & _ & _ & ->) end.
    simpl. rewrite Hmail. simpl.
    eexists _, _. split; [reflexivity|]. simpl. subst t1.
    split; [done|]. split; [reflexivity|]. split; [apply Hledger|done].
Qed.

(** The theorem of X9 applied to a refundable request created without
    recipient e-mail. *)
Lemma settlement_without_recipient_is_half_done_witness :
  ∃ s' tx,
    handlePaymentSuccess pid proof (created anonymousDeposit) =
      (Throw "Argument `recipientAddress` must not be null.", s') ∧
    db_paymentRequest s' =
      <[pid := settled proof (nextDate (created anonymousDeposit)) Cases.openDeposit]>
        (db_paymentRequest (created anonymousDeposit)) ∧
    db_transaction s' = db_transaction (created anonymousDeposit) ++ [tx] ∧
    isLedgerEntryOf pid tx = true ∧
    db_outgoingPayment s' = db_outgoingPayment (created anonymousDeposit) ∧
    paymentRoutes s' = paymentRoutes (created anonymousDeposit).
Proof.
  apply (settlement_without_recipient_is_half_done pid proof (created anonymousDeposit)
           Cases.openDeposit).
  - vm_compute. reflexivity.
  - reflexivity.
  - reflexivity.
  - intros c Hc. vm_compute in Hc. injection Hc as <-. simpl. discriminate.
Defined.

(** ** The payment link after settlement and cancellation *)

Lemma linkGone_closed id s r :
  db_paymentRequest s !! id = Some r →
  awaitingPayment r = false →
  paymentRoutes s !! id = None →
  linkGone id s ∧ linkGone id (run constructor s).
Proof.
  intros Hr Haw Hroute. unfold linkGone. rewrite !routeLookup_spec. split.
  - by rewrite Hroute.
  - unfold run. rewrite constructor_spec. simpl.
    rewrite lookup_omap, Hr. simpl. unfold routeFor. by rewrite Haw.
Qed.

(** X10. Once a settlement or a cancellation has resolved, the payment link
    is dead for good: the route check answers 404 "Payment link not found or
    expired", and it still does after a restart, because the routes are
    rebuilt only from requests that are [processing] or [scheduled]. *)
Theorem closed_link_stays_dead id s :
  (∀ proof, resolves (handlePaymentSuccess id proof s).1 = true →
     linkGone id (run (handlePaymentSuccess id proof) s) ∧
     linkGone id (run constructor (run (handlePaymentSuccess id proof) s))) ∧
  (resolves (cancelPaymentRequest id s).1 = true →
     linkGone id (run (cancelPaymentRequest id) s) ∧
     linkGone id (run constructor (run (cancelPaymentRequest id) s))).
Proof.
  split.
  - intros proof Hres. unfold run.
    destruct (handlePaymentSuccess id proof s) as [[res|e] s'] eqn:Hout; [|done].
    apply handlePaymentSuccess_Return in Hout
      as (r0 & r' & tx & _ & Hr' & _ & Hst & _ & _ & _ & Hroute & _).
    apply (linkGone_closed id s' r'); [done| |done].
    unfold awaitingPayment. rewrite Hst. by vm_compute.
  - intros Hres. unfold run. rewrite cancelPaymentRequest_spec in Hres |- *.
    destruct (db_paymentRequest s !! id) as [r|] eqn:Hr; [|done].
    apply (linkGone_closed id _ (PaymentRequest.set_status "cancelled" r)).
    + simpl. by rewrite lookup_insert_eq.
    + by vm_compute.
    + simpl. by rewrite lookup_delete_eq.
Qed.

(** The theorem of X10 applied to an invoice that is paid, and to one that is
    cancelled. *)
Lemma closed_link_stays_dead_witness :
  (linkGone pid (run (handlePaymentSuccess pid proof) (created invoice)) ∧
   linkGone pid (run constructor (run (handlePaymentSuccess pid proof) (created invoice)))) ∧
  (linkGone pid (run (cancelPaymentRequest pid) (created invoice)) ∧
   linkGone pid (run constructor (run (cancelPaymentRequest pid) (created invoice)))).
Proof.
  split.
  - apply (proj1 (closed_link_stays_dead pid (created invoice)) proof).
    vm_compute. reflexivity.
  - apply (proj2 (closed_link_stays_dead pid (created invoice))).
    vm_compute. reflexivity.
Defined.

(** ** The timer and the middleware callback *)

(** X11. For one inbound call the timer and the middleware callback exclude
    each other. Whichever runs first sets [middlewareCompleted]; the other one
    then sends no response, does not invoke [handlePaymentSuccess] and leaves
    the state as it is, whatever error, header or response status it sees. So
    a call is answered by at most one of them and settled at most once. *)
Theorem timer_and_callback_exclude_each_other id x s :
  (∀ c r s1 err hs code,
     onTimeout id x false false s = (Return (c, r), s1) →
     onMiddlewareNext id x err c hs code s1 = (Return (true, None), s1)) ∧
  (∀ c r s1 err hs code hs',
     onMiddlewareNext id x err false hs code s = (Return (c, r), s1) →
     onTimeout id x c hs' s1 = (Return (true, None), s1)).
Proof.
  split.
  - intros c r s1 err hs code H. rewrite onTimeout_spec in H. simpl in H.
    destruct (truthy x); by injection H as <- _ _.
  - intros c r s1 err hs code hs' H.
    assert (c = true) as ->; [|done].
    unfold onMiddlewareNext in H. unfold_async.
    destruct err as [e|]; simpl in H.
    + destruct hs; simpl in H; by injection H as <- _ _.
    + destruct (truthy x), hs; simpl in H;
        try destruct (bool_decide (code = 200%nat)); simpl in H;
        try destruct (handlePaymentSuccess id x s) as [[a|e] s']; simpl in H;
        by injection H as <- _ _.
Qed.

(** The theorem of X11 applied to a paid invoice: the timer first, and the
    callback first. *)
Lemma timer_and_callback_exclude_each_other_witness :
  onMiddlewareNext pid proof None true false 0 (paid invoice)
    = (Return (true, None), paid invoice) ∧
  onTimeout pid proof true false (paid invoice) = (Return (true, None), paid invoice).
Proof.
  split.
  - apply (proj1 (timer_and_callback_exclude_each_other pid proof (created invoice))
             true (Some (timeoutResponse pid
                     (handlePaymentSuccess pid proof (created invoice)).1))
             (paid invoice) None false 0%nat).
    vm_compute. reflexivity.
  - apply (proj2 (timer_and_callback_exclude_each_other pid proof (created invoice))
             true (Some (timeoutResponse pid
                     (handlePaymentSuccess pid proof (created invoice)).1))
             (paid invoice) None false 0%nat false).
    vm_compute. reflexivity.
Defined.

(** ** The clock *)

#[export] Instance clockGrows_preorder : PreOrder clockGrows.
Proof. unfold clockGrows. split; [intros s; lia|]. intros s1 s2 s3 H1 H2. lia. Qed.

Lemma newDate_clockGrows : preserves clockGrows newDate.
Proof.
  intros s. destruct (newDate_spec s) as (t & k & -> & Hle & _). exact Hle.
Qed.

Lemma random36_clockGrows : preserves clockGrows random36.
Proof.
  intros s. destruct (random36_spec s) as (t & k & ->). unfold clockGrows. simpl. lia.
Qed.

Lemma modify_clockGrows f : (∀ s, clock (f s) = clock s) → preserves clockGrows (modify f).
Proof. intros H s. unfold clockGrows. simpl. rewrite H. lia. Qed.

Create HintDb clock discriminated.
#[export] Hint Resolve newDate_clockGrows random36_clockGrows : clock.
#[export] Hint Extern 1 (preserves clockGrows (modify _)) =>
  apply modify_clockGrows; intros ?; reflexivity : clock.

Ltac clock_walk :=
  repeat first [ solve [auto 1 with clock nocore] | frame_step ].

Lemma processScheduledPayments_clockGrows : preserves clockGrows processScheduledPayments.
Proof. unfold_services. unfold_prisma. clock_walk. Qed.

Lemma clock_le_nextDate s : clock s ≤ nextDate s.
Proof. unfold nextDate. lia. Qed.

(** ** A refund is sent by two cycles *)

(** X12. A settled [ask_and_refund] request is refunded twice. The settlement
    stores a refund date on the request and also schedules an outgoing
    payment for the same date, recipient and amount. Once the clock has
    reached that date, the payment cycle executes that outgoing payment, and
    the refund cycle, which looks at the request only, sends the same refund
    again: each cycle makes the same call on the send primitive, to the
    request's [recipientEmail]. *)
Theorem refund_is_sent_twice id proof s0 res s1 elapsed :
  handlePaymentSuccess id proof s0 = (Return res, s1) →
  PaymentRequest.transactionType res.1.2 = "ask_and_refund" →
  addDays (LocalTZA s0) 30 (clock s1) ≤ clock s1 + Z.of_N elapsed →
  let s2 := exec (Wait elapsed) s1 in
  let s3 := exec PaymentCycle s2 in
  let s4 := exec RefundCycle s3 in
  ∃ e callsP callsR,
    PaymentRequest.recipientEmail res.1.2 = Some e ∧
    PaymentRequest.refundDate <$> db_paymentRequest s1 !! id =
      Some (Some (addDays (LocalTZA s0) 30 (clock s1))) ∧
    OutgoingPayment.scheduleDate <$> last (db_outgoingPayment s1) =
      Some (addDays (LocalTZA s0) 30 (clock s1)) ∧
    sendCryptoCalls s3 = sendCryptoCalls s1 ++ callsP ∧
    sendCryptoCalls s4 = sendCryptoCalls s3 ++ callsR ∧
    refundCall res.1.2 ∈ callsP ∧
    refundCall res.1.2 ∈ callsR.
Proof.
  intros Hout Hkind Hwait s2 s3 s4.
  apply handlePaymentSuccess_outcome in Hout as (Hres & _ & Hcases).
  destruct (db_paymentRequest s0 !! id) as [r0|] eqn:Hr0;
    [|unfold settles in Hres; by rewrite Hr0 in Hres].
  destruct Hcases as [[? _]|(t1 & t2 & toAddress & _ & _ & _ & _ & Hcases)]; [done|].
  case_bool_decide as Hk.
  2: { destruct Hcases as ([= ->] & _). simpl in Hkind. done. }
  destruct (PaymentRequest.recipientEmail r0) as [e|] eqn:He;
    [|by destruct Hcases as (? & _)].
  destruct Hcases as (t3 & _ & Hclock & [= ->] & Hdb & Hout & _). simpl in Hkind |- *.
  set (r1 := settled proof t1 r0) in *.
  subst t3. set (d := addDays (LocalTZA s0) 30 (clock s1)) in *.
  set (p := refundPayment id e d r1) in *.
  set (call := refundCall r1).
  assert (Hc2 : d ≤ clock s2).
  { unfold s2. simpl. exact Hwait. }
  assert (Hdue2 : d ≤ nextDate s2).
  { etrans; [exact Hc2|apply clock_le_nextDate]. }
  (* the payment cycle *)
  assert (HP : sendCryptoCalls s3 =
            sendCryptoCalls s1 ++
              (paymentCall <$> (selectedPayments (paymentDue (nextDate s2)) s2).*2)).
  { unfold s3, exec. destruct (processScheduledPayments_run s2) as [k ->].
    set (entries := _ <$> selectedPayments _ _).
    destruct (forOf_executeOutgoingPayment entries (set_time (nextDate s2) k s2))
      as (_ & Hcalls & _).
    { unfold entries. rewrite selectedPayments_keys. apply selectedPayments_NoDup. }
    { intros [[j q] u] Hin. unfold entries in Hin.
      apply list_elem_of_fmap in Hin as ([j' q'] & [= -> -> ->] & Hsel).
      apply selectedPayments_elem in Hsel as [Hq _]. simpl. by eexists. }
    rewrite Hcalls. unfold entries. by rewrite selectedPayments_keys. }
  assert (HinP : call ∈ paymentCall <$> (selectedPayments (paymentDue (nextDate s2)) s2).*2).
  { replace call with (paymentCall p).
    2: { unfold call, paymentCall, refundCall, p, r1. simpl. by rewrite He. }
    apply list_elem_of_fmap_2.
    apply (list_elem_of_fmap_2 snd _ (length (db_outgoingPayment s0), p)).
    apply selectedPayments_elem. split.
    - unfold s2. simpl. rewrite Hout. apply lookup_snoc.
    - unfold paymentDue. apply andb_true_iff.
      split; apply bool_decide_eq_true; [done|exact Hdue2]. }
  (* the refund cycle *)
  assert (Hdb3 : db_paymentRequest s3 = db_paymentRequest s1).
  { unfold s3, exec, run. by rewrite (processScheduledPayments_requests s2). }
  assert (Hdue3 : d ≤ nextDate s3).
  { etrans; [exact Hc2|]. etrans; [|apply clock_le_nextDate].
    apply (processScheduledPayments_clockGrows s2). }
  assert (HR : sendCryptoCalls s4 =
            sendCryptoCalls s3 ++ (refundCall <$> (selected (refundDue (nextDate s3)) s3).*2)).
  { unfold s4, exec. destruct (processScheduledRefunds_run s3) as [k ->].
    rewrite forOf_executeRefund_calls, findMany_keys. done. }
  assert (HinR : call ∈ refundCall <$> (selected (refundDue (nextDate s3)) s3).*2).
  { replace call with (refundCall (PaymentRequest.set_refundDate d r1)) by done.
    apply list_elem_of_fmap_2.
    apply (list_elem_of_fmap_2 snd _ (id, PaymentRequest.set_refundDate d r1)).
    unfold selected. apply list_elem_of_filter. split.
    - unfold refundDue. cbn [snd]. rewrite !andb_true_iff.
      split; [split|]; [by apply bool_decide_eq_true..|].
      unfold lte. simpl. by apply bool_decide_eq_true.
    - apply elem_of_map_to_list. rewrite Hdb3, Hdb. apply lookup_insert_eq. }
  eexists e, _, _. split; [exact He|].
  split; [by rewrite Hdb, lookup_insert_eq|].
  split; [by rewrite Hout, last_snoc|].
  split; [exact HP|]. split; [exact HR|]. done.
Qed.

(** The theorem of X12 applied to a paid deposit, thirty days later. *)
Lemma refund_is_sent_twice_witness :
  ∃ e callsP callsR,
    PaymentRequest.recipientEmail Cases.settledDeposit = Some e ∧
    PaymentRequest.refundDate <$> db_paymentRequest (paid deposit) !! pid =
      Some (Some (addDays (LocalTZA (created deposit)) 30 (clock (paid deposit)))) ∧
    OutgoingPayment.scheduleDate <$> last (db_outgoingPayment (paid deposit)) =
      Some (addDays (LocalTZA (created deposit)) 30 (clock (paid deposit))) ∧
    sendCryptoCalls (exec PaymentCycle dueWorld) = sendCryptoCalls (paid deposit) ++ callsP ∧
    sendCryptoCalls (exec RefundCycle (exec PaymentCycle dueWorld)) =
      sendCryptoCalls (exec PaymentCycle dueWorld) ++ callsR ∧
    refundCall Cases.settledDeposit ∈ callsP ∧
    refundCall Cases.settledDeposit ∈ callsR.
Proof.
  apply (refund_is_sent_twice pid proof (created deposit)
           ((pid, Cases.settledDeposit), Some "0xA11CE") (paid deposit) 2592000000%N).
  - vm_compute. reflexivity.
  - reflexivity.
  - apply Z.leb_le. vm_compute. reflexivity.
Defined.

(** ** Wallet addresses *)

Lemma append_assoc (a b c : string) : (a +:+ b) +:+ c = a +:+ (b +:+ c).
Proof.
  induction a as [|x a IH]; [done|].
  change (String x ((a +:+ b) +:+ c) = String x (a +:+ (b +:+ c))). by rewrite IH.
Qed.

Lemma length_append (a b : string) :
  String.length (a +:+ b) = (String.length a + String.length b)%nat.
Proof.
  induction a as [|x a IH]; [done|].
  change (S (String.length (a +:+ b)) = S (String.length a + String.length b)).
  by rewrite IH.
Qed.

Lemma append_empty (a : string) : a +:+ EmptyString = a.
Proof.
  induction a as [|x a IH]; [done|].
  change (String x (a +:+ EmptyString) = String x a). by rewrite IH.
Qed.

Lemma floor_times_16 q : (0 <= q)%Q → (q < 1)%Q → 0 ≤ floor (q * inject_Z 16) < 16.
Proof.
  destruct q as [n d]. unfold Qle, Qlt, floor. simpl. intros H0 H1.
  rewrite Z.mul_1_r in H0. rewrite Pos.mul_1_r.
  split.
  - apply Z.div_pos; lia.
  - apply Z.div_lt_upper_bound; lia.
Qed.

Lemma charAt_hex k :
  0 ≤ k < 16 →
  ∃ c, charAt "0123456789abcdef" k = String c EmptyString ∧ isHexDigit c = true.
Proof.
  intros [H0 H1]. unfold charAt. rewrite bool_decide_true by done.
  assert (Hn : (Z.to_nat k < 16)%nat) by lia.
  generalize dependent (Z.to_nat k). intros n Hn.
  do 16 (destruct n as [|n]; [eexists; split; reflexivity|]). lia.
Qed.

Lemma foldl_append_hex (pick : nat → string) l acc :
  (∀ i, ∃ c, pick i = String c EmptyString ∧ isHexDigit c = true) →
  ∃ body, foldl (λ address i, address +:+ pick i) acc l = acc +:+ body ∧
          String.length body = length l ∧ allHex body = true.
Proof.
  intros Hpick. revert acc. induction l as [|i l IH]; intros acc; simpl.
  - exists EmptyString. by rewrite append_empty.
  - destruct (IH (acc +:+ pick i)) as (body & -> & Hlen & Hhex).
    destruct (Hpick i) as (c & -> & Hc).
    exists (String c body). rewrite append_assoc.
    split; [done|]. split; [simpl; by rewrite Hlen|]. simpl. by rewrite Hc, Hhex.
Qed.

Lemma validateAddress_0x body :
  validateAddress ("0x" +:+ body) = bool_decide (String.length body = 40%nat) && allHex body.
Proof. reflexivity. Qed.

Lemma generated_address_valid (random : nat → Q) :
  (∀ i, (0 <= random i)%Q ∧ (random i < 1)%Q) →
  ∃ body, generateMockAddress random = "0x" +:+ body ∧
          String.length body = 40%nat ∧ allHex body = true.
Proof.
  intros Hrandom. unfold generateMockAddress.
  apply (foldl_append_hex
           (λ i, charAt "0123456789abcdef"
                   (floor (random i * inject_Z (Z.of_nat (String.length "0123456789abcdef")))))
           (seq 0 40) "0x").
  intros i. apply charAt_hex. apply floor_times_16; apply Hrandom.
Qed.

(** X13. Every address [generateMockAddress] produces is accepted by
    [validateAddress], whatever values [Math.random()] returns in its range
    [0, 1): the result is "0x" followed by 40 lower-case hexadecimal
    digits. *)
Theorem generated_address_is_valid (random : nat → Q) :
  (∀ i, (0 <= random i)%Q ∧ (random i < 1)%Q) →
  validateAddress (generateMockAddress random) = true.
Proof.
  intros Hrandom.
  destruct (generated_address_valid random Hrandom) as (body & Heq & Hlen & Hhex).
  rewrite Heq, validateAddress_0x, Hlen, Hhex. done.
Qed.

(** The theorem of X13 applied to a source that always returns one half. *)
Lemma generated_address_is_valid_witness :
  validateAddress (generateMockAddress (λ _, 1 # 2)) = true.
Proof.
  apply (generated_address_is_valid (λ _, 1 # 2)).
  intros i. split; [vm_compute; discriminate | vm_compute; reflexivity].
Defined.

(** ** Creating a wallet *)

Lemma createPaymentRequest_with_wallet a s :
  truthy (db_user s !! arg_userId a ≫= User.walletAddress) = true →
  (createPaymentRequest a s).1 ≠ Throw noWalletMessage.
Proof.
  intros Hw.
  unfold createPaymentRequest, prisma.user_findUnique, prisma.paymentRequest_create,
    prisma.paymentRequest_findUnique.
  unfold_async.
  destruct (db_user s !! arg_userId a) as [u|]; simpl in *; [|done].
  destruct (User.walletAddress u) as [w|]; simpl in *; [|done].
  destruct (decide (w = "")) as [->|Hne]; [done|].
  rewrite (bool_decide_false (w = "")) by done.
  destruct (newDate_spec s) as (t1 & r1 & -> & _).
  destruct (random36_spec (set_time t1 r1 s)) as (d & r2 & ->).
  simpl.
  destruct (newDate_spec (set_randoms r2 (set_time t1 r1 s))) as (t2 & r3 & -> & _).
  simpl.
  destruct (db_paymentRequest s !! _) eqn:Hfresh; [done|].
  match goal with |- context [newDate ?x] => destruct (newDate_spec x) as (t3 & r4 & -> & _) end.
  done.
Qed.

Lemma validateAddress_nonempty w : validateAddress w = true → w ≠ "".
Proof. by intros H ->. Qed.

Arguments generateMockAddress : simpl never.

Lemma hasWallet_spec uid s :
  hasWallet uid s = (Return (truthy (db_user s !! uid ≫= User.walletAddress)), s).
Proof. reflexivity. Qed.

(** The endpoint, case by case. *)
Lemma postWalletCreate_run (random : nat → Q) uid net s :
  ∃ k,
  postWalletCreate random uid net s =
    if truthy (db_user s !! uid ≫= User.walletAddress)
    then (Return (walletRefused 400 "User already has a wallet"), s)
    else if negb (bool_decide (default "sei-testnet" net ∈ supportedNetworks))
    then (Return (walletRefused 400 "Invalid network"), s)
    else if negb (initialized s)
    then (Return (walletRefused 500 "Wallet creation failed"), s)
    else
      match db_user s !! uid with
      | None =>
          (Return (walletRefused 500 "Wallet creation failed"), set_time (nextDate s) k s)
      | Some u =>
          (Return (walletCreated
             (mkWalletData
                (default ("user_" +:+ uid +:+ "_wallet")
                   (jsOr (Some ("privy_" +:+ uid +:+ "_" +:+ pretty (nextDate s))) None))
                (generateMockAddress random) (default "sei-testnet" net))),
           set_db_user
             <[uid := User.mk (Some (generateMockAddress random)) (User.notionApiKey u)
                        (User.notionDatabases u)]>
             (set_time (nextDate s) k s))
      end.
Proof.
  destruct (newDate_spec s) as (t & k & Hd & _ & Ht). exists k. subst t.
  unfold postWalletCreate. cbv zeta. unfold tryCatch at 1.
  rewrite (bind_Return _ _ _ _ _ (hasWallet_spec uid s)).
  destruct (truthy (db_user s !! uid ≫= User.walletAddress)); [done|].
  destruct (bool_decide (default "sei-testnet" net ∈ supportedNetworks)); [|done].
  unfold createWallet, createPrivyWallet, user_update_wallet. unfold_async. simpl.
  destruct (initialized s); simpl; [|done].
  rewrite Hd. simpl. by destruct (db_user s !! uid).
Qed.

(** X14. [POST /api/wallet/create] gives a user at most one wallet. For a
    user who has a wallet it answers 400 "User already has a wallet" and
    changes nothing, so a wallet is never overwritten. When it answers 201
    the user had none, now has the returned address, which
    [validateAddress] accepts, no other user's record has changed, and
    [createPaymentRequest] no longer refuses that user for lack of a
    wallet. *)
Theorem wallet_is_created_once (random : nat → Q) uid net s :
  (∀ i, (0 <= random i)%Q ∧ (random i < 1)%Q) →
  let out := postWalletCreate random uid net s in
  (truthy (db_user s !! uid ≫= User.walletAddress) = true →
     out = (Return (walletRefused 400 "User already has a wallet"), s)) ∧
  (∀ data, out.1 = Return (walletCreated data) →
     truthy (db_user s !! uid ≫= User.walletAddress) = false ∧
     db_user out.2 !! uid ≫= User.walletAddress = Some (address data) ∧
     validateAddress (address data) = true ∧
     (∀ other, other ≠ uid → db_user out.2 !! other = db_user s !! other) ∧
     (∀ a, arg_userId a = uid → (createPaymentRequest a out.2).1 ≠ Throw noWalletMessage)).
Proof.
  intros Hrandom. cbv zeta.
  assert (Hvalid : validateAddress (generateMockAddress random) = true).
  { destruct (generated_address_valid random Hrandom) as (body & Heq & Hlen & Hhex).
    by rewrite Heq, validateAddress_0x, Hlen, Hhex. }
  destruct (postWalletCreate_run random uid net s) as [k ->].
  destruct (truthy (db_user s !! uid ≫= User.walletAddress)) eqn:Hhas.
  { split; [done|]. by intros data H. }
  split; [done|]. intros data.
  destruct (negb (bool_decide (default "sei-testnet" net ∈ supportedNetworks))); [done|].
  destruct (negb (initialized s)); [done|].
  destruct (db_user s !! uid) as [u|] eqn:Hu; [|done].
  cbn [fst snd]. intros [= <-]. cbn [address db_user set_db_user set_time].
  rewrite lookup_insert_eq.
  split; [done|]. split; [done|]. split; [exact Hvalid|]. split.
  - intros other Hne. by rewrite lookup_insert_ne.
  - intros a <-. apply createPaymentRequest_with_wallet.
    cbn [db_user set_db_user set_time]. rewrite lookup_insert_eq.
    apply bool_decide_eq_true. by apply validateAddress_nonempty.
Qed.

(** The theorem of X14 applied to a user without a wallet, and to the same
    user once the wallet is created. *)
Lemma wallet_is_created_once_witness :
  (db_user (postWalletCreate (λ _, 1 # 2) "carol" None world).2 !! "carol"
     ≫= User.walletAddress = Some (generateMockAddress (λ _, 1 # 2)) ∧
   validateAddress (generateMockAddress (λ _, 1 # 2)) = true) ∧
  postWalletCreate (λ _, 1 # 2) "carol" None
    (postWalletCreate (λ _, 1 # 2) "carol" None world).2
  = (Return (walletRefused 400 "User already has a wallet"),
     (postWalletCreate (λ _, 1 # 2) "carol" None world).2).
Proof.
  split.
  - destruct (proj2 (wallet_is_created_once (λ _, 1 # 2) "carol" None world
                       (λ i, conj (Qle_bool_imp_le 0 (1 # 2) eq_refl) eq_refl))
                (mkWalletData "privy_carol_1700000000003"
                   (generateMockAddress (λ _, 1 # 2)) "sei-testnet"))
      as (_ & Hwallet & Hvalid & _).
    + vm_compute. reflexivity.
    + split; [exact Hwallet|exact Hvalid].
  - apply (proj1 (wallet_is_created_once (λ _, 1 # 2) "carol" None
                    (postWalletCreate (λ _, 1 # 2) "carol" None world).2
                    (λ i, conj (Qle_bool_imp_le 0 (1 # 2) eq_refl) eq_refl))).
    vm_compute. reflexivity.
Defined.

(** The endpoint writes the users table as [PutUser] does when it keeps the
    wallets: not at all, or by giving one user a wallet address. *)
Lemma postWalletCreate_keepsWallets (random : nat → Q) uid net s :
  (∀ i, (0 <= random i)%Q ∧ (random i < 1)%Q) →
  db_user (run (postWalletCreate random uid net) s) = db_user s ∨
  ∃ u, db_user (run (postWalletCreate random uid net) s) = db_user (exec (PutUser uid u) s) ∧
       keepsWallets (PutUser uid u) s.
Proof.
  intros Hrandom. unfold run.
  destruct (postWalletCreate_run random uid net s) as [k ->].
  destruct (truthy _); [by left|].
  destruct (negb (bool_decide _)); [by left|].
  destruct (negb (initialized s)); [by left|].
  destruct (db_user s !! uid) as [u|]; [|by left].
  right. eexists. split; [reflexivity|]. intros _.
  destruct (generated_address_valid random Hrandom) as (body & Haddr & _).
  unfold walletOf. rewrite lookup_singleton_eq. cbn [mbind option_bind User.walletAddress].
  rewrite Haddr. by eexists.
Qed.

(** ** The scheduler's statistics *)

Lemma paymentDue_scheduled now p :
  paymentDue now p = true → OutgoingPayment.status p = "scheduled".
Proof.
  unfold paymentDue. intros H. apply andb_true_iff in H as [H _].
  by apply bool_decide_eq_true in H.
Qed.

Lemma filter_imap_snd (where_ : OutgoingPayment.t → bool) (g : nat → nat)
    (l : list OutgoingPayment.t) :
  (filter (λ row : nat * OutgoingPayment.t, where_ row.2 = true)
     (imap (λ i r, (g i, r)) l)).*2
  = filter (λ p, where_ p = true) l.
Proof.
  revert g. induction l as [|p l IH]; intros g; [done|].
  simpl. rewrite !filter_cons. simpl.
  destruct (decide (where_ p = true)); simpl; [f_equal|]; apply (IH (λ i, g (S i))).
Qed.

Lemma length_filter_impl {A} (P Q : A → Prop) `{!∀ x, Decision (P x)}
    `{!∀ x, Decision (Q x)} (l : list A) :
  (∀ x, P x → Q x) → (length (filter P l) ≤ length (filter Q l))%nat.
Proof.
  intros HPQ. induction l as [|x l IH]; [done|].
  rewrite !filter_cons. destruct (decide (P x)) as [HP|HP].
  - rewrite decide_True by auto. simpl. lia.
  - destruct (decide (Q x)); simpl; lia.
Qed.

Lemma length_selectedPayments_le where_ s :
  (∀ p, where_ p = true → OutgoingPayment.status p = "scheduled") →
  (length (selectedPayments where_ s) ≤
   length (filter (λ p, OutgoingPayment.status p = "scheduled") (db_outgoingPayment s)))%nat.
Proof.
  intros Hw. rewrite <- (length_fmap snd (selectedPayments where_ s)).
  unfold selectedPayments. rewrite (filter_imap_snd where_ (λ i, i)).
  by apply length_filter_impl.
Qed.

(** X15. The statistics agree with the cycles. [getStats] always resolves,
    changes nothing but the clock, and its [pendingRefunds] is exactly the
    number of sends the refund cycle makes when it is run in the same state;
    its [scheduledPayments] is an upper bound of the number of sends of the
    payment cycle (it also counts the payments that are not yet due). *)
Theorem stats_count_what_the_cycles_send sch s :
  ∃ stats k,
    getStats sch s = (Return stats, set_time (nextDate s) k s) ∧
    length (sendCryptoCalls (run processScheduledRefunds s)) =
      (length (sendCryptoCalls s) + pendingRefunds stats)%nat ∧
    (length (sendCryptoCalls (run processScheduledPayments s)) ≤
      length (sendCryptoCalls s) + scheduledPayments stats)%nat ∧
    stats_isRunning stats = isRunning sch ∧
    activeJobs stats = length (jobs sch).
Proof.
  destruct (newDate_spec s) as (t & k & Hd & _ & Ht). subst t.
  eexists _, k. split.
  { unfold getStats, tryCatch. rewrite (bind_Return _ _ _ _ _ Hd). reflexivity. }
  simpl. split; [|split; [|done]].
  - destruct (processScheduledRefunds_run s) as [k' ->].
    rewrite forOf_executeRefund_calls, findMany_keys.
    by rewrite length_app, !length_fmap.
  - destruct (processScheduledPayments_run s) as [k' ->].
    set (entries := _ <$> selectedPayments _ _).
    destruct (forOf_executeOutgoingPayment entries (set_time (nextDate s) k' s))
      as (_ & Hcalls & _).
    { unfold entries. rewrite selectedPayments_keys. apply selectedPayments_NoDup. }
    { intros [[j p] u] He. unfold entries in He.
      apply list_elem_of_fmap in He as ([j' p'] & Heq & Hsel). injection Heq as -> -> ->.
      apply selectedPayments_elem in Hsel as [Hp _]. simpl. by eexists. }
    rewrite Hcalls. unfold entries. rewrite selectedPayments_keys.
    rewrite length_app, !length_fmap. simpl. apply Nat.add_le_mono_l.
    apply length_selectedPayments_le. intros p. apply paymentDue_scheduled.
Qed.

(** ** Starting and stopping the scheduler *)

(** X16. However [start] and [stop] are called on a new scheduler, each of
    the three processors is registered at most once: while the scheduler is
    running its jobs are exactly the payment, refund and request processors,
    each once, and when it is not running there is none. A second [start]
    therefore never makes a cycle run twice. *)
Theorem scheduler_registers_each_job_once (calls : list SchedulerCall) :
  let sch := foldl call newScheduler calls in
  jobs sch =
    if isRunning sch
    then [("payment-processor", "* * * * *"); ("refund-processor", "0 * * * *");
          ("request-processor", "*/5 * * * *")]
    else [].
Proof.
  cbv zeta.
  set (registered := λ sch : Scheduler,
    jobs sch =
      if isRunning sch
      then [("payment-processor", "* * * * *"); ("refund-processor", "0 * * * *");
            ("request-processor", "*/5 * * * *")]
      else []).
  assert (Hstep : ∀ sch c, registered sch → registered (call sch c)).
  { intros [[] js] c Hsch; unfold registered in *; simpl in Hsch; subst js; by destruct c. }
  assert (Hall : ∀ sch, registered sch → registered (foldl call sch calls)).
  { induction calls as [|c calls IH]; intros sch Hsch; [exact Hsch|].
    simpl. apply IH, Hstep, Hsch. }
  by apply Hall.
Qed.

(** ** Scheduling a payment *)

Lemma schedulePayment_Return d s id p s1 :
  schedulePayment d s = (Return (id, p), s1) →
  id = length (db_outgoingPayment s) ∧
  s1 = set_db_outgoingPayment (λ l, l ++ [p]) s ∧
  is_Some (db_user s !! data_userId d) ∧
  OutgoingPayment.status p = "scheduled" ∧
  OutgoingPayment.scheduleDate p = data_scheduleDate d ∧
  OutgoingPayment.userId p = data_userId d ∧
  data_recipientAddress d = Some (OutgoingPayment.recipientAddress p).
Proof.
  unfold schedulePayment, prisma.outgoingPayment_create. unfold_async.
  destruct (db_user s !! data_userId d) as [u|]; simpl; [|done].
  destruct (data_recipientAddress d) as [to|]; simpl; [|done].
  intros [= <- <- <-]. simpl. eauto 10.
Qed.

(** X17. A payment scheduled with [schedulePayment] is stored [scheduled]
    under the next id, and the payment cycle leaves it alone until its
    schedule date: a cycle whose clock reading is before that date stores it
    unchanged; a cycle at or after it sends to the given recipient address
    and stores the row [completed] when the owner can send and [failed] when
    not. *)
Theorem scheduled_payment_runs_when_due d s id p s1 :
  schedulePayment d s = (Return (id, p), s1) →
  db_outgoingPayment s1 !! id = Some p ∧
  OutgoingPayment.status p = "scheduled" ∧
  let s2 := run processScheduledPayments s1 in
  ∃ calls, sendCryptoCalls s2 = sendCryptoCalls s1 ++ calls ∧
    if bool_decide (data_scheduleDate d ≤ nextDate s1)
    then paymentCall p ∈ calls ∧
         call_toAddress (paymentCall p) = data_recipientAddress d ∧
         ∃ t, db_outgoingPayment s2 !! id =
              Some (executed (sends s1 (data_userId d)) t p)
    else db_outgoingPayment s2 !! id = Some p.
Proof.
  intros Hret. apply schedulePayment_Return in Hret
    as (-> & -> & Huser & Hst & Hdate & Huid & Hto).
  set (s1 := set_db_outgoingPayment _ s).
  assert (Hrow : db_outgoingPayment s1 !! length (db_outgoingPayment s) = Some p).
  { unfold s1. simpl. apply lookup_snoc. }
  split; [exact Hrow|]. split; [exact Hst|]. cbv zeta.
  destruct (processScheduledPayments_run s1) as [k ->].
  set (entries := _ <$> selectedPayments _ _).
  destruct (forOf_executeOutgoingPayment entries (set_time (nextDate s1) k s1))
    as (_ & Hcalls & Hother & Hentry).
  { unfold entries. rewrite selectedPayments_keys. apply selectedPayments_NoDup. }
  { intros [[j q] u] He. unfold entries in He.
    apply list_elem_of_fmap in He as ([j' q'] & Heq & Hsel). injection Heq as -> -> ->.
    apply selectedPayments_elem in Hsel as [Hq _]. simpl. by eexists. }
  assert (Hkeys : entries.*1 = selectedPayments (paymentDue (nextDate s1)) s1).
  { unfold entries. apply selectedPayments_keys. }
  rewrite Hkeys in Hcalls, Hother.
  eexists. split; [exact Hcalls|].
  case_bool_decide as Hdue.
  - assert (Hsel : (length (db_outgoingPayment s), p)
                     ∈ selectedPayments (paymentDue (nextDate s1)) s1).
    { apply selectedPayments_elem. split; [done|]. unfold paymentDue.
      apply andb_true_iff. split; apply bool_decide_eq_true; [done|congruence]. }
    split; [|split].
    + apply list_elem_of_fmap_2.
      by apply (list_elem_of_fmap_2 snd _ (length (db_outgoingPayment s), p)).
    + by rewrite Hto.
    + destruct (Hentry (length (db_outgoingPayment s)) p
                  (db_user s1 !! OutgoingPayment.userId p) p) as (t & Ht).
      { unfold entries.
        by apply (list_elem_of_fmap_2
          (λ row : nat * OutgoingPayment.t, (row, db_user s1 !! OutgoingPayment.userId row.2))
          _ (length (db_outgoingPayment s), p)). }
      { done. }
      exists t. rewrite Ht. do 2 f_equal.
      rewrite Huid. change (sends (set_time (nextDate s1) k s1) (data_userId d))
        with (sends s1 (data_userId d)).
      change (db_user s1) with (db_user s). destruct Huser as [u ->].
      by rewrite andb_true_r.
  - rewrite Hother; [done|]. intros Hin.
    apply list_elem_of_fmap in Hin as ([j q] & Hj & Hsel). simpl in Hj. subst j.
    apply selectedPayments_elem in Hsel as [Hq Hw].
    rewrite Hrow in Hq. injection Hq as <-.
    unfold paymentDue in Hw. apply andb_true_iff in Hw as [_ Hw].
    apply bool_decide_eq_true in Hw. apply Hdue. congruence.
Qed.

(** The theorem of X17 applied to a payment scheduled one hour ahead, with
    the cycle run at once and run two hours later. *)
Lemma scheduled_payment_runs_when_due_witness :
  (db_outgoingPayment (schedulePayment Cases.rent world).2 !! 0%nat = Some Cases.rentRow ∧
   OutgoingPayment.status Cases.rentRow = "scheduled" ∧
   ∃ calls,
     sendCryptoCalls (run processScheduledPayments (schedulePayment Cases.rent world).2) =
       sendCryptoCalls (schedulePayment Cases.rent world).2 ++ calls ∧
     if bool_decide (data_scheduleDate Cases.rent
                       ≤ nextDate (schedulePayment Cases.rent world).2)
     then paymentCall Cases.rentRow ∈ calls ∧
          call_toAddress (paymentCall Cases.rentRow) = data_recipientAddress Cases.rent ∧
          ∃ t, db_outgoingPayment
                 (run processScheduledPayments (schedulePayment Cases.rent world).2) !! 0%nat =
               Some (executed (sends (schedulePayment Cases.rent world).2
                                 (data_userId Cases.rent)) t Cases.rentRow)
     else db_outgoingPayment
            (run processScheduledPayments (schedulePayment Cases.rent world).2) !! 0%nat
          = Some Cases.rentRow) ∧
  (db_outgoingPayment (schedulePayment Cases.rent (exec (Wait 7200000) world)).2 !! 0%nat
     = Some Cases.rentRow ∧
   OutgoingPayment.status Cases.rentRow = "scheduled" ∧
   ∃ calls,
     sendCryptoCalls
       (run processScheduledPayments
          (schedulePayment Cases.rent (exec (Wait 7200000) world)).2) =
       sendCryptoCalls (schedulePayment Cases.rent (exec (Wait 7200000) world)).2 ++ calls ∧
     if bool_decide (data_scheduleDate Cases.rent
                       ≤ nextDate (schedulePayment Cases.rent (exec (Wait 7200000) world)).2)
     then paymentCall Cases.rentRow ∈ calls ∧
          call_toAddress (paymentCall Cases.rentRow) = data_recipientAddress Cases.rent ∧
          ∃ t, db_outgoingPayment
                 (run processScheduledPayments
                    (schedulePayment Cases.rent (exec (Wait 7200000) world)).2) !! 0%nat =
               Some (executed (sends (schedulePayment Cases.rent (exec (Wait 7200000) world)).2
                                 (data_userId Cases.rent)) t Cases.rentRow)
     else db_outgoingPayment
            (run processScheduledPayments
               (schedulePayment Cases.rent (exec (Wait 7200000) world)).2) !! 0%nat
          = Some Cases.rentRow).
Proof.
  split.
  - apply (scheduled_payment_runs_when_due Cases.rent world 0 Cases.rentRow
             (schedulePayment Cases.rent world).2).
    vm_compute. reflexivity.
  - apply (scheduled_payment_runs_when_due Cases.rent (exec (Wait 7200000) world) 0
             Cases.rentRow (schedulePayment Cases.rent (exec (Wait 7200000) world)).2).
    vm_compute. reflexivity.
Defined.

(** ** Quotes *)

(** X18. The quote follows the route. For a request that has just been
    created, [calculatePaymentOptions] quotes a direct payment of the
    requested amount in the request's currency, whatever token the payer
    prefers; once a settlement or a cancellation has resolved it reports
    "Payment route not found" in its result. It never throws and never
    changes the state. *)
Theorem quote_follows_the_route tok :
  (∀ a s res s',
     createPaymentRequest a s = (Return res, s') →
     calculatePaymentOptions (paymentId res) tok s' =
       (Return (directPayment (paymentId res) (default "SEI" tok)
                  (default "USDC" (arg_currency a)) (arg_amount a)
                  (default "USDC" (arg_currency a))), s')) ∧
  (∀ id proof s,
     resolves (handlePaymentSuccess id proof s).1 = true →
     calculatePaymentOptions id tok (run (handlePaymentSuccess id proof) s) =
       (Return (optionsError "Payment route not found"),
        run (handlePaymentSuccess id proof) s)) ∧
  (∀ id s,
     resolves (cancelPaymentRequest id s).1 = true →
     calculatePaymentOptions id tok (run (cancelPaymentRequest id) s) =
       (Return (optionsError "Payment route not found"),
        run (cancelPaymentRequest id) s)).
Proof.
  assert (Hnone : ∀ id s, paymentRoutes s !! id = None →
    calculatePaymentOptions id tok s = (Return (optionsError "Payment route not found"), s)).
  { intros id s H. unfold calculatePaymentOptions. unfold_async. by rewrite H. }
  split; [|split].
  - intros a s res s' Hcreate.
    apply createPaymentRequest_Return in Hcreate as (w & t & _ & _ & _ & Hroutes & _).
    unfold calculatePaymentOptions. unfold_async. by rewrite Hroutes, lookup_insert_eq.
  - intros id proof s Hres. unfold run.
    destruct (handlePaymentSuccess id proof s) as [[res|e] s'] eqn:Hout; [|done].
    apply handlePaymentSuccess_Return in Hout
      as (r0 & r' & tx & _ & _ & _ & _ & _ & _ & _ & Hroute & _).
    by apply Hnone.
  - intros id s Hres. unfold run. rewrite cancelPaymentRequest_spec in Hres |- *.
    destruct (db_paymentRequest s !! id) as [r|]; [|done].
    apply Hnone. simpl. by rewrite lookup_delete_eq.
Qed.

(** The theorem of X18 applied to an invoice: created, paid, cancelled. *)
Lemma quote_follows_the_route_witness :
  calculatePaymentOptions pid (Some "SEI") (created invoice) =
    (Return (directPayment pid "SEI" "USDC" (100 # 1) "USDC"), created invoice) ∧
  calculatePaymentOptions pid (Some "SEI") (paid invoice) =
    (Return (optionsError "Payment route not found"), paid invoice) ∧
  calculatePaymentOptions pid (Some "SEI") (exec (Cancel pid) (created invoice)) =
    (Return (optionsError "Payment route not found"), exec (Cancel pid) (created invoice)).
Proof.
  split; [|split].
  - apply (proj1 (quote_follows_the_route (Some "SEI")) invoice world
             Cases.createdInvoice (created invoice)).
    vm_compute. reflexivity.
  - apply (proj1 (proj2 (quote_follows_the_route (Some "SEI"))) pid proof (created invoice)).
    vm_compute. reflexivity.
  - apply (proj2 (proj2 (quote_follows_the_route (Some "SEI"))) pid (created invoice)).
    vm_compute. reflexivity.
Defined.

(** ** The payment link and its id *)

Lemma append_cons c (a b : string) : String c a +:+ b = String c (a +:+ b).
Proof. reflexivity. Qed.

Lemma stripPrefix_app m w x r :
  stripPrefix m w = Some r → stripPrefix m (w +:+ x) = Some (r +:+ x).
Proof.
  revert w. induction m as [|a m IH]; intros w H.
  - destruct w; simpl in H; by injection H as <-.
  - destruct w as [|b w]; [done|]. rewrite append_cons. simpl in *.
    destruct (bool_decide (a = b)); [by apply IH|done].
Qed.

Lemma stripPrefix_app_None m w x :
  stripPrefix m w = None → (String.length m ≤ String.length w)%nat →
  stripPrefix m (w +:+ x) = None.
Proof.
  revert w. induction m as [|a m IH]; intros w H Hlen.
  - by destruct w.
  - destruct w as [|b w]; [simpl in Hlen; lia|]. rewrite append_cons. simpl in *.
    destruct (bool_decide (a = b)); [apply IH; [done|lia]|done].
Qed.

Lemma stripPrefix_length m w r :
  stripPrefix m w = Some r →
  String.length w = (String.length m + String.length r)%nat.
Proof.
  revert w. induction m as [|a m IH]; intros w H.
  - destruct w; simpl in H; by injection H as <-.
  - destruct w as [|b w]; [done|]. simpl in *.
    destruct (bool_decide (a = b)); [|done]. by rewrite (IH w).
Qed.

Lemma segment_app_empty r x :
  r ≠ EmptyString → segment r = EmptyString → segment (r +:+ x) = EmptyString.
Proof.
  destruct r as [|c r]; [done|]. intros _. rewrite append_cons. simpl.
  by destruct (isSeparator c).
Qed.

Lemma segment_clean_app a b : segment a = a → segment (a +:+ b) = a +:+ segment b.
Proof.
  induction a as [|c a IH]; [done|]. rewrite !append_cons. simpl.
  destruct (isSeparator c); [done|]. intros [= H]. by rewrite IH.
Qed.

Arguments stripPrefix : simpl never.
Arguments segment : simpl never.

(** A match that fails in [w] still fails when text is appended, once [w] is
    longer than the route prefix. *)
Lemma matchHere_app_None w x :
  (String.length "/x402pay/" < String.length w)%nat →
  matchHere w = None → matchHere (w +:+ x) = None.
Proof.
  unfold matchHere. intros Hlen H.
  destruct (stripPrefix "/x402pay/" w) as [r|] eqn:Hr; simpl in *.
  - rewrite (stripPrefix_app _ _ x r Hr). simpl.
    case_bool_decide as Hseg; [|done].
    rewrite segment_app_empty; [done| |done].
    intros ->. apply stripPrefix_length in Hr. rewrite Hr in Hlen. simpl in Hlen. lia.
  - rewrite stripPrefix_app_None; [done|done|simpl; lia].
Qed.

Lemma extractPaymentIdFromUrl_None_inv c w :
  extractPaymentIdFromUrl (String c w) = None →
  matchHere (String c w) = None ∧ extractPaymentIdFromUrl w = None.
Proof.
  intros H.
  change (match matchHere (String c w) with
          | Some id => Some id
          | None => extractPaymentIdFromUrl w
          end = None) in H.
  by destruct (matchHere (String c w)).
Qed.

Lemma extractPaymentIdFromUrl_unfold url :
  extractPaymentIdFromUrl url =
    match matchHere url with
    | Some id => Some id
    | None =>
        match url with
        | EmptyString => None
        | String _ rest => extractPaymentIdFromUrl rest
        end
    end.
Proof. by destruct url. Qed.

(** The id is read back from a link made of a base, the route prefix and the
    id. *)
Lemma extractPaymentIdFromUrl_link base id :
  extractPaymentIdFromUrl (base +:+ "/x402pay/") = None →
  segment id = id → id ≠ EmptyString →
  extractPaymentIdFromUrl (base +:+ "/x402pay/" +:+ id) = Some id.
Proof.
  intros Hbase Hid Hne. induction base as [|c base IH].
  - rewrite extractPaymentIdFromUrl_unfold. unfold matchHere.
    change (EmptyString +:+ "/x402pay/" +:+ id) with ("/x402pay/" +:+ id).
    rewrite (stripPrefix_app "/x402pay/" "/x402pay/" id EmptyString eq_refl).
    change (EmptyString +:+ id) with id. simpl. rewrite Hid.
    by rewrite bool_decide_false.
  - apply extractPaymentIdFromUrl_None_inv in Hbase as [Hhere Hrest].
    rewrite extractPaymentIdFromUrl_unfold.
    replace (String c base +:+ "/x402pay/" +:+ id)
      with ((String c base +:+ "/x402pay/") +:+ id) by apply append_assoc.
    rewrite matchHere_app_None; [|rewrite length_append; simpl; lia|exact Hhere].
    rewrite append_assoc, append_cons. by apply IH.
Qed.

(** Decimal digits and the minus sign are not separators. *)
Lemma segment_pretty_N_go x s : segment s = s → segment (pretty_N_go x s) = pretty_N_go x s.
Proof.
  revert s. induction (N.lt_wf_0 x) as [x _ IH]; intros s Hs.
  assert (x = 0 ∨ 0 < x)%N as [->|Hx] by lia.
  - by rewrite pretty_N_go_0.
  - rewrite pretty_N_go_step by done. apply IH; [by apply N.div_lt|].
    change (segment (String ?c s)) with (if isSeparator c then EmptyString else String c (segment s)).
    rewrite Hs. unfold pretty_N_char. by repeat case_match.
Qed.

Lemma segment_pretty_Z (z : Z) : segment (pretty z) = pretty z.
Proof.
  assert (HN : ∀ n : N, segment (pretty n) = pretty n).
  { intros n. unfold pretty, pretty_N. destruct (decide (n = 0%N)); [done|].
    by apply segment_pretty_N_go. }
  destruct z as [|p|p]; [done|apply (HN (Npos p))|].
  unfold pretty, pretty_Z. rewrite (segment_clean_app "-") by done.
  f_equal. apply (HN (Npos p)).
Qed.

Lemma createPaymentRequest_link a s res s' :
  createPaymentRequest a s = (Return res, s') →
  paymentId res =
    "x402_" +:+ pretty (nextDate s) +:+ "_" +:+ default EmptyString (head (randoms s)) ∧
  paymentUrl res =
    default "http://localhost:3001" (jsOr (BASE_URL s) None)
      +:+ "/x402pay/" +:+ paymentId res ∧
  PaymentRequest.x402PayLink (request res) = Some (paymentUrl res).
Proof.
  unfold createPaymentRequest, prisma.user_findUnique, prisma.paymentRequest_create,
    prisma.paymentRequest_findUnique.
  unfold_async.
  destruct (db_user s !! arg_userId a) as [u|]; simpl; [|done].
  destruct (User.walletAddress u) as [w|]; simpl; [|done].
  case_bool_decide as Hw; [done|].
  destruct (newDate_spec s) as (t1 & r1 & -> & _ & ->).
  assert (Hrnd : ∃ r2, random36 (set_time (nextDate s) r1 s) =
            (Return (default EmptyString (head (randoms s))),
             set_randoms r2 (set_time (nextDate s) r1 s))).
  { unfold random36. simpl. destruct (randoms s) as [|r rest] eqn:Hr; simpl; [|by eexists].
    exists []. destruct s; simpl in *. by subst. }
  destruct Hrnd as [r2 ->]. simpl.
  destruct (newDate_spec (set_randoms r2 (set_time (nextDate s) r1 s))) as (t2 & r3 & -> & _).
  simpl.
  destruct (db_paymentRequest s !! _) eqn:Hfresh; [done|].
  match goal with |- context [newDate ?x] => destruct (newDate_spec x) as (t3 & r4 & -> & _) end.
  simpl. by intros [= <- <-].
Qed.

(** X19. The payment link round trip. [extractPaymentIdFromUrl] applied to
    the link [createPaymentRequest] returns, which is also the link stored
    on the request, gives back the id of the request, provided the base URL
    does not itself contain the route prefix followed by a path segment and
    the random digits contain no slash and no question mark. *)
Theorem payment_link_round_trip a s res s' :
  createPaymentRequest a s = (Return res, s') →
  extractPaymentIdFromUrl
    (default "http://localhost:3001" (jsOr (BASE_URL s) None) +:+ "/x402pay/") = None →
  Forall (λ digits, segment digits = digits) (randoms s) →
  extractPaymentIdFromUrl (paymentUrl res) = Some (paymentId res) ∧
  PaymentRequest.x402PayLink (request res) = Some (paymentUrl res).
Proof.
  intros Hcreate Hbase Hdigits.
  apply createPaymentRequest_link in Hcreate as (Hid & Hurl & Hlink).
  split; [|exact Hlink]. rewrite Hurl.
  apply extractPaymentIdFromUrl_link; [exact Hbase| |].
  - rewrite Hid. rewrite (segment_clean_app "x402_") by done. f_equal.
    rewrite segment_clean_app by apply segment_pretty_Z. f_equal.
    rewrite (segment_clean_app "_") by done. f_equal.
    destruct (randoms s) as [|r rest]; [done|]. simpl. by inversion Hdigits.
  - by rewrite Hid.
Qed.

(** The theorem of X19 applied to the first invoice of [world]. *)
Lemma payment_link_round_trip_witness :
  extractPaymentIdFromUrl (paymentUrl Cases.createdInvoice)
    = Some (paymentId Cases.createdInvoice) ∧
  PaymentRequest.x402PayLink (request Cases.createdInvoice)
    = Some (paymentUrl Cases.createdInvoice).
Proof.
  apply (payment_link_round_trip invoice world Cases.createdInvoice (created invoice)).
  - vm_compute. reflexivity.
  - vm_compute. reflexivity.
  - repeat constructor.
Defined.

(** ** Which requests the activation cycle picks up *)

#[export] Instance scheduleKept_preorder : PreOrder scheduleKept.
Proof.
  split.
  - intros s id r Hr. by exists r.
  - intros s1 s2 s3 H12 H23 id r Hr.
    destruct (H12 id r Hr) as (r2 & Hr2 & E2 & S2).
    destruct (H23 id r2 Hr2) as (r3 & Hr3 & E3 & S3).
    exists r3. split; [done|]. split; [congruence|auto].
Qed.

Lemma scheduleKept_of_agree {A} (m : Async A) :
  preserves (agreeOn db_paymentRequest) m → preserves scheduleKept m.
Proof. intros H s id r Hr. exists r. by rewrite (H s). Qed.

Lemma update_scheduleKept id data :
  (∀ r, terms (data r) = terms r ∧
        (PaymentRequest.status (data r) = "scheduled" →
         PaymentRequest.status r = "scheduled")) →
  preserves scheduleKept (prisma.paymentRequest_update id data).
Proof.
  intros Hdata s. unfold prisma.paymentRequest_update, prisma.paymentRequest_findUnique.
  unfold_async. destruct (db_paymentRequest s !! id) as [r0|] eqn:Hr0; simpl; [|reflexivity].
  intros id' r Hr. simpl. destruct (decide (id' = id)) as [->|Hne].
  - rewrite lookup_insert_eq. exists (data r0). split; [done|].
    destruct (Hdata r0) as [Ht Hs]. assert (r0 = r) as -> by congruence. done.
  - rewrite lookup_insert_ne by done. by exists r.
Qed.

Lemma create_scheduleKept id data :
  preserves scheduleKept (prisma.paymentRequest_create id data).
Proof.
  intros s. unfold prisma.paymentRequest_create, prisma.paymentRequest_findUnique.
  unfold_async. destruct (db_paymentRequest s !! id) as [r0|] eqn:Hr0; simpl; [reflexivity|].
  intros id' r Hr. simpl. exists r. split; [|done].
  rewrite lookup_insert_ne; [done|]. intros ->. congruence.
Qed.

Create HintDb schedule discriminated.
#[export] Hint Resolve create_scheduleKept : schedule.
#[export] Hint Extern 1 (preserves scheduleKept (prisma.paymentRequest_update _ _)) =>
  apply update_scheduleKept; intros []; split;
    [reflexivity|simpl; intros H; first [discriminate H|exact H]] : schedule.

Ltac schedule_walk :=
  repeat first
    [ solve [auto 1 with schedule nocore]
    | frame_step
    | solve [apply scheduleKept_of_agree; unfold_prisma; frame] ].

Lemma exec_scheduleKept op s : scheduleKept s (exec op s).
Proof.
  destruct op as [a|pid proof|pid|pid x mc hs| | | | |uid u|ok|elapsed|elapsed digits];
    unfold exec; try (by intros id r Hr; exists r).
  all: match goal with |- scheduleKept ?s (run ?m ?s) =>
         revert s; change (preserves scheduleKept m) end.
  all: unfold_services; schedule_walk.
Qed.

Lemma execAll_scheduleKept ops s : scheduleKept s (execAll ops s).
Proof.
  unfold execAll. revert s. induction ops as [|op ops IH]; intros s; simpl; [reflexivity|].
  etrans; [apply exec_scheduleKept|apply IH].
Qed.

Lemma activationDue_terms now r r' :
  terms r' = terms r →
  activationDue now r' =
    bool_decide (PaymentRequest.scheduleType r = "scheduled")
    && bool_decide (PaymentRequest.status r' = "scheduled")
    && lte (PaymentRequest.scheduledDate r) now.
Proof.
  intros Ht. unfold activationDue.
  pose proof (f_equal PaymentRequest.scheduleType Ht) as H1.
  pose proof (f_equal PaymentRequest.scheduledDate Ht) as H2.
  simpl in H1, H2. by rewrite H1, H2.
Qed.

(** X20. Which requests the activation cycle selects is decided by what they
    were created with and by their status. After any sequence of operations
    a created request is still stored, and the query of the activation cycle
    selects it at a clock reading [now] exactly when it was created with
    schedule type [scheduled] and a scheduled date at or before [now], and
    its status is still [scheduled]. Once its status has left [scheduled]
    (it was activated, paid, cancelled or refunded), no later sequence of
    operations makes it selected again. *)
Theorem activation_is_decided_at_creation a s res s' ops :
  createPaymentRequest a s = (Return res, s') →
  ∃ r, db_paymentRequest (execAll ops s') !! paymentId res = Some r ∧
    (∀ now, activationDue now r =
       bool_decide (arg_scheduleType a = Some "scheduled")
       && bool_decide (PaymentRequest.status r = "scheduled")
       && lte (arg_scheduledDate a) now) ∧
    (PaymentRequest.status r ≠ "scheduled" →
     ∀ more now, ∃ r',
       db_paymentRequest (execAll more (execAll ops s')) !! paymentId res = Some r' ∧
       activationDue now r' = false).
Proof.
  intros Hcreate. apply createPaymentRequest_Return in Hcreate
    as (w & t & _ & _ & Hdb & _ & _ & Hty & Hdate & _).
  destruct (execAll_scheduleKept ops s' (paymentId res) (request res))
    as (r & Hr & Ht & _); [by rewrite Hdb, lookup_insert_eq|].
  exists r. split; [exact Hr|]. split.
  - intros now. rewrite (activationDue_terms now (request res) r Ht), Hty, Hdate.
    f_equal. f_equal.
    destruct (arg_scheduleType a) as [ty|]; simpl; [|done].
    destruct (decide (ty = "scheduled")) as [->|Hne].
    + by rewrite !bool_decide_true.
    + rewrite (bool_decide_false (ty = "scheduled")) by done.
      by rewrite (bool_decide_false (Some ty = Some "scheduled")) by congruence.
  - intros Hst more now.
    destruct (execAll_scheduleKept more (execAll ops s') (paymentId res) r Hr)
      as (r' & Hr' & Ht' & Hs').
    exists r'. split; [exact Hr'|].
    rewrite (activationDue_terms now r r' Ht').
    rewrite (bool_decide_false (PaymentRequest.status r' = "scheduled")) by auto.
    by rewrite andb_false_r.
Qed.

(** The theorem of X20 applied to a request scheduled one hour ahead, once
    that hour has passed and the activation cycle has run. *)
Lemma activation_is_decided_at_creation_witness :
  ∃ r, db_paymentRequest
         (execAll [Wait 3600000; RequestCycle] (created futureInvoice)) !! pid = Some r ∧
    (∀ now, activationDue now r =
       bool_decide (arg_scheduleType futureInvoice = Some "scheduled")
       && bool_decide (PaymentRequest.status r = "scheduled")
       && lte (arg_scheduledDate futureInvoice) now) ∧
    (PaymentRequest.status r ≠ "scheduled" →
     ∀ more now, ∃ r',
       db_paymentRequest
         (execAll more (execAll [Wait 3600000; RequestCycle] (created futureInvoice))) !! pid
         = Some r' ∧
       activationDue now r' = false).
Proof.
  apply (activation_is_decided_at_creation futureInvoice world
    (mkCreateResult true pid
      "http://localhost:3001/x402pay/x402_1700000000003_k3x9q" "0xA11CE"
      (PaymentRequest.mk "alice" (100 # 1) "USDC" "sei-testnet" (Some "bob@example.com")
         (Some "Bob") (Some "Deposit") None "ask_payment" "scheduled" (Some 1700003600000)
         "scheduled"
         (Some "http://localhost:3001/x402pay/x402_1700000000003_k3x9q")
         None None None 1700000000003))
    (created futureInvoice) [Wait 3600000; RequestCycle]).
  vm_compute. reflexivity.
Defined.
